(** * Nix AI: the matching and learning core of the conversational engine

    A shallow embedding of [NixAICore] (src/main.py): the knowledge
    document, the user profiles, the rule table with its handlers, the
    question/answer matcher, the confidence score, the weather cache in
    front of the HTTP provider, and [process_message], the entry point
    of a turn.

    Conventions of the embedding.
    - A Python [str] is the list of its code points ([list N]); literals
      are written [u "..."] and decoded from UTF-8.
    - Python [int] is [Z]; a [datetime] is the number of microseconds
      since 0001-01-01T00:00:00 ([Z]), so that subtracting two of them
      and comparing with a [timedelta] is integer arithmetic.
    - The knowledge document is a record of dictionaries; a dictionary
      whose iteration order is observed by the code is an insertion
      ordered association list, the others are [gmap]s.
    - Methods of [NixAICore] are computations in a state-and-exception
      monad over the object: a raised exception keeps the mutations
      performed before it, as in Python.
    - [random.choice] reads a number supplied by the caller of the turn;
      [datetime.now()] reads the clock value supplied by the caller.
    - What belongs to the Python runtime (Unicode case mapping and
      character classes, [strftime], [isoformat]) and to the outside
      world (the HTTP provider) is an interface, see [PyRuntime] and
      [WeatherService]. *)

From Stdlib Require Import ZArith QArith Qcanon String DecimalString.
From Stdlib.Strings Require Import Byte.
From stdpp Require Import base gmap list sorting.

Local Open Scope Z_scope.

(** ** Strings *)

(** Decoding of a UTF-8 byte sequence into code points. *)
Fixpoint utf8_decode (bs : list N) : list N :=
  match bs with
  | [] => []
  | b :: r =>
      if (b <? 128)%N then b :: utf8_decode r
      else if (b <? 224)%N then
        match r with
        | b1 :: r1 => ((b - 192) * 64 + (b1 - 128))%N :: utf8_decode r1
        | _ => []
        end
      else if (b <? 240)%N then
        match r with
        | b1 :: b2 :: r2 =>
            ((b - 224) * 4096 + (b1 - 128) * 64 + (b2 - 128))%N :: utf8_decode r2
        | _ => []
        end
      else
        match r with
        | b1 :: b2 :: b3 :: r3 =>
            ((b - 240) * 262144 + (b1 - 128) * 4096 + (b2 - 128) * 64 + (b3 - 128))%N
              :: utf8_decode r3
        | _ => []
        end
  end.

(** A string literal of the source. *)
Definition u (s : string) : list N :=
  utf8_decode (map Byte.to_N (list_byte_of_string s)).
Arguments u s%_string.

Arguments u : simpl never.

Definition nl : list N := [10%N].
Definition dquote : list N := [34%N].

(** [str(n)] for an [int]. *)
Definition str_of_int (n : Z) : list N := u (NilZero.string_of_int (Z.to_int n)).

(** [s.startswith(p)]. *)
Fixpoint starts_with (p s : list N) : bool :=
  match p, s with
  | [], _ => true
  | _ :: _, [] => false
  | c :: p', d :: s' => bool_decide (c = d) && starts_with p' s'
  end.

(** [needle in hay] on strings. *)
Fixpoint str_in (needle hay : list N) : bool :=
  starts_with needle hay ||
  match hay with
  | [] => false
  | _ :: hay' => str_in needle hay'
  end.

Fixpoint take_while (p : N -> bool) (s : list N) : list N :=
  match s with
  | c :: s' => if p c then c :: take_while p s' else []
  | [] => []
  end.

Fixpoint drop_while (p : N -> bool) (s : list N) : list N :=
  match s with
  | c :: s' => if p c then drop_while p s' else s
  | [] => []
  end.

(** [pattern.split("|")]: the alternatives of a rule pattern. *)
Fixpoint split_on (sep : N) (cur : list N) (s : list N) : list (list N) :=
  match s with
  | [] => [rev cur]
  | c :: s' =>
      if bool_decide (c = sep) then rev cur :: split_on sep [] s'
      else split_on sep (c :: cur) s'
  end.

(** Lexicographic order on code points, the order of [sorted] on
    strings. *)
Fixpoint str_leb (a b : list N) : bool :=
  match a, b with
  | [], _ => true
  | _ :: _, [] => false
  | c :: a', d :: b' => (c <? d)%N || (bool_decide (c = d) && str_leb a' b')
  end.

Fixpoint insert_sorted (x : list N) (l : list (list N)) : list (list N) :=
  match l with
  | [] => [x]
  | y :: l' => if str_leb y x then y :: insert_sorted x l' else x :: l
  end.

(** [sorted(l)] on a list of strings. *)
Definition sorted (l : list (list N)) : list (list N) :=
  foldr insert_sorted [] (rev l).

(** [sep.join(l)]. *)
Fixpoint join (sep : list N) (l : list (list N)) : list N :=
  match l with
  | [] => []
  | [x] => x
  | x :: l' => x ++ sep ++ join sep l'
  end.

(** ** The Python runtime

    The Unicode tables behind [str.lower], [\w], [\s] and [str.strip],
    and the formatting of a [datetime]. *)
Class PyRuntime := {
  lower : list N -> list N;
  is_word : N -> bool;
  is_space : N -> bool;
  strftime_HMS : Z -> list N;
  strftime_dmY : Z -> list N;
  isoformat : Z -> list N;
}.

(** ** Regular expressions of the source

    Every rule pattern is an alternation of literal texts, for which
    [re.search] succeeds exactly when one alternative occurs in the
    subject.  The two patterns with a capture group are a sequence of
    items followed by the group [(.+)]; they are run by a backtracking
    matcher with Python's greedy, leftmost semantics. *)

Definition bar : N := 124%N.

(** [re.search(pattern, text)] is truthy, for an alternation of
    literals. *)
Definition re_search (pattern text : list N) : bool :=
  existsb (fun alt => str_in alt text) (split_on bar [] pattern).

Inductive re_item :=
| Lit (s : list N)                      (* literal text *)
| Rep (cls : N -> bool) (least : nat)   (* cls{least,}, greedy *)
| OptAlt (alts : list (list N)).        (* (?:a|b)?, greedy *)

(** The final group [(.+)]: one or more characters other than a line
    feed, as many as possible. *)
Definition dot_plus (s : list N) : option (list N) :=
  match take_while (fun c => negb (bool_decide (c = 10%N))) s with
  | [] => None
  | g => Some g
  end.

(** A greedy repetition: the longest run first, then shorter ones. *)
Fixpoint try_counts (k : list N -> option (list N)) (least n : nat) (s : list N)
  : option (list N) :=
  if (n <? least)%nat then None
  else
    match k (drop n s) with
    | Some g => Some g
    | None =>
        match n with
        | O => None
        | S n' => try_counts k least n' s
        end
    end.

Fixpoint first_alt (k : list N -> option (list N)) (alts : list (list N)) (s : list N)
  : option (list N) :=
  match alts with
  | [] => None
  | a :: alts' =>
      match (if starts_with a s then k (drop (length a) s) else None) with
      | Some g => Some g
      | None => first_alt k alts' s
      end
  end.

(** Match at the start of [s]; the result is [group(1)]. *)
Fixpoint match_items (items : list re_item) (s : list N) : option (list N) :=
  match items with
  | [] => dot_plus s
  | Lit l :: items' =>
      if starts_with l s then match_items items' (drop (length l) s) else None
  | Rep cls least :: items' =>
      try_counts (match_items items') least (length (take_while cls s)) s
  | OptAlt alts :: items' =>
      match first_alt (match_items items') alts s with
      | Some g => Some g
      | None => match_items items' s
      end
  end.

(** [re.search(items + "(.+)", s)]: the leftmost match, [group(1)]. *)
Fixpoint re_search_group (items : list re_item) (s : list N) : option (list N) :=
  match match_items items s with
  | Some g => Some g
  | None =>
      match s with
      | [] => None
      | _ :: s' => re_search_group items s'
      end
  end.

(** [re.findall(r'\b\w+\b', s)]: the maximal runs of word characters. *)
Fixpoint findall_words (word : N -> bool) (cur : list N) (s : list N) : list (list N) :=
  match s with
  | [] => match cur with [] => [] | _ => [rev cur] end
  | c :: s' =>
      if word c then findall_words word (c :: cur) s'
      else
        match cur with
        | [] => findall_words word [] s'
        | _ => rev cur :: findall_words word [] s'
        end
  end.

Section Text.
Context {RT : PyRuntime}.

(** [s.strip()]. *)
Definition strip (s : list N) : list N :=
  rev (drop_while is_space (rev (drop_while is_space s))).

Definition stop_words : list (list N) :=
  [u "что"; u "как"; u "кто"; u "где"; u "когда"; u "почему"; u "зачем";
   u "это"; u "этот"; u "эта"; u "эти"; u "тот"; u "та"; u "те"; u "свой";
   u "мои"; u "твои"; u "его"; u "её"; u "их"; u "наш"; u "ваш"; u "весь";
   u "все"; u "всё"; u "какой"; u "какая"; u "какие"; u "такой"; u "такая"].

(** [_extract_keywords]. *)
Definition _extract_keywords (text : list N) : list (list N) :=
  let words := findall_words is_word [] (lower text) in
  filter (fun w => (w ∉ stop_words) ∧ (2 < length w)%nat) words.

(** [set(keywords) & set(question_keywords)]. *)
Definition common_keywords (keywords question_keywords : list (list N))
  : gset (list N) :=
  list_to_set keywords ∩ list_to_set question_keywords.
End Text.

(** ** Exceptions and results *)

Inductive exn :=
| KeyError (key : list N)
| TypeError (msg : list N)
| IndexError (msg : list N)
| OtherError (msg : list N).

(** [str(e)]; the key of a [KeyError] is shown quoted. *)
Definition exn_str (e : exn) : list N :=
  match e with
  | KeyError key => u "'" ++ key ++ u "'"
  | TypeError msg | IndexError msg | OtherError msg => msg
  end.

Inductive result (A : Type) :=
| Ret (a : A)
| Raise (e : exn).
Arguments Ret {A} a.
Arguments Raise {A} e.

(** A value of the statistics dictionary: a counter, or the
    [first_start] text. *)
Inductive pyval :=
| PInt (n : Z)
| PStr (s : list N).

(** [str(v)] inside an f-string. *)
Definition py_str (v : pyval) : list N :=
  match v with
  | PInt n => str_of_int n
  | PStr s => s
  end.

(** [v + 1]. *)
Definition py_add_one (v : pyval) : result pyval :=
  match v with
  | PInt n => Ret (PInt (n + 1))
  | PStr _ =>
      Raise (TypeError (u "can only concatenate str (not " ++ dquote ++ u "int"
                          ++ dquote ++ u ") to str"))
  end.

(** The truth value of an optional string: [None] and [''] are false. *)
Definition truthy (o : option (list N)) : bool :=
  match o with
  | Some (_ :: _) => true
  | _ => false
  end.

(** ** Data classes *)

(** [UserProfile], and the dictionary [to_dict] writes into the
    document: [from_dict (to_dict p) = p] field by field, [last_active]
    going through [isoformat] and back. *)
Record UserProfile := {
  user_id : Z;
  username : option (list N);
  first_name : option (list N);
  last_name : option (list N);
  conversation_count : Z;
  total_messages : Z;
  learned_contributions : Z;
  last_active : Z;
  preferences : list (list N * list N);
}.

Definition with_names (un fn ln : option (list N)) (p : UserProfile) : UserProfile :=
  {| user_id := user_id p; username := un; first_name := fn; last_name := ln;
     conversation_count := conversation_count p;
     total_messages := total_messages p;
     learned_contributions := learned_contributions p;
     last_active := last_active p; preferences := preferences p |}.

Definition with_counters (cc tm lc : Z) (p : UserProfile) : UserProfile :=
  {| user_id := user_id p; username := username p; first_name := first_name p;
     last_name := last_name p;
     conversation_count := cc; total_messages := tm; learned_contributions := lc;
     last_active := last_active p; preferences := preferences p |}.

Definition with_last_active (t : Z) (p : UserProfile) : UserProfile :=
  {| user_id := user_id p; username := username p; first_name := first_name p;
     last_name := last_name p;
     conversation_count := conversation_count p;
     total_messages := total_messages p;
     learned_contributions := learned_contributions p;
     last_active := t; preferences := preferences p |}.

Record WeatherConfig := {
  api_key : list N;
  base_url : list N;
  units : list N;
  lang : list N;
}.

(** [WeatherConfig()] with the defaults of the data class. *)
Definition default_weather_config : WeatherConfig :=
  {| api_key := [];
     base_url := u "http://api.openweathermap.org/data/2.5/weather";
     units := u "metric";
     lang := u "ru" |}.

(** An entry of [learned_facts]. *)
Record LearnedFact := {
  fact : list N;
  learned_at : Z;
  learned_by : option Z;
}.

(** ** Insertion-ordered dictionaries *)

Fixpoint dict_get {V} (k : list N) (d : list (list N * V)) : option V :=
  match d with
  | [] => None
  | (k', v) :: d' => if bool_decide (k' = k) then Some v else dict_get k d'
  end.

(** [d[k] = v]: an existing key keeps its place, a new one goes last. *)
Fixpoint dict_set {V} (k : list N) (v : V) (d : list (list N * V)) : list (list N * V) :=
  match d with
  | [] => [(k, v)]
  | (k', v') :: d' =>
      if bool_decide (k' = k) then (k', v) :: d' else (k', v') :: dict_set k v d'
  end.

(** ** The knowledge document *)

Record Knowledge := {
  facts : gmap (list N) (list N);
  statistics : gmap (list N) pyval;
  qna : option (list (list N * list N));
  user_profiles : option (gmap (list N) UserProfile);
  learned_facts : option (list (list N * LearnedFact));
  interaction_stats : option (gmap (list N) (gmap (list N) Z));
}.

Definition set_statistics (st : gmap (list N) pyval) (k : Knowledge) : Knowledge :=
  {| facts := facts k; statistics := st; qna := qna k;
     user_profiles := user_profiles k; learned_facts := learned_facts k;
     interaction_stats := interaction_stats k |}.

Definition set_qna (q : option (list (list N * list N))) (k : Knowledge) : Knowledge :=
  {| facts := facts k; statistics := statistics k; qna := q;
     user_profiles := user_profiles k; learned_facts := learned_facts k;
     interaction_stats := interaction_stats k |}.

Definition set_user_profiles (up : option (gmap (list N) UserProfile)) (k : Knowledge)
  : Knowledge :=
  {| facts := facts k; statistics := statistics k; qna := qna k;
     user_profiles := up; learned_facts := learned_facts k;
     interaction_stats := interaction_stats k |}.

Definition set_learned_facts (lf : option (list (list N * LearnedFact))) (k : Knowledge)
  : Knowledge :=
  {| facts := facts k; statistics := statistics k; qna := qna k;
     user_profiles := user_profiles k; learned_facts := lf;
     interaction_stats := interaction_stats k |}.

Definition set_interaction_stats (i : option (gmap (list N) (gmap (list N) Z)))
  (k : Knowledge) : Knowledge :=
  {| facts := facts k; statistics := statistics k; qna := qna k;
     user_profiles := user_profiles k; learned_facts := learned_facts k;
     interaction_stats := i |}.

(** ** The object [NixAICore] *)

Inductive handler :=
| greet | goodbye | how_are_you | thank_you | about_me | about_creator
| help | time | date | remember_info | recall_info | clear_memory
| how_i_learn | weather_handler | stats_handler | currency_handler
| news_handler | joke_handler.

Record LearningModes := {
  auto_correction : bool;
  ask_before_learning : bool;
  confidence_threshold : Qc;
}.

(** The attributes of the object.  [http_requests] is not an attribute
    of the source: it records, oldest first, the URLs requested from
    the provider, so that provider calls can be counted. *)
Record NixAICore := {
  knowledge : Knowledge;
  weather_config : WeatherConfig;
  rules : list (list N * handler);
  learning_modes : LearningModes;
  weather_cache : gmap (list N) (Z * list N);
  cache_duration : Z;
  http_requests : list (list N);
}.

Definition set_knowledge (k : Knowledge) (c : NixAICore) : NixAICore :=
  {| knowledge := k; weather_config := weather_config c; rules := rules c;
     learning_modes := learning_modes c; weather_cache := weather_cache c;
     cache_duration := cache_duration c; http_requests := http_requests c |}.

Definition set_weather_cache (w : gmap (list N) (Z * list N)) (c : NixAICore) : NixAICore :=
  {| knowledge := knowledge c; weather_config := weather_config c; rules := rules c;
     learning_modes := learning_modes c; weather_cache := w;
     cache_duration := cache_duration c; http_requests := http_requests c |}.

Definition set_http_requests (l : list (list N)) (c : NixAICore) : NixAICore :=
  {| knowledge := knowledge c; weather_config := weather_config c; rules := rules c;
     learning_modes := learning_modes c; weather_cache := weather_cache c;
     cache_duration := cache_duration c; http_requests := l |}.

Definition set_learning_modes (m : LearningModes) (c : NixAICore) : NixAICore :=
  {| knowledge := knowledge c; weather_config := weather_config c; rules := rules c;
     learning_modes := m; weather_cache := weather_cache c;
     cache_duration := cache_duration c; http_requests := http_requests c |}.

(** ** Methods as computations on the object *)

Definition M (A : Type) : Type := NixAICore -> result A * NixAICore.

Global Instance M_ret : MRet M := fun A a c => (Ret a, c).

Global Instance M_bind : MBind M := fun A B f m c =>
  match m c with
  | (Ret a, c') => f a c'
  | (Raise e, c') => (Raise e, c')
  end.

Definition gets {A} (f : NixAICore -> A) : M A := fun c => (Ret (f c), c).
Definition modify (f : NixAICore -> NixAICore) : M unit := fun c => (Ret tt, f c).
Definition lift {A} (r : result A) : M A := fun c => (r, c).
Definition raise {A} (e : exn) : M A := fun c => (Raise e, c).

(** [try: body except Exception as e: handler(e)]. *)
Definition try_except {A} (body : M A) (handler : exn -> M A) : M A := fun c =>
  match body c with
  | (Ret a, c') => (Ret a, c')
  | (Raise e, c') => handler e c'
  end.

Definition modify_knowledge (f : Knowledge -> Knowledge) : M unit :=
  modify (fun c => set_knowledge (f (knowledge c)) c).

(** [d[key]] on a [gmap], raising [KeyError]. *)
Definition getitem {V} (d : gmap (list N) V) (key : list N) : M V :=
  match d !! key with
  | Some v => mret v
  | None => raise (KeyError key)
  end.

(** [random.choice(l)], the random source having produced [rnd]. *)
Definition choice {A} (rnd : nat) (l : list A) : M A :=
  match l !! (rnd mod length l)%nat with
  | Some x => mret x
  | None => raise (IndexError (u "Cannot choose from an empty sequence"))
  end.

(** ** The weather provider

    What the HTTP session answers to the [n]-th request of the run, and
    the rendering of a decoded answer.  [_format_weather_data] prints
    floating-point readings with [:.1f] and can raise on a malformed
    body; the cache logic only stores and returns its text, so the
    rendering is kept as an operation of the interface. *)

Inductive http_reply (J : Type) :=
| Response (status : Z) (json : result J)   (* [response.status], [await response.json()] *)
| ConnectionError (e : exn).                (* [session.get] raised *)
Arguments Response {J} status json.
Arguments ConnectionError {J} e.

Class WeatherService := {
  Json : Type;
  http_get : nat -> list N -> http_reply Json;
  _format_weather_data : Json -> result (list N);
}.

(** ** The outcome of a turn: the dictionary returned by
    [process_message]; [correction_data] is [None] when the key is
    absent. *)
Record TurnOutcome := {
  response : list N;
  needs_followup : bool;
  action : option (list N);
  correction_data : option (gmap (list N) (list N));
}.

(** ** Fixed phrasings *)

Definition greetings : list (list N) :=
  [u "Привет! Я Nix AI, ваш цифровой помощник в Telegram! 👋";
   u "Здравствуйте! Рад видеть вас здесь!";
   u "Приветствую! Готов помочь вам с любыми вопросами.";
   u "Привет! Как я могу вам помочь сегодня?"].

Definition name_options (name : list N) : list (list N) :=
  [u "С возвращением, " ++ name ++ u "! Как ваши дела?";
   u "Рад вас снова видеть, " ++ name ++ u "!";
   u "Привет, " ++ name ++ u "! Чем могу помочь?"].

Definition farewells : list (list N) :=
  [u "До свидания! Буду рад помочь снова.";
   u "Пока! Возвращайтесь, если понадобится помощь.";
   u "Всего хорошего! 👋";
   u "До встречи! Не забывайте меня!"].

Definition how_are_you_responses : list (list N) :=
  [u "У меня все отлично! Спасибо, что спросили. 😊";
   u "Работаю в штатном режиме. Как ваши дела?";
   u "Прекрасно! Готов помогать вам с любыми вопросами.";
   u "Как у цифрового помощника, у меня всегда хорошо!"].

Definition thank_you_responses : list (list N) :=
  [u "Всегда пожалуйста! 😊";
   u "Рад был помочь!";
   u "Обращайтесь ещё!";
   u "Это моя работа в Telegram!"].

Definition jokes : list (list N) := [u "В разработке"].

Definition help_text : list N :=
  u "
🤖 *Nix AI - Telegram Edition*

📋 *Что я умею:*

• Приветствоваться и прощаться
• Отвечать на вопросы (и учиться, если не знаю ответа)
• Запоминать информацию
• Рассказывать о себе
• Показывать время и дату

🌤️ *Погода:*
Напиши " ++ dquote ++ u "погода" ++ dquote ++ u " или нажми кнопку, затем укажи город

💾 *Обучение:*
Если я не знаю ответа - я спрошу у вас и запомню правильный ответ

📊 *Статистика:*
Узнай сколько я уже знаю и сколько мы общались

🎮 *Дополнительно:*
• Курсы валют
• Анекдоты
• Новости (в разработке)

💡 *Просто общайтесь со мной - я научусь!*
        ".

Definition named_farewell (name farewell : list N) : list N :=
  u "Пока, " ++ name ++ u "! " ++ farewell.

Definition about_me_text (name version goal : list N) : list N :=
  u "🤖 Я " ++ name ++ u ", версия " ++ version ++ u "." ++ nl
  ++ u "🎯 " ++ goal ++ nl
  ++ u "💾 Создан на Python с использованием aiogram!" ++ nl
  ++ u "📚 Я учусь на каждом нашем диалоге.".

Definition time_text (clock : list N) : list N := u "🕐 Сейчас " ++ clock.

Definition date_text (day : list N) : list N := u "📅 Сегодня " ++ day.

Definition remembered_text (fact' : list N) : list N :=
  u "✅ Запомнил: '" ++ fact' ++ u "'. Буду помнить об этом! 🧠".

Definition recall_text (fact' : list N) : list N := u "📚 Я помню, что: " ++ fact'.

Definition how_i_learn_text (auto : bool) (learned corrections messages users : pyval)
  : list N :=
  u "🧠 *Как я учусь:*" ++ nl
  ++ u "• Автообучение: " ++ (if auto then u "ВКЛ" else u "ВЫКЛ") ++ nl
  ++ u "• Выучено ответов: " ++ py_str learned ++ nl
  ++ u "• Получено исправлений: " ++ py_str corrections ++ nl
  ++ u "• Всего сообщений: " ++ py_str messages ++ nl
  ++ u "• Всего пользователей: " ++ py_str users ++ nl ++ nl
  ++ u "Когда я не знаю ответа, я спрашиваю у вас! 💡".

Definition user_stats_text (messages contributions conversations : Z) : list N :=
  nl ++ u "📊 *Твоя статистика:*" ++ nl
  ++ u "• Сообщений: " ++ str_of_int messages ++ nl
  ++ u "• Внесено знаний: " ++ str_of_int contributions ++ nl
  ++ u "• Диалогов: " ++ str_of_int conversations.

Definition stats_text (messages learned users : pyval) (user_stats : list N) : list N :=
  u "📈 *Глобальная статистика:*" ++ nl
  ++ u "• Всего сообщений: " ++ py_str messages ++ nl
  ++ u "• Выучено ответов: " ++ py_str learned ++ nl
  ++ u "• Всего пользователей: " ++ py_str users ++ user_stats.

Definition joke_text (joke : list N) : list N := u "😂 " ++ joke.

Definition remember_usage : list N :=
  u "Пожалуйста, укажи, что именно запомнить. Например: 'запомни, что Земля круглая'".

Definition recall_nothing : list N :=
  u "Я еще мало что знаю. Расскажи мне что-нибудь интересное!".

Definition clear_memory_text : list N :=
  u "Для очистки памяти используй команду /clearmemory".

Definition weather_handler_text : list N :=
  u "🌤️ Напиши название города для получения погоды, например: 'Москва' или 'погода Москва'".

Definition currency_text : list N :=
  u "💱 Функция курсов валют в разработке. Скоро будет доступно!".

Definition news_text : list N :=
  u "📰 Функция новостей в разработке. Скоро будет доступно!".

Definition weather_city_prompt : list N :=
  u "🌤️ Напиши название города для получения погоды".

Definition needs_api_key_text : list N :=
  u "🌤️ Для работы погодного сервиса нужен API ключ OpenWeatherMap." ++ nl
  ++ u "Добавьте его в файл weather_config.json".

Definition city_not_found_text (city : list N) : list N :=
  u "🌍 Город '" ++ city ++ u "' не найден. Проверьте правильность написания.".

Definition status_error_text (status : Z) : list N :=
  u "⚠️ Ошибка получения погоды. Код ошибки: " ++ str_of_int status.

Definition exception_text (e : exn) : list N :=
  u "⚠️ Произошла ошибка при получении погоды: " ++ exn_str e.

Definition correction_confirmation (question answer : list N) : list N :=
  u "✅ Отлично! Запомнил: на вопрос '" ++ question ++ u "' нужно отвечать: '"
  ++ answer ++ u "'".

Definition teach_me_prompt (user_message : list N) : list N :=
  u "🤔 Я не уверен в ответе на вопрос: '" ++ user_message
  ++ u "'. Можешь подсказать правильный ответ?".

Definition fallback_responses (user_message : list N) : list (list N) :=
  [u "Извини, я не совсем понял вопрос: '" ++ user_message
     ++ u "'. Можешь переформулировать?";
   u "Интересно... '" ++ user_message ++ u "'. Давай поговорим о чем-нибудь другом?";
   u "Пока я не готов ответить на этот вопрос. Спроси что-нибудь другое!";
   u "Хм, мне нужно подумать над этим. А пока могу ответить на другие вопросы!";
   u "Я еще учусь! Спроси меня о чем-то другом, например о погоде или времени."].

(** [self.rules], in registration order. *)
Definition default_rules : list (list N * handler) :=
  [(u "привет|здравствуй|hello|hi|хай", greet);
   (u "пока|прощай|до свидания|bye", goodbye);
   (u "как дела|как ты|how are you", how_are_you);
   (u "спасибо|благодарю|thanks", thank_you);
   (u "твое имя|тебя зовут|who are you", about_me);
   (u "создатель|кто создал|who created", about_creator);
   (u "помощь|help|что ты умеешь", help);
   (u "время|который час|time", time);
   (u "дата|число|какое число", date);
   (u "запомни|remember that", remember_info);
   (u "что ты знаешь|расскажи о|что знаешь", recall_info);
   (u "очисти память|забудь все", clear_memory);
   (u "как учишься|как обучаешься", how_i_learn);
   (u "погода|weather|прогноз", weather_handler);
   (u "статистика|stats|моя статистика", stats_handler);
   (u "курс валют|курс доллара|курс евро", currency_handler);
   (u "новости|news|что нового", news_handler);
   (u "анекдот|шутка|расскажи шутку", joke_handler)].

(** The words of the weather intent test of [process_message]. *)
Definition weather_words : list (list N) := [u "погода"; u "weather"; u "прогноз"].

Definition default_learning_modes : LearningModes :=
  {| auto_correction := true;
     ask_before_learning := false;
     confidence_threshold := Q2Qc (3 # 10) |}.

(** [timedelta(minutes=30)], in microseconds. *)
Definition thirty_minutes : Z := 30 * 60 * 1000000.

Section Core.
Context {RT : PyRuntime}.

(** *** KnowledgeStore *)

(** [_save_knowledge]: dumps the document to the knowledge file; any
    failure is caught and logged, and the object is not changed. *)
Definition _save_knowledge : M unit := mret tt.

Definition _save_user_profile (profile : UserProfile) : M unit :=
  modify_knowledge (fun k =>
    set_user_profiles
      (Some (<[str_of_int (user_id profile) := profile]> (default ∅ (user_profiles k)))) k);;
  _save_knowledge.

Definition get_or_create_user_profile (now : Z) (user_id' : Z)
    (username' first_name' last_name' : option (list N)) : M UserProfile :=
  k ← gets knowledge;
  let profiles := default ∅ (user_profiles k) in
  let user_str := str_of_int user_id' in
  profile ←
    match profiles !! user_str with
    | Some profile_data =>
        let profile := profile_data in
        let un := if truthy username' && bool_decide (username' ≠ username profile)
                  then username' else username profile in
        let fn := if truthy first_name' && bool_decide (first_name' ≠ first_name profile)
                  then first_name' else first_name profile in
        let ln := if truthy last_name' && bool_decide (last_name' ≠ last_name profile)
                  then last_name' else last_name profile in
        mret (with_names un fn ln profile)
    | None =>
        let profile :=
          {| user_id := user_id'; username := username'; first_name := first_name';
             last_name := last_name'; conversation_count := 1; total_messages := 0;
             learned_contributions := 0; last_active := now; preferences := [] |} in
        total ← lift (py_add_one (default (PInt 0) (statistics k !! u "total_users")));
        modify_knowledge (fun k => set_statistics (<[u "total_users" := total]> (statistics k)) k);;
        mret profile
    end;
  let profile := with_last_active now profile in
  _save_user_profile profile;;
  mret profile.

Definition update_user_stats (now : Z) (user_id' : Z) (field : list N) : M unit :=
  k ← gets knowledge;
  let profiles := default ∅ (user_profiles k) in
  let user_str := str_of_int user_id' in
  match profiles !! user_str with
  | Some p =>
      let p :=
        if bool_decide (field = u "total_messages") then
          with_counters (conversation_count p) (total_messages p + 1)
            (learned_contributions p) p
        else if bool_decide (field = u "learned_contributions") then
          with_counters (conversation_count p) (total_messages p)
            (learned_contributions p + 1) p
        else if bool_decide (field = u "conversation_count") then
          with_counters (conversation_count p + 1) (total_messages p)
            (learned_contributions p) p
        else p in
      modify_knowledge
        (set_user_profiles (Some (<[user_str := with_last_active now p]> profiles)))
  | None => mret tt
  end;;
  k ← gets knowledge;
  match statistics k !! field with
  | Some v =>
      v' ← lift (py_add_one v);
      modify_knowledge (fun k => set_statistics (<[field := v']> (statistics k)) k)
  | None => mret tt
  end;;
  _save_knowledge.

(** [self.knowledge["statistics"][key] += 1]. *)
Definition incr_statistic (key : list N) : M unit :=
  k ← gets knowledge;
  v ← getitem (statistics k) key;
  v' ← lift (py_add_one v);
  modify_knowledge (fun k => set_statistics (<[key := v']> (statistics k)) k).

(** *** Rule handlers *)

Definition _greet (rnd : nat) (user_profile : option UserProfile) : M (list N) :=
  match user_profile with
  | Some p =>
      match first_name p with
      | Some (c :: name) => choice rnd (name_options (c :: name))
      | _ => choice rnd greetings
      end
  | None => choice rnd greetings
  end.

Definition _goodbye (rnd : nat) (user_profile : option UserProfile) : M (list N) :=
  match user_profile with
  | Some {| first_name := Some (c :: name) |} =>
      farewell ← choice rnd farewells;
      mret (named_farewell (c :: name) farewell)
  | _ => choice rnd farewells
  end.

Definition _how_are_you (rnd : nat) : M (list N) := choice rnd how_are_you_responses.

Definition _thank_you (rnd : nat) : M (list N) := choice rnd thank_you_responses.

Definition _about_me : M (list N) :=
  facts ← gets (fun c => facts (knowledge c));
  name ← getitem facts (u "имя");
  version ← getitem facts (u "версия");
  goal ← getitem facts (u "цель");
  mret (about_me_text name version goal).

Definition _about_creator : M (list N) :=
  facts ← gets (fun c => facts (knowledge c));
  getitem facts (u "создатель").

Definition _help : M (list N) := mret help_text.

Definition _time (now : Z) : M (list N) := mret (time_text (strftime_HMS now)).

Definition _date (now : Z) : M (list N) := mret (date_text (strftime_dmY now)).

Definition _remember_info (now : Z) (message : list N)
    (user_profile : option UserProfile) : M (list N) :=
  match re_search_group
          [Lit (u "запомни"); Rep is_space 0; OptAlt [u "что"; u ","]; Rep is_space 0]
          (lower message) with
  | Some group1 =>
      let fact' := strip group1 in
      let fact_key := take 50 fact' in
      modify_knowledge (fun k =>
        set_learned_facts
          (Some (dict_set fact_key
                   {| fact := fact'; learned_at := now;
                      learned_by := user_id <$> user_profile |}
                   (default [] (learned_facts k)))) k);;
      _save_knowledge;;
      mret (remembered_text fact')
  | None => mret remember_usage
  end.

(** The loop of [_recall_info] over the stored questions. *)
Fixpoint recall_from_qna (items : list (list N * list N)) (message_lower : list N)
  : list N :=
  match items with
  | [] => recall_nothing
  | (question, answer) :: items' =>
      if str_in question message_lower then answer
      else recall_from_qna items' message_lower
  end.

Definition _recall_info (rnd : nat) (message : list N) : M (list N) :=
  k ← gets knowledge;
  match learned_facts k with
  | Some ((key, f) :: rest) =>
      random_fact ← choice rnd (snd <$> ((key, f) :: rest));
      mret (recall_text (fact random_fact))
  | _ =>
      match qna k with
      | Some items => mret (recall_from_qna items (lower message))
      | None => raise (KeyError (u "qna"))
      end
  end.

Definition _clear_memory : M (list N) := mret clear_memory_text.

Definition _how_i_learn : M (list N) :=
  c ← gets id;
  let stats := statistics (knowledge c) in
  learned ← getitem stats (u "learned_qna");
  corrections ← getitem stats (u "corrections_received");
  messages ← getitem stats (u "total_messages");
  mret (how_i_learn_text (auto_correction (learning_modes c)) learned corrections
          messages (default (PInt 0) (stats !! u "total_users"))).

Definition _weather_handler : M (list N) := mret weather_handler_text.

Definition _stats_handler (user_profile : option UserProfile) : M (list N) :=
  stats ← gets (fun c => statistics (knowledge c));
  let user_stats :=
    match user_profile with
    | Some p =>
        user_stats_text (total_messages p) (learned_contributions p)
          (conversation_count p)
    | None => []
    end in
  messages ← getitem stats (u "total_messages");
  learned ← getitem stats (u "learned_qna");
  mret (stats_text messages learned (default (PInt 0) (stats !! u "total_users"))
          user_stats).

Definition _currency_handler : M (list N) := mret currency_text.

Definition _news_handler : M (list N) := mret news_text.

Definition _joke_handler (rnd : nat) : M (list N) :=
  joke ← choice rnd jokes;
  mret (joke_text joke).

(** [handler(message, user_profile)] for a bound method of the rule
    table. *)
Definition call_handler (h : handler) (now : Z) (rnd : nat) (message : list N)
    (user_profile : option UserProfile) : M (list N) :=
  match h with
  | greet => _greet rnd user_profile
  | goodbye => _goodbye rnd user_profile
  | how_are_you => _how_are_you rnd
  | thank_you => _thank_you rnd
  | about_me => _about_me
  | about_creator => _about_creator
  | help => _help
  | time => _time now
  | date => _date now
  | remember_info => _remember_info now message user_profile
  | recall_info => _recall_info rnd message
  | clear_memory => _clear_memory
  | how_i_learn => _how_i_learn
  | weather_handler => _weather_handler
  | stats_handler => _stats_handler user_profile
  | currency_handler => _currency_handler
  | news_handler => _news_handler
  | joke_handler => _joke_handler rnd
  end.
End Core.

Section Matching.
Context {RT : PyRuntime}.

(** *** QnAMatcher *)

(** The containment loop of [_check_qna_match]. *)
Fixpoint partial_match (items : list (list N * list N)) (user_msg_lower : list N)
  : option (list N) :=
  match items with
  | [] => None
  | (question, answer) :: items' =>
      if str_in question user_msg_lower || str_in user_msg_lower question
      then Some answer
      else partial_match items' user_msg_lower
  end.

(** The keyword loop of [_check_qna_match]. *)
Fixpoint keyword_match (items : list (list N * list N)) (keywords : list (list N))
  : option (list N) :=
  match items with
  | [] => None
  | (question, answer) :: items' =>
      let question_keywords := _extract_keywords question in
      let common := common_keywords keywords question_keywords in
      if bool_decide (2 ≤ size common)%nat then Some answer
      else keyword_match items' keywords
  end.

(** [_check_qna_match], on [self.knowledge.get("qna", {})]. *)
Definition check_qna_match (items : list (list N * list N)) (user_message : list N)
  : option (list N) :=
  let user_msg_lower := lower user_message in
  match dict_get user_msg_lower items with
  | Some answer => Some answer
  | None =>
      match partial_match items user_msg_lower with
      | Some answer => Some answer
      | None => keyword_match items (_extract_keywords user_msg_lower)
      end
  end.

Definition _check_qna_match (user_message : list N) : M (option (list N)) :=
  k ← gets knowledge;
  mret (check_qna_match (default [] (qna k)) user_message).

(** [len(common) / max(len(keywords), len(question_keywords))].  The
    quotient of two machine integers is kept as an exact rational: it
    is only compared with other such quotients and with the
    threshold. *)
Definition similarity (keywords question_keywords : list (list N)) : Qc :=
  Q2Qc (Z.of_nat (size (common_keywords keywords question_keywords))
        # Pos.of_nat (Nat.max (length keywords) (length question_keywords))).

(** [max(best_match, similarity)]. *)
Definition py_max (a b : Qc) : Qc := if bool_decide (a < b)%Qc then b else a.

(** The loop of [_calculate_confidence] over the stored questions. *)
Fixpoint best_match_loop (keywords : list (list N)) (questions : list (list N))
    (best_match : Qc) : Qc :=
  match questions with
  | [] => best_match
  | question :: questions' =>
      match _extract_keywords question with
      | [] => best_match_loop keywords questions' best_match
      | question_keywords =>
          best_match_loop keywords questions'
            (py_max best_match (similarity keywords question_keywords))
      end
  end.

(** [_calculate_confidence], on [self.knowledge.get("qna", {})]. *)
Definition calculate_confidence (items : list (list N * list N)) (user_message : list N)
  : Qc :=
  match dict_get (lower user_message) items with
  | Some _ => Q2Qc (9 # 10)
  | None =>
      match _extract_keywords user_message with
      | [] => 0%Qc
      | keywords => best_match_loop keywords (fst <$> items) 0%Qc
      end
  end.

Definition _calculate_confidence (user_message : list N) : M Qc :=
  k ← gets knowledge;
  mret (calculate_confidence (default [] (qna k)) user_message).

(** [_learn_from_interaction]. *)
Definition _learn_from_interaction (question answer : list N) (user_id' : Z) : M unit :=
  let keywords := _extract_keywords (lower question) in
  if bool_decide (2 ≤ length keywords)%nat then
    let key := join (u " ") (take 2 (sorted keywords)) in
    modify_knowledge (fun k =>
      let stats := default ∅ (interaction_stats k) in
      let per_key := default ∅ (stats !! key) in
      let count := default 0 (per_key !! answer) in
      set_interaction_stats (Some (<[key := <[answer := count + 1]> per_key]> stats)) k)
  else mret tt.

(** [_get_fallback_response]. *)
Definition _get_fallback_response (rnd : nat) (user_message : list N) : M (list N) :=
  choice rnd (fallback_responses user_message).
End Matching.

Section Turn.
Context {RT : PyRuntime} {WS : WeatherService}.

(** *** WeatherLookup *)

(** [session.get(url)]: one request to the provider. *)
Definition request (url : list N) : M (Z * result Json) := fun c =>
  let c' := set_http_requests (http_requests c ++ [url]) c in
  match http_get (length (http_requests c)) url with
  | Response status json => (Ret (status, json), c')
  | ConnectionError e => (Raise e, c')
  end.

Definition weather_url (cfg : WeatherConfig) (city : list N) : list N :=
  base_url cfg ++ u "?q=" ++ city ++ u "&appid=" ++ api_key cfg
  ++ u "&units=" ++ units cfg ++ u "&lang=" ++ lang cfg.

(** The cached text for [city_lower] when the entry is younger than
    [cache_duration] at [current_time]. *)
Definition cached_weather (c : NixAICore) (city_lower : list N) (current_time : Z)
  : option (list N) :=
  match weather_cache c !! city_lower with
  | Some (cache_time, weather_data) =>
      if bool_decide (current_time - cache_time < cache_duration c)
      then Some weather_data else None
  | None => None
  end.

Definition get_weather (now : Z) (city : list N) : M (list N) :=
  let city_lower := lower city in
  let current_time := now in
  c ← gets id;
  match cached_weather c city_lower current_time with
  | Some weather_data => mret weather_data
  | None =>
      if bool_decide (api_key (weather_config c) = []) then mret needs_api_key_text
      else
        try_except
          ('(status, json) ← request (weather_url (weather_config c) city);
           if bool_decide (status = 200) then
             data ← lift json;
             weather ← lift (_format_weather_data data);
             modify (fun c =>
               set_weather_cache (<[city_lower := (current_time, weather)]> (weather_cache c)) c);;
             mret weather
           else if bool_decide (status = 404) then mret (city_not_found_text city)
           else mret (status_error_text status))
          (fun e => mret (exception_text e))
  end.

(** *** ConversationEngine *)

Definition plain_outcome (text : list N) : TurnOutcome :=
  {| response := text; needs_followup := false; action := None;
     correction_data := None |}.

(** The loop of [process_message] over [self.rules]. *)
Fixpoint dispatch_rules (now : Z) (rnd : nat) (user_id' : Z) (user_message : list N)
    (user_profile : UserProfile) (rs : list (list N * handler))
  : M (option TurnOutcome) :=
  match rs with
  | [] => mret None
  | (pattern, h) :: rs' =>
      if re_search pattern (lower user_message) then
        response' ← call_handler h now rnd user_message (Some user_profile);
        _learn_from_interaction user_message response' user_id';;
        mret (Some (plain_outcome response'))
      else dispatch_rules now rnd user_id' user_message user_profile rs'
  end.

(** The question of a correction turn: [is_correction], a non-empty
    [correction_data], and a non-empty ["question"] in it. *)
Definition correction_question (is_correction : bool)
    (correction_data' : option (gmap (list N) (list N))) : option (list N) :=
  match correction_data' with
  | Some d =>
      if is_correction && negb (bool_decide (d = ∅)) then
        match d !! u "question" with
        | Some (c :: q) => Some (c :: q)
        | _ => None
        end
      else None
  | None => None
  end.

Definition process_message (now : Z) (rnd : nat) (user_id' : Z) (user_message : list N)
    (username' first_name' last_name' : option (list N))
    (is_correction : bool) (correction_data' : option (gmap (list N) (list N)))
  : M TurnOutcome :=
  user_profile ← get_or_create_user_profile now user_id' username' first_name' last_name';
  update_user_stats now user_id' (u "total_messages");;
  match correction_question is_correction correction_data' with
  | Some question =>
      let answer := user_message in
      modify_knowledge (fun k =>
        set_qna (Some (dict_set (lower question) answer (default [] (qna k)))) k);;
      update_user_stats now user_id' (u "learned_contributions");;
      incr_statistic (u "learned_qna");;
      incr_statistic (u "corrections_received");;
      _save_knowledge;;
      mret (plain_outcome (correction_confirmation question answer))
  | None =>
      rs ← gets rules;
      by_rule ← dispatch_rules now rnd user_id' user_message user_profile rs;
      match by_rule with
      | Some outcome => mret outcome
      | None =>
          qna_answer ← _check_qna_match user_message;
          match qna_answer with
          | Some (c :: a) =>
              _learn_from_interaction user_message (c :: a) user_id';;
              mret (plain_outcome (c :: a))
          | _ =>
              if existsb (fun word => str_in word (lower user_message)) weather_words then
                match re_search_group [Lit (u "погода"); Rep is_space 1]
                        (lower user_message) with
                | Some group1 =>
                    let city := strip group1 in
                    weather ← get_weather now city;
                    mret (plain_outcome weather)
                | None =>
                    mret {| response := weather_city_prompt; needs_followup := true;
                            action := Some (u "weather"); correction_data := None |}
                end
              else
                confidence ← _calculate_confidence user_message;
                modes ← gets learning_modes;
                if bool_decide (confidence < confidence_threshold modes)%Qc
                   && auto_correction modes then
                  mret {| response := teach_me_prompt user_message;
                          needs_followup := true;
                          action := Some (u "correction");
                          correction_data := Some {[ u "question" := user_message ]} |}
                else
                  text ← _get_fallback_response rnd user_message;
                  mret (plain_outcome text)
          end
      end
  end.
End Turn.

(** ** Construction of the object *)

Section Init.
Context {RT : PyRuntime}.

(** [_create_default_knowledge], the clock reading [now].  The keys
    ["memory"] and ["learned_phrases"] of the seed document are never
    read or written by the core and are left out. *)
Definition default_knowledge (now : Z) : Knowledge :=
  {| facts :=
       list_to_map
         [(u "создатель", u "Меня создал Аслан");
          (u "имя", u "Nix AI");
          (u "версия", u "0.1 (Telegram Edition)");
          (u "цель", u "Помогать людям в Telegram")];
     statistics :=
       list_to_map
         [(u "total_conversations", PInt 0);
          (u "total_messages", PInt 0);
          (u "learned_qna", PInt 0);
          (u "corrections_received", PInt 0);
          (u "first_start", PStr (isoformat now));
          (u "total_users", PInt 0)];
     qna :=
       Some [(u "что такое python", u "Python — это язык программирования");
             (u "что такое искусственный интеллект",
              u "ИИ — это система, имитирующая человеческий интеллект");
             (u "как тебя зовут", u "Меня зовут Nix AI");
             (u "кто создал тебя",
              u "Меня создал разработчик, который хочет сделать полезного ИИ")];
     user_profiles := Some ∅;
     learned_facts := None;
     interaction_stats := None |}.
End Init.

(** [NixAICore.__init__], once the knowledge document and the weather
    configuration have been loaded. *)
Definition new_core (k : Knowledge) (cfg : WeatherConfig) : NixAICore :=
  {| knowledge := k; weather_config := cfg; rules := default_rules;
     learning_modes := default_learning_modes; weather_cache := ∅;
     cache_duration := thirty_minutes; http_requests := [] |}.

(** The handler of the [clear_yes] button of the front end. *)
Definition clear_memory_confirmed : M unit :=
  modify_knowledge (fun k =>
    set_interaction_stats (Some ∅) (set_learned_facts (Some []) (set_qna (Some []) k))).

(** The handler of the [toggle_learning] button of the front end. *)
Definition toggle_learning : M unit :=
  modify (fun c =>
    set_learning_modes
      {| auto_correction := negb (auto_correction (learning_modes c));
         ask_before_learning := ask_before_learning (learning_modes c);
         confidence_threshold := confidence_threshold (learning_modes c) |} c).

(** ** A runtime for the Latin and Cyrillic alphabets

    The case mapping and the character classes of Python restricted to
    Basic Latin and Cyrillic, and the Gregorian calendar: enough to run
    the engine on the texts of this program. *)
Module LatinCyrillic.

Definition between (a b c : N) : bool := ((a <=? c) && (c <=? b))%N.

Definition lower_char (c : N) : N :=
  if between 65 90 c then (c + 32)%N            (* A..Z *)
  else if between 1040 1071 c then (c + 32)%N   (* А..Я *)
  else if between 1024 1039 c then (c + 80)%N   (* Ѐ..Џ *)
  else c.

Definition word_char (c : N) : bool :=
  between 48 57 c || between 65 90 c || between 97 122 c || bool_decide (c = 95%N)
  || between 1024 1153 c || between 1162 1327 c.

Definition space_char (c : N) : bool :=
  between 9 13 c || between 28 32 c || bool_decide (c = 133%N)
  || bool_decide (c = 160%N) || bool_decide (c = 5760%N) || between 8192 8202 c
  || between 8232 8233 c || bool_decide (c = 8239%N) || bool_decide (c = 8287%N)
  || bool_decide (c = 12288%N).

Definition pad (width : nat) (n : Z) : list N :=
  let digits := str_of_int n in
  replicate (width - length digits) 48%N ++ digits.

Definition day_us : Z := 86400 * 1000000.

Definition HMS (t : Z) : list N :=
  let s := (t mod day_us) / 1000000 in
  pad 2 (s / 3600) ++ u ":" ++ pad 2 (s mod 3600 / 60) ++ u ":" ++ pad 2 (s mod 60).

(** Year, month and day of the day number [days] counted from
    0001-01-01. *)
Definition civil (days : Z) : Z * Z * Z :=
  let z := days + 306 in
  let era := z / 146097 in
  let doe := z - era * 146097 in
  let yoe := (doe - doe / 1460 + doe / 36524 - doe / 146096) / 365 in
  let doy := doe - (365 * yoe + yoe / 4 - yoe / 100) in
  let mp := (5 * doy + 2) / 153 in
  let d := doy - (153 * mp + 2) / 5 + 1 in
  let m := if mp <? 10 then mp + 3 else mp - 9 in
  let y := yoe + era * 400 + (if m <=? 2 then 1 else 0) in
  (y, m, d).

Definition dmY (t : Z) : list N :=
  let '(y, m, d) := civil (t / day_us) in
  pad 2 d ++ u "." ++ pad 2 m ++ u "." ++ pad 4 y.

Definition iso (t : Z) : list N :=
  let '(y, m, d) := civil (t / day_us) in
  let us := t mod 1000000 in
  pad 4 y ++ u "-" ++ pad 2 m ++ u "-" ++ pad 2 d ++ u "T" ++ HMS t
  ++ (if us =? 0 then [] else u "." ++ pad 6 us).

Definition runtime : PyRuntime :=
  {| lower := map lower_char;
     is_word := word_char;
     is_space := space_char;
     strftime_HMS := HMS;
     strftime_dmY := dmY;
     isoformat := iso |}.

(** 2024-01-01T00:00:00, as a clock reading. *)
Definition new_year_2024 : Z := 738885 * day_us.

End LatinCyrillic.

(** ** Scripted providers, for running the weather lookup *)
Module Providers.

(** A provider that knows no city. *)
Definition unknown_city : WeatherService :=
  {| Json := list N;
     http_get := fun _ _ => Response 404 (Ret []);
     _format_weather_data := fun body => Ret body |}.

(** A provider that answers 404 to the first request and then 200. *)
Definition late_success : WeatherService :=
  {| Json := list N;
     http_get := fun n _ =>
       match n with
       | O => Response 404 (Ret [])
       | S _ => Response 200 (Ret (u "ясно"))
       end;
     _format_weather_data := fun body => Ret body |}.

(** A provider whose report changes with every request. *)
Definition changing : WeatherService :=
  {| Json := nat;
     http_get := fun n _ => Response 200 (Ret n);
     _format_weather_data := fun n => Ret (str_of_int (Z.of_nat n)) |}.

End Providers.

(** ** Observations on the object *)

(** [self.knowledge.get("user_profiles", {})]. *)
Definition profiles (c : NixAICore) : gmap (list N) UserProfile :=
  default ∅ (user_profiles (knowledge c)).

(** [self.knowledge["statistics"].get(key)]. *)
Definition stat (c : NixAICore) (key : list N) : option pyval :=
  statistics (knowledge c) !! key.

(** [self.knowledge.get("qna", {})]. *)
Definition stored_qna (c : NixAICore) : list (list N * list N) :=
  default [] (qna (knowledge c)).

(** [statistics.get("total_users", 0)]. *)
Definition total_users (c : NixAICore) : pyval :=
  default (PInt 0) (stat c (u "total_users")).

(** The [learned_contributions] of a user, 0 for an unknown user. *)
Definition contributions (c : NixAICore) (uid : Z) : Z :=
  match profiles c !! str_of_int uid with
  | Some p => learned_contributions p
  | None => 0
  end.

(** ** The shape of the knowledge document

    The statistics hold integer counters (only [first_start] is a
    text), among them the three that the engine increments or prints
    without a default; the four facts of the seed document are there;
    the question table is there. *)
Definition counters_ok (st : gmap (list N) pyval) : Prop :=
  (forall key s, st !! key = Some (PStr s) -> key = u "first_start") /\
  is_Some (st !! u "total_messages") /\
  is_Some (st !! u "learned_qna") /\
  is_Some (st !! u "corrections_received").

Definition facts_ok (f : gmap (list N) (list N)) : Prop :=
  is_Some (f !! u "имя") /\ is_Some (f !! u "версия") /\
  is_Some (f !! u "цель") /\ is_Some (f !! u "создатель").

Definition well_formed (k : Knowledge) : Prop :=
  counters_ok (statistics k) /\ facts_ok (facts k) /\ is_Some (qna k).

(** ** The user count *)

(** [statistics.total_users] is the number of keys of
    [user_profiles]. *)
Definition users_counted (c : NixAICore) : Prop :=
  total_users c = PInt (Z.of_nat (size (profiles c))).

(** Every profile is stored under the text of its own [user_id], as
    [_save_user_profile] files it. *)
Definition profiles_keyed (c : NixAICore) : Prop :=
  forall key p, profiles c !! key = Some p -> key = str_of_int (user_id p).

(** ** The response variants declared by the handlers *)

Inductive declared_variant (k : Knowledge) (now : Z) {RT : PyRuntime}
  : handler -> list N -> Prop :=
| dv_greet text :
    text ∈ greetings -> declared_variant k now greet text
| dv_greet_name name text :
    text ∈ name_options name -> declared_variant k now greet text
| dv_goodbye text :
    text ∈ farewells -> declared_variant k now goodbye text
| dv_goodbye_name name farewell :
    farewell ∈ farewells ->
    declared_variant k now goodbye (named_farewell name farewell)
| dv_how_are_you text :
    text ∈ how_are_you_responses -> declared_variant k now how_are_you text
| dv_thank_you text :
    text ∈ thank_you_responses -> declared_variant k now thank_you text
| dv_about_me name version goal :
    facts k !! u "имя" = Some name ->
    facts k !! u "версия" = Some version ->
    facts k !! u "цель" = Some goal ->
    declared_variant k now about_me (about_me_text name version goal)
| dv_about_creator text :
    facts k !! u "создатель" = Some text ->
    declared_variant k now about_creator text
| dv_help : declared_variant k now help help_text
| dv_time : declared_variant k now time (time_text (strftime_HMS now))
| dv_date : declared_variant k now date (date_text (strftime_dmY now))
| dv_remembered fact' :
    declared_variant k now remember_info (remembered_text fact')
| dv_remember_usage : declared_variant k now remember_info remember_usage
| dv_recall_fact stored key f :
    learned_facts k = Some stored -> (key, f) ∈ stored ->
    declared_variant k now recall_info (recall_text (fact f))
| dv_recall_answer question answer :
    (question, answer) ∈ default [] (qna k) ->
    declared_variant k now recall_info answer
| dv_recall_nothing : declared_variant k now recall_info recall_nothing
| dv_clear_memory : declared_variant k now clear_memory clear_memory_text
| dv_how_i_learn auto learned corrections messages users :
    declared_variant k now how_i_learn
      (how_i_learn_text auto learned corrections messages users)
| dv_weather : declared_variant k now weather_handler weather_handler_text
| dv_stats messages learned users m c n :
    declared_variant k now stats_handler
      (stats_text messages learned users (user_stats_text m c n))
| dv_currency : declared_variant k now currency_handler currency_text
| dv_news : declared_variant k now news_handler news_text
| dv_joke joke : joke ∈ jokes -> declared_variant k now joke_handler (joke_text joke).

(** ** The operations on the object

    One step of the object's life: a turn, a weather lookup, one of
    the store accessors called the way the engine calls them, or one
    of the two buttons of the front end that write to the object. *)
Inductive step {RT : PyRuntime} {WS : WeatherService} (c : NixAICore)
  : NixAICore -> Prop :=
| step_turn now rnd uid text un fn ln flag data :
    step c (process_message now rnd uid text un fn ln flag data c).2
| step_weather now city :
    step c (get_weather now city c).2
| step_profile now uid un fn ln :
    step c (get_or_create_user_profile now uid un fn ln c).2
| step_stats now uid field :
    field ∈ [u "total_messages"; u "learned_contributions"; u "conversation_count"] ->
    step c (update_user_stats now uid field c).2
| step_clear : step c (clear_memory_confirmed c).2
| step_toggle : step c (toggle_learning c).2.

(** The states of a run that starts from a state [c0]. *)
Inductive reachable {RT : PyRuntime} {WS : WeatherService} (c0 : NixAICore)
  : NixAICore -> Prop :=
| reach_start : reachable c0 c0
| reach_step c c' : reachable c0 c -> step c c' -> reachable c0 c'.


(** ** Frames *)

(** [c'] differs from [c] at most in the knowledge document. *)
Definition same_object (c c' : NixAICore) : Prop :=
  c' = set_knowledge (knowledge c') c.

(** [c'] differs from [c] at most in the statistics and the user
    profiles of the knowledge document. *)
Definition same_store (c c' : NixAICore) : Prop :=
  same_object c c' /\
  facts (knowledge c') = facts (knowledge c) /\
  qna (knowledge c') = qna (knowledge c) /\
  learned_facts (knowledge c') = learned_facts (knowledge c) /\
  interaction_stats (knowledge c') = interaction_stats (knowledge c).


(** What a handler leaves untouched: everything but [learned_facts]. *)
Definition handler_frame (c c' : NixAICore) : Prop :=
  same_object c c' /\
  facts (knowledge c') = facts (knowledge c) /\
  statistics (knowledge c') = statistics (knowledge c) /\
  qna (knowledge c') = qna (knowledge c) /\
  user_profiles (knowledge c') = user_profiles (knowledge c) /\
  interaction_stats (knowledge c') = interaction_stats (knowledge c).


(** ** What every operation keeps *)

(** The user count is exact and the profiles are filed under their
    own identifier. *)
Definition user_count_invariant (c : NixAICore) : Prop :=
  users_counted c /\ profiles_keyed c.

(** The weather configuration, the cache duration and the rule table
    are never written, and without an API key the cache is never
    written either. *)
Definition config_frame (c c' : NixAICore) : Prop :=
  weather_config c' = weather_config c /\
  cache_duration c' = cache_duration c /\
  rules c' = rules c /\
  (api_key (weather_config c) = [] -> weather_cache c' = weather_cache c).

(** What every operation keeps, seen from the user [uid]: the user
    count stays exact, the weather configuration is not written, and
    once [uid] has a profile no profile is added on their behalf. *)
Definition keeps (uid : Z) (c c' : NixAICore) : Prop :=
  (user_count_invariant c -> user_count_invariant c') /\
  config_frame c c' /\
  (user_count_invariant c -> is_Some (profiles c !! str_of_int uid) ->
   dom (profiles c') = dom (profiles c)).

(** [R] relates the state before every run of [m] to the state after
    it, whether [m] returns or raises. *)
Definition ensures {A} (R : NixAICore -> NixAICore -> Prop) (m : M A) : Prop :=
  forall c, R c (m c).2.


(** [c'] differs from [c] at most in the knowledge document, and
    there neither in the statistics nor in the user profiles. *)
Definition quiet (c c' : NixAICore) : Prop :=
  same_object c c' /\
  statistics (knowledge c') = statistics (knowledge c) /\
  user_profiles (knowledge c') = user_profiles (knowledge c).


(** ** Runs of the engine on concrete turns *)

Module Runs.
Import LatinCyrillic.

Local Existing Instance runtime.

Definition t0 : Z := new_year_2024.

Definition with_key : WeatherConfig :=
  {| api_key := u "0123456789abcdef";
     base_url := base_url default_weather_config;
     units := units default_weather_config;
     lang := lang default_weather_config |}.

(** The object after [__init__] on the seed document. *)
Definition fresh : NixAICore := new_core (default_knowledge t0) default_weather_config.

(** The same with an API key configured. *)
Definition fresh_with_key : NixAICore := new_core (default_knowledge t0) with_key.

(** A first message of user 42, not a correction. *)
Definition say {WS : WeatherService} (text : list N) (c : NixAICore)
  : result TurnOutcome * NixAICore :=
  process_message t0 0 42 text (Some (u "ivan")) (Some (u "Иван")) None false None c.

(** The outcome that asks to be taught the answer to [text]. *)
Definition teach_me (text : list N) : TurnOutcome :=
  {| response := teach_me_prompt text; needs_followup := true;
     action := Some (u "correction");
     correction_data := Some {[ u "question" := text ]} |}.

(** A reply of user 42 to the question [question]. *)
Definition correct {WS : WeatherService} (question answer : list N) (c : NixAICore)
  : result TurnOutcome * NixAICore :=
  process_message t0 0 42 answer (Some (u "ivan")) (Some (u "Иван")) None true
    (Some {[ u "question" := question ]}) c.
End Runs.

(** ** More of [NixAICore] *)

Section Icon.
Context {RT : PyRuntime}.

(** [_get_weather_icon]. *)
Definition _get_weather_icon (description : list N) : list N :=
  let description_lower := lower description in
  if str_in (u "дождь") description_lower then u "🌧️"
  else if str_in (u "снег") description_lower then u "❄️"
  else if str_in (u "облачно") description_lower then u "☁️"
  else if str_in (u "ясно") description_lower || str_in (u "солнце") description_lower
  then u "☀️"
  else if str_in (u "туман") description_lower || str_in (u "тумано") description_lower
  then u "🌫️"
  else if str_in (u "гроза") description_lower then u "⛈️"
  else u "🌤️".
End Icon.


(** ** The ledger of messages and corrections *)

(** The sum of a counter over the stored profiles. *)
Definition sum_profiles (f : UserProfile -> Z) (m : gmap (list N) UserProfile) : Z :=
  map_fold (fun _ p total => f p + total) 0 m.

(** [statistics.total_messages] is the sum of the [total_messages] of
    the profiles. *)
Definition messages_counted (c : NixAICore) : Prop :=
  stat c (u "total_messages") = Some (PInt (sum_profiles total_messages (profiles c))).

(** [statistics.learned_qna] and [statistics.corrections_received] are
    the sum of the [learned_contributions] of the profiles. *)
Definition corrections_counted (c : NixAICore) : Prop :=
  stat c (u "learned_qna") = Some (PInt (sum_profiles learned_contributions (profiles c))) /\
  stat c (u "corrections_received")
  = Some (PInt (sum_profiles learned_contributions (profiles c))).

Definition ledger_invariant (c : NixAICore) : Prop :=
  counters_ok (statistics (knowledge c)) /\ profiles_keyed c /\
  messages_counted c /\ corrections_counted c.

(** [c'] has the statistics and the user profiles of [c]. *)
Definition same_ledger (c c' : NixAICore) : Prop :=
  statistics (knowledge c') = statistics (knowledge c) /\
  user_profiles (knowledge c') = user_profiles (knowledge c).

(** ** What the front end does to the object

    The front end writes to the object in four ways: a turn, a weather
    lookup, and the two buttons. *)
Inductive serves {RT : PyRuntime} {WS : WeatherService} (c : NixAICore)
  : NixAICore -> Prop :=
| serves_turn now rnd uid text un fn ln flag data :
    serves c (process_message now rnd uid text un fn ln flag data c).2
| serves_weather now city :
    serves c (get_weather now city c).2
| serves_clear : serves c (clear_memory_confirmed c).2
| serves_toggle : serves c (toggle_learning c).2.

(** The states of an object that serves from the state [c0] on. *)
Inductive served {RT : PyRuntime} {WS : WeatherService} (c0 : NixAICore)
  : NixAICore -> Prop :=
| served_start : served c0 c0
| served_step c c' : served c0 c -> serves c c' -> served c0 c'.


(** ** The Telegram front end: [NixAITelegramBot]

    The handlers of the bot, as functions of what they read of an
    update and of the bot seen from one chat: the engine [self.ai],
    the state and the data of the chat's FSM context, and the calls of
    the Bot API made for the chat.  A call of the Bot API is awaited
    and can raise (the network fails, Telegram refuses a text); what
    it does is an interface, [TelegramService].  The commands
    [/knowledge] (a random sample of the table) and [/settings] (a
    floating-point number printed) are left out.  Which handler the
    dispatcher of aiogram picks for an update is not modelled: see
    [Handling]. *)

Inductive DialogStates :=
| AWAITING_WEATHER_CITY
| AWAITING_CORRECTION
| AWAITING_REMEMBER
| IN_CONVERSATION.

Global Instance DialogStates_eq_dec : EqDecision DialogStates.
Proof. solve_decision. Defined.

(** A [Message]: the sender and the text, [None] for a message
    without text. *)
Record Message := {
  from_user_id : Z;
  from_user_username : option (list N);
  from_user_first_name : list N;
  from_user_last_name : option (list N);
  text : option (list N);
}.

Inductive ReplyMarkup :=
| ReplyKeyboardMarkup (keyboard : list (list (list N)))                  (* button texts *)
| InlineKeyboardMarkup (inline_keyboard : list (list (list N * list N))). (* text, callback_data *)

(** What a handler asks of the Bot API: [message.answer], with
    [parse_mode="Markdown"] or without; [message.edit_text];
    [callback_query.answer()]. *)
Inductive Sent :=
| Answer (body : list N) (markdown : bool) (reply_markup : option ReplyMarkup)
| EditText (body : list N) (markdown : bool)
| CallbackAnswer.

(** The Bot API: what the [n]-th call of the run does, [Ret tt] when
    Telegram accepts it and the exception that the awaited call raises
    otherwise. *)
Class TelegramService := {
  api_call : nat -> Sent -> result unit;
}.

(** The bot seen from one chat.  [api_calls] and [outbox] are not
    attributes of the source: they record, oldest first, the calls of
    the Bot API that were made and those that Telegram accepted. *)
Record NixAITelegramBot := {
  ai : NixAICore;
  fsm_state : option DialogStates;
  fsm_data : gmap (list N) (gmap (list N) (list N));
  api_calls : list Sent;
  outbox : list Sent;
}.

Definition set_ai (c : NixAICore) (s : NixAITelegramBot) : NixAITelegramBot :=
  {| ai := c; fsm_state := fsm_state s; fsm_data := fsm_data s;
     api_calls := api_calls s; outbox := outbox s |}.

Definition set_fsm (st : option DialogStates)
    (d : gmap (list N) (gmap (list N) (list N))) (s : NixAITelegramBot)
  : NixAITelegramBot :=
  {| ai := ai s; fsm_state := st; fsm_data := d;
     api_calls := api_calls s; outbox := outbox s |}.

(** The bot after a call of the Bot API that raised, and after one
    that was accepted. *)
Definition refused (item : Sent) (s : NixAITelegramBot) : NixAITelegramBot :=
  {| ai := ai s; fsm_state := fsm_state s; fsm_data := fsm_data s;
     api_calls := api_calls s ++ [item]; outbox := outbox s |}.

Definition delivered (item : Sent) (s : NixAITelegramBot) : NixAITelegramBot :=
  {| ai := ai s; fsm_state := fsm_state s; fsm_data := fsm_data s;
     api_calls := api_calls s ++ [item]; outbox := outbox s ++ [item] |}.

(** [NixAITelegramBot(token)] on an engine, before the first update. *)
Definition new_bot (c : NixAICore) : NixAITelegramBot :=
  {| ai := c; fsm_state := None; fsm_data := ∅; api_calls := []; outbox := [] |}.

(** Handlers: state passing over the bot, with Python's exceptions.
    A run is [None] when it files in the knowledge document a value
    that is not of the document's type: the answers of the question
    table are texts in this embedding, and the one run that files
    [None] as an answer, see [process_message_text], is not described
    further. *)
Definition B (A : Type) : Type :=
  NixAITelegramBot -> option (result A * NixAITelegramBot).

Global Instance B_ret : MRet B := fun A a s => Some (Ret a, s).

Global Instance B_bind : MBind B := fun A B f m s =>
  match m s with
  | Some (Ret a, s') => f a s'
  | Some (Raise e, s') => Some (Raise e, s')
  | None => None
  end.

(** [self.ai.method(...)]. *)
Definition on_ai {A} (m : M A) : B A := fun s =>
  match m (ai s) with
  | (r, c') => Some (r, set_ai c' s)
  end.

(** An awaited call of the Bot API. *)
Definition send {TS : TelegramService} (item : Sent) : B unit := fun s =>
  match api_call (length (api_calls s)) item with
  | Ret _ => Some (Ret tt, delivered item s)
  | Raise e => Some (Raise e, refused item s)
  end.

(** [state.get_state()], [state.get_data()], [state.set_state(st)],
    [state.set_data(d)], [state.clear()]. *)
Definition get_state : B (option DialogStates) := fun s => Some (Ret (fsm_state s), s).

Definition get_data : B (gmap (list N) (gmap (list N) (list N))) := fun s =>
  Some (Ret (fsm_data s), s).

Definition set_state (st : option DialogStates) : B unit := fun s =>
  Some (Ret tt, set_fsm st (fsm_data s) s).

Definition set_data (d : gmap (list N) (gmap (list N) (list N))) : B unit := fun s =>
  Some (Ret tt, set_fsm (fsm_state s) d s).

Definition state_clear : B unit := fun s => Some (Ret tt, set_fsm None ∅ s).

Definition b_raise {A} (e : exn) : B A := fun s => Some (Raise e, s).

(** The run leaves the documents of this embedding. *)
Definition untyped {A} : B A := fun _ => None.

(** *** Texts and keyboards *)

Definition welcome_text (first_name' : list N) : list N :=
  u "👋 Привет, " ++ first_name' ++ u "!" ++ nl ++ nl
  ++ u "🤖 Я *Nix AI* - автообучающийся ИИ помощник." ++ nl
  ++ u "Я учусь на каждом нашем диалоге и могу:" ++ nl ++ nl
  ++ u "• Отвечать на вопросы" ++ nl
  ++ u "• Рассказывать о погоде 🌤️" ++ nl
  ++ u "• Показывать время и дату" ++ nl
  ++ u "• Запоминать информацию" ++ nl
  ++ u "• И многое другое!" ++ nl ++ nl
  ++ u "Просто начни общаться со мной!".

Definition city_prompt : list N := u "🌤️ Напиши название города:".

Definition clear_memory_warning : list N :=
  u "⚠️ *ВНИМАНИЕ!*" ++ nl ++ nl
  ++ u "Это удалит ВСЕ выученные мной знания." ++ nl
  ++ u "Вы уверены, что хотите очистить память?".

Definition city_missing_text : list N := u "Пожалуйста, введите название города.".

Definition fetching_text (city : list N) : list N :=
  u "🌤️ Получаю погоду для *" ++ city ++ u "*...".

Definition text_only_text : list N := u "Пожалуйста, отправьте текстовое сообщение.".

Definition memory_cleared_text : list N :=
  u "✅ Память очищена. Я все забыл. 🧹" ++ nl ++ nl
  ++ u "Теперь я снова как чистый лист!".

Definition clear_cancelled_text : list N :=
  u "❌ Очистка памяти отменена." ++ nl ++ nl ++ u "Все знания сохранены.".

Definition learning_toggled_text (auto : bool) : list N :=
  u "✅ Автообучение теперь *" ++ (if auto then u "ВКЛ" else u "ВЫКЛ") ++ u "*".

Definition detailed_stats_text (messages learned corrections users first_start : pyval)
  : list N :=
  u "📊 *Детальная статистика:*" ++ nl ++ nl
  ++ u "• Всего сообщений: *" ++ py_str messages ++ u "*" ++ nl
  ++ u "• Выучено ответов: *" ++ py_str learned ++ u "*" ++ nl
  ++ u "• Исправлений получено: *" ++ py_str corrections ++ u "*" ++ nl
  ++ u "• Всего пользователей: *" ++ py_str users ++ u "*" ++ nl
  ++ u "• Первый запуск: *" ++ py_str first_start ++ u "*" ++ nl.

Definition chat_reset_text : list N := u "✅ Диалог сброшен. Начнем общение заново!".

(** [_get_main_keyboard]. *)
Definition _get_main_keyboard : ReplyMarkup :=
  ReplyKeyboardMarkup
    [[u "🌤️ Погода"; u "🕐 Время"];
     [u "📊 Статистика"; u "❓ Помощь"];
     [u "🎯 Что ты умеешь?"; u "😂 Анекдот"]].

(** The keyboard of [clear_memory_command]. *)
Definition clear_memory_keyboard : ReplyMarkup :=
  InlineKeyboardMarkup
    [[(u "✅ Да, очистить", u "clear_yes")];
     [(u "❌ Нет, оставить", u "clear_no")]].

Section FrontEnd.
Context {RT : PyRuntime} {WS : WeatherService} {TS : TelegramService}.

(** [process_message] up to its test of the correction: the profile
    is resolved and the message counted. *)
Definition count_message (now : Z) (user_id' : Z)
    (username' first_name' last_name' : option (list N)) : M unit :=
  get_or_create_user_profile now user_id' username' first_name' last_name';;
  update_user_stats now user_id' (u "total_messages").

(** [self.ai.process_message(user_id, message.text, ...)]:
    [message.text] is [None] for a message without text.  The engine
    then resolves the profile and counts the message as for any
    other; after that it files [None] as the answer when the turn is
    a correction with a question, and this run is not described
    further; otherwise it goes on to the rules and raises
    [AttributeError] at [user_message.lower()]. *)
Definition process_message_text (now : Z) (rnd : nat) (user_id' : Z)
    (user_message : option (list N)) (username' first_name' last_name' : option (list N))
    (is_correction : bool) (correction_data' : option (gmap (list N) (list N)))
  : B TurnOutcome :=
  match user_message with
  | Some user_message =>
      on_ai (process_message now rnd user_id' user_message username' first_name' last_name'
               is_correction correction_data')
  | None =>
      on_ai (count_message now user_id' username' first_name' last_name');;
      match correction_question is_correction correction_data' with
      | Some question => untyped
      | None => b_raise (OtherError (u "'NoneType' object has no attribute 'lower'"))
      end
  end.

(** *** Commands *)

Definition start_command (message : Message) : B unit :=
  let keyboard := _get_main_keyboard in
  send (Answer (welcome_text (from_user_first_name message)) true (Some keyboard)).

Definition help_command (message : Message) : B unit :=
  help_text' ← on_ai _help;
  send (Answer help_text' true None).

Definition weather_command (message : Message) : B unit :=
  send (Answer city_prompt false None);;
  set_state (Some AWAITING_WEATHER_CITY).

Definition stats_command (now : Z) (rnd : nat) (message : Message) : B unit :=
  result ← on_ai (process_message now rnd (from_user_id message) (u "статистика")
                    (from_user_username message) (Some (from_user_first_name message))
                    (from_user_last_name message) false None);
  send (Answer (response result) true None).

Definition clear_memory_command (message : Message) : B unit :=
  send (Answer clear_memory_warning true (Some clear_memory_keyboard)).

(** *** State handlers *)

(** [handle_weather_city]; [message.text.strip()] raises
    [AttributeError] on a message without text. *)
Definition handle_weather_city (now : Z) (message : Message) : B unit :=
  match text message with
  | None => b_raise (OtherError (u "'NoneType' object has no attribute 'strip'"))
  | Some message_text =>
      let city := strip message_text in
      match city with
      | [] => send (Answer city_missing_text false None)
      | _ =>
          send (Answer (fetching_text city) true None);;
          weather ← on_ai (get_weather now city);
          send (Answer weather true None);;
          state_clear
      end
  end.

(** [handle_correction]. *)
Definition handle_correction (now : Z) (rnd : nat) (message : Message) : B unit :=
  user_data ← get_data;
  let correction_data' := default ∅ (user_data !! u "correction_data") in
  result ← process_message_text now rnd (from_user_id message) (text message)
             (from_user_username message) (Some (from_user_first_name message))
             (from_user_last_name message) true (Some correction_data');
  send (Answer (response result) false None);;
  state_clear.

(** [handle_remember]; a message without text is formatted as
    ["None"]. *)
Definition handle_remember (now : Z) (rnd : nat) (message : Message) : B unit :=
  result ← on_ai (process_message now rnd (from_user_id message)
                    (u "запомни " ++ default (u "None") (text message))
                    (from_user_username message) (Some (from_user_first_name message))
                    (from_user_last_name message) false None);
  send (Answer (response result) false None);;
  state_clear.

(** *** The handler of all messages *)

Definition handle_message (now : Z) (rnd : nat) (message : Message) : B unit :=
  match text message with
  | None | Some [] => send (Answer text_only_text false None)
  | Some user_message =>
      if starts_with (u "/") user_message then mret tt
      else
        current_state ← get_state;
        if bool_decide (current_state = Some AWAITING_WEATHER_CITY) then
          handle_weather_city now message
        else if bool_decide (current_state = Some AWAITING_CORRECTION) then
          handle_correction now rnd message
        else if bool_decide (current_state = Some AWAITING_REMEMBER) then
          handle_remember now rnd message
        else
          result ← on_ai (process_message now rnd (from_user_id message) user_message
                            (from_user_username message)
                            (Some (from_user_first_name message))
                            (from_user_last_name message) false None);
          send (Answer (response result) true None);;
          if needs_followup result then
            if bool_decide (action result = Some (u "correction")) then
              set_data {[ u "correction_data" := default ∅ (correction_data result) ]};;
              set_state (Some AWAITING_CORRECTION)
            else if bool_decide (action result = Some (u "weather")) then
              set_state (Some AWAITING_WEATHER_CITY)
            else mret tt
          else mret tt
  end.

(** *** The handler of the inline buttons *)

Definition handle_callback (data : option (list N)) : B unit :=
  send CallbackAnswer;;
  if bool_decide (data = Some (u "clear_yes")) then
    on_ai (clear_memory_confirmed;; _save_knowledge);;
    send (EditText memory_cleared_text false)
  else if bool_decide (data = Some (u "clear_no")) then
    send (EditText clear_cancelled_text false)
  else if bool_decide (data = Some (u "toggle_learning")) then
    on_ai toggle_learning;;
    modes ← on_ai (gets learning_modes);
    send (EditText (learning_toggled_text (auto_correction modes)) true)
  else if bool_decide (data = Some (u "stats_detailed")) then
    stats ← on_ai (gets (fun c => statistics (knowledge c)));
    messages ← on_ai (getitem stats (u "total_messages"));
    learned ← on_ai (getitem stats (u "learned_qna"));
    corrections ← on_ai (getitem stats (u "corrections_received"));
    send (Answer (detailed_stats_text messages learned corrections
                    (default (PInt 0) (stats !! u "total_users"))
                    (default (PStr (u "неизвестно")) (stats !! u "first_start")))
            true None)
  else if bool_decide (data = Some (u "reset_chat")) then
    state_clear;;
    send (Answer chat_reset_text false None)
  else if bool_decide (data = Some (u "weather")) then
    send (Answer city_prompt false None);;
    set_state (Some AWAITING_WEATHER_CITY)
  else mret tt.

(** *** The registered handlers

    A handler of [_register_handlers] applied to an update, with the
    clock reading and the random draw of its run.  The dispatcher
    offers a message to the handlers in the order of registration,
    the commands first, then the handler of the dialogue state, then
    [handle_message]; the filters that decide are aiogram's.  Every
    handler is taken here on every update and in every state, which
    covers whatever the dispatcher picks: for one, a message without
    text that arrives while a correction is awaited goes to
    [handle_correction]. *)
Inductive Handling :=
| StartCommand (message : Message)
| HelpCommand (message : Message)
| WeatherCommand (message : Message)
| StatsCommand (now : Z) (rnd : nat) (message : Message)
| ClearMemoryCommand (message : Message)
| HandleWeatherCity (now : Z) (message : Message)
| HandleCorrection (now : Z) (rnd : nat) (message : Message)
| HandleRemember (now : Z) (rnd : nat) (message : Message)
| HandleMessage (now : Z) (rnd : nat) (message : Message)
| HandleCallback (data : option (list N)).

Definition handle (h : Handling) : B unit :=
  match h with
  | StartCommand message => start_command message
  | HelpCommand message => help_command message
  | WeatherCommand message => weather_command message
  | StatsCommand now rnd message => stats_command now rnd message
  | ClearMemoryCommand message => clear_memory_command message
  | HandleWeatherCity now message => handle_weather_city now message
  | HandleCorrection now rnd message => handle_correction now rnd message
  | HandleRemember now rnd message => handle_remember now rnd message
  | HandleMessage now rnd message => handle_message now rnd message
  | HandleCallback data => handle_callback data
  end.
End FrontEnd.

(** The states of the bot from the state [s0] on, along the handlings
    that [allowed] admits, whether the handlers return or raise.  A
    run that leaves the documents of this embedding has no state
    here. *)
Inductive bot_run {RT : PyRuntime} {WS : WeatherService} {TS : TelegramService}
    (allowed : Handling -> Prop) (s0 : NixAITelegramBot) : NixAITelegramBot -> Prop :=
| bot_start : bot_run allowed s0 s0
| bot_step s h r s' :
    bot_run allowed s0 s -> allowed h -> handle h s = Some (r, s') ->
    bot_run allowed s0 s'.

(** While a correction is awaited, the FSM data hold the question. *)
Definition pending_question (s : NixAITelegramBot) : Prop :=
  fsm_state s = Some AWAITING_CORRECTION ->
  exists d question,
    fsm_data s !! u "correction_data" = Some d /\
    d !! u "question" = Some question /\ question <> [].

(** What a handler does to the object: nothing, or what [serves]
    lists, or the counting of a message without text. *)
Inductive attends {RT : PyRuntime} {WS : WeatherService} (c : NixAICore)
  : NixAICore -> Prop :=
| attends_not : attends c c
| attends_serves c' : serves c c' -> attends c c'
| attends_text_less now uid un fn ln :
    attends c (count_message now uid un fn ln c).2.


(** ** Updates of a sample chat *)

Module Chats.

(** A message of user 42 with the text [body]. *)
Definition from_ivan (body : option (list N)) : Message :=
  {| from_user_id := 42; from_user_username := Some (u "ivan");
     from_user_first_name := u "Иван"; from_user_last_name := None; text := body |}.

(** A service that accepts every call, and one that refuses every
    call. *)
Definition accepting : TelegramService := {| api_call := fun _ _ => Ret tt |}.

Definition refusing : TelegramService :=
  {| api_call := fun _ _ => Raise (OtherError (u "Telegram server says - Bad Request")) |}.
End Chats.


(** [self.knowledge["interaction_stats"].get(key, {}).get(answer, 0)]. *)
Definition interaction_count (c : NixAICore) (key answer : list N) : Z :=
  default 0 (default ∅ (default ∅ (interaction_stats (knowledge c)) !! key) !! answer).


(** [c'] has a well-formed knowledge document when [c] has one. *)
Definition shape_kept (c c' : NixAICore) : Prop :=
  well_formed (knowledge c) -> well_formed (knowledge c').


(** ** The matcher in the words of its specification

    What the lookup and the confidence are specified by, stated
    without the loops of the code: a text occurring in another, the
    tokens of a text, its keywords, and the number of keywords that
    two texts share. *)

(** [q] occurs in [s]. *)
Definition occurs_in (q s : list N) : Prop := exists pre post, s = pre ++ q ++ post.

(** Tokens on word boundaries: [ws] are the maximal runs of word
    characters of the text, from left to right; [gap] is what lies
    between two of them. *)
Inductive tokens_of (word : N -> bool) : list N -> list (list N) -> Prop :=
| tokens_none gap :
    Forall (fun ch => word ch = false) gap ->
    tokens_of word gap []
| tokens_next gap w rest ws :
    Forall (fun ch => word ch = false) gap ->
    w <> [] ->
    Forall (fun ch => word ch = true) w ->
    (forall ch, head rest = Some ch -> word ch = false) ->
    tokens_of word rest ws ->
    tokens_of word (gap ++ w ++ rest) (w :: ws).

(** The tokens that are kept as keywords: a token of at most two
    characters or in the stop-word set is dropped, the others stay in
    their order. *)
Inductive keywords_among : list (list N) -> list (list N) -> Prop :=
| keywords_done : keywords_among [] []
| keywords_keep w tokens keywords :
    w ∉ stop_words -> (2 < length w)%nat ->
    keywords_among tokens keywords ->
    keywords_among (w :: tokens) (w :: keywords)
| keywords_drop w tokens keywords :
    w ∈ stop_words \/ (length w <= 2)%nat ->
    keywords_among tokens keywords ->
    keywords_among (w :: tokens) keywords.

(** The keywords of a text are those of the tokens of its lower-cased
    form. *)
Definition keywords_of {RT : PyRuntime} (text : list N) (keywords : list (list N)) : Prop :=
  exists tokens,
    tokens_of is_word (lower text) tokens /\ keywords_among tokens keywords.

(** [n] is the size of the intersection of the keyword sets [a] and
    [b]: the number of distinct words that are in both. *)
Definition shared_keywords (a b : list (list N)) (n : nat) : Prop :=
  exists common,
    NoDup common /\ (forall w, w ∈ common <-> w ∈ a /\ w ∈ b) /\ length common = n.


(** ** What the handler of a rule answers

    The response of each handler in terms of what it is called with:
    the object [c] at the time of the call, the clock, the profile
    [p] of the user and the message.  Where the handler draws from a
    list of phrasings, any of them is a response. *)
Inductive handler_response {RT : PyRuntime} (c : NixAICore) (now : Z) (p : UserProfile)
    (message : list N) : handler -> list N -> Prop :=
| hr_greet_name name text :
    first_name p = Some name -> name <> [] -> text ∈ name_options name ->
    handler_response c now p message greet text
| hr_greet text :
    first_name p = None \/ first_name p = Some [] -> text ∈ greetings ->
    handler_response c now p message greet text
| hr_goodbye_name name farewell :
    first_name p = Some name -> name <> [] -> farewell ∈ farewells ->
    handler_response c now p message goodbye (named_farewell name farewell)
| hr_goodbye text :
    first_name p = None \/ first_name p = Some [] -> text ∈ farewells ->
    handler_response c now p message goodbye text
| hr_how_are_you text :
    text ∈ how_are_you_responses -> handler_response c now p message how_are_you text
| hr_thank_you text :
    text ∈ thank_you_responses -> handler_response c now p message thank_you text
| hr_about_me name version goal :
    facts (knowledge c) !! u "имя" = Some name ->
    facts (knowledge c) !! u "версия" = Some version ->
    facts (knowledge c) !! u "цель" = Some goal ->
    handler_response c now p message about_me (about_me_text name version goal)
| hr_about_creator text :
    facts (knowledge c) !! u "создатель" = Some text ->
    handler_response c now p message about_creator text
| hr_help : handler_response c now p message help help_text
| hr_time : handler_response c now p message time (time_text (strftime_HMS now))
| hr_date : handler_response c now p message date (date_text (strftime_dmY now))
| hr_remembered group1 :
    re_search_group
      [Lit (u "запомни"); Rep is_space 0; OptAlt [u "что"; u ","]; Rep is_space 0]
      (lower message) = Some group1 ->
    handler_response c now p message remember_info (remembered_text (strip group1))
| hr_remember_usage :
    re_search_group
      [Lit (u "запомни"); Rep is_space 0; OptAlt [u "что"; u ","]; Rep is_space 0]
      (lower message) = None ->
    handler_response c now p message remember_info remember_usage
| hr_recall_fact stored key f :
    learned_facts (knowledge c) = Some stored -> (key, f) ∈ stored ->
    handler_response c now p message recall_info (recall_text (fact f))
| hr_recall_answer before question answer after :
    learned_facts (knowledge c) = None \/ learned_facts (knowledge c) = Some [] ->
    default [] (qna (knowledge c)) = before ++ (question, answer) :: after ->
    (forall qa, qa ∈ before -> ~ occurs_in qa.1 (lower message)) ->
    occurs_in question (lower message) ->
    handler_response c now p message recall_info answer
| hr_recall_nothing :
    learned_facts (knowledge c) = None \/ learned_facts (knowledge c) = Some [] ->
    (forall qa, qa ∈ default [] (qna (knowledge c)) -> ~ occurs_in qa.1 (lower message)) ->
    handler_response c now p message recall_info recall_nothing
| hr_clear_memory : handler_response c now p message clear_memory clear_memory_text
| hr_how_i_learn learned corrections messages :
    statistics (knowledge c) !! u "learned_qna" = Some learned ->
    statistics (knowledge c) !! u "corrections_received" = Some corrections ->
    statistics (knowledge c) !! u "total_messages" = Some messages ->
    handler_response c now p message how_i_learn
      (how_i_learn_text (auto_correction (learning_modes c)) learned corrections messages
         (default (PInt 0) (statistics (knowledge c) !! u "total_users")))
| hr_weather : handler_response c now p message weather_handler weather_handler_text
| hr_stats messages learned :
    statistics (knowledge c) !! u "total_messages" = Some messages ->
    statistics (knowledge c) !! u "learned_qna" = Some learned ->
    handler_response c now p message stats_handler
      (stats_text messages learned
         (default (PInt 0) (statistics (knowledge c) !! u "total_users"))
         (user_stats_text (total_messages p) (learned_contributions p)
            (conversation_count p)))
| hr_currency : handler_response c now p message currency_handler currency_text
| hr_news : handler_response c now p message news_handler news_text
| hr_joke joke :
    joke ∈ jokes -> handler_response c now p message joke_handler (joke_text joke).


(** * Properties *)

(** ** Dictionaries *)

Lemma dict_get_set_eq {V} (k : list N) (v : V) (d : list (list N * V)) :
  dict_get k (dict_set k v d) = Some v.
Proof.
  induction d as [|[k' v'] d IH]; simpl.
  - by rewrite bool_decide_eq_true_2.
  - destruct (decide (k' = k)) as [->|Hne].
    + rewrite bool_decide_eq_true_2 by done. simpl.
      by rewrite bool_decide_eq_true_2.
    + rewrite bool_decide_eq_false_2 by done. simpl.
      by rewrite bool_decide_eq_false_2.
Qed.

Lemma dict_get_set_ne {V} (k k0 : list N) (v : V) (d : list (list N * V)) :
  k0 ≠ k -> dict_get k0 (dict_set k v d) = dict_get k0 d.
Proof.
  intros Hne. induction d as [|[k' v'] d IH]; simpl.
  - rewrite bool_decide_eq_false_2; [done | congruence].
  - destruct (decide (k' = k)) as [->|Hk].
    + rewrite bool_decide_eq_true_2 by done. simpl.
      rewrite bool_decide_eq_false_2; [done | congruence].
    + rewrite bool_decide_eq_false_2 by done. simpl.
      by rewrite IH.
Qed.

(** ** Occurrence of a text in another *)

Lemma starts_with_spec (p s : list N) :
  starts_with p s = true <-> exists post, s = p ++ post.
Proof.
  revert s. induction p as [|c p IH]; intros s; simpl.
  - split; [intros _; by exists s | done].
  - destruct s as [|d s].
    + split; [done | intros [post Hpost]; discriminate Hpost].
    + rewrite andb_true_iff, bool_decide_eq_true, IH. split.
      * intros [-> [post ->]]. by exists post.
      * intros [post [= -> ->]]. split; [done | by exists post].
Qed.

(** [needle in hay] holds exactly when [hay] is some text, then
    [needle], then some text. *)
Lemma str_in_spec (needle hay : list N) :
  str_in needle hay = true <-> exists pre post, hay = pre ++ needle ++ post.
Proof.
  induction hay as [|d hay IH].
  - simpl. rewrite orb_false_r, starts_with_spec. split.
    + intros [post Hpost]. by exists [], post.
    + intros (pre & post & Heq). symmetry in Heq.
      apply app_eq_nil in Heq as [-> Heq]. by exists post.
  - cbn [str_in]. rewrite orb_true_iff, starts_with_spec, IH. split.
    + intros [[post Hpost]|(pre & post & ->)].
      * by exists [], post.
      * by exists (d :: pre), post.
    + intros ([|d' pre] & post & Heq).
      * left. by exists post.
      * right. injection Heq as -> ->. by exists pre, post.
Qed.

Lemma str_in_empty (hay : list N) : str_in [] hay = true.
Proof. apply str_in_spec. by exists [], hay. Qed.

Lemma str_in_refl (s : list N) : str_in s s = true.
Proof. apply str_in_spec. exists [], []. by rewrite app_nil_r. Qed.

(** A text that contains [a ++ b] contains [a]. *)
Lemma str_in_prefix (a b hay : list N) :
  str_in (a ++ b) hay = true -> str_in a hay = true.
Proof.
  rewrite !str_in_spec. intros (pre & post & ->).
  exists pre, (b ++ post). by rewrite <- !app_assoc.
Qed.

(** ** Tokens and keywords *)

Lemma findall_words_gap word gap s :
  Forall (fun ch => word ch = false) gap ->
  findall_words word [] (gap ++ s) = findall_words word [] s.
Proof.
  induction 1 as [|ch gap Hch _ IH]; [done|].
  simpl. by rewrite Hch.
Qed.

Lemma findall_words_run word w cur rest :
  Forall (fun ch => word ch = true) w ->
  findall_words word cur (w ++ rest) = findall_words word (rev w ++ cur) rest.
Proof.
  intros Hw. revert cur. induction Hw as [|ch w Hch _ IH]; intros cur; [done|].
  simpl. rewrite Hch, IH. by rewrite <- app_assoc.
Qed.

Lemma findall_words_token word w rest :
  w <> [] ->
  Forall (fun ch => word ch = true) w ->
  (forall ch, head rest = Some ch -> word ch = false) ->
  findall_words word [] (w ++ rest) = w :: findall_words word [] rest.
Proof.
  intros Hne Hw Hrest. rewrite findall_words_run by done. rewrite app_nil_r.
  assert (rev w <> []) as Hrev.
  { intros E. apply Hne. by rewrite <- (rev_involutive w), E. }
  destruct rest as [|ch rest]; simpl.
  - destruct (rev w) eqn:E; [done|]. by rewrite <- E, rev_involutive.
  - rewrite (Hrest ch eq_refl).
    destruct (rev w) eqn:E; [done|]. by rewrite <- E, rev_involutive.
Qed.

(** The scan of the code finds the tokens, and nothing else does. *)
Lemma tokens_of_findall word s ws :
  tokens_of word s ws -> findall_words word [] s = ws.
Proof.
  induction 1 as [gap Hgap | gap w rest ws Hgap Hne Hw Hrest _ IH].
  - rewrite <- (app_nil_r gap). by rewrite findall_words_gap.
  - rewrite findall_words_gap by done.
    rewrite findall_words_token by done. by rewrite IH.
Qed.

Lemma take_drop_while_word (p : N -> bool) (s : list N) :
  s = take_while p s ++ drop_while p s /\
  Forall (fun ch => p ch = true) (take_while p s) /\
  (forall ch, head (drop_while p s) = Some ch -> p ch = false).
Proof.
  induction s as [|c s (IH1 & IH2 & IH3)]; simpl.
  - split; [done|]. split; [constructor | done].
  - destruct (p c) eqn:Hc; simpl.
    + split; [by rewrite <- IH1|]. split; [by constructor | done].
    + split; [done|]. split; [constructor|]. by intros ch [= <-].
Qed.

Lemma findall_tokens_of word s : tokens_of word s (findall_words word [] s).
Proof.
  remember (length s) as n eqn:Hn. revert s Hn.
  induction (lt_wf n) as [n _ IH]. intros s Hn.
  destruct (take_drop_while_word (fun ch => negb (word ch)) s) as (Hs & Hgap & Hhead).
  set (gap := take_while (fun ch => negb (word ch)) s) in *.
  set (s1 := drop_while (fun ch => negb (word ch)) s) in *.
  assert (Forall (fun ch => word ch = false) gap) as Hgap'.
  { eapply Forall_impl; [exact Hgap|]. intros ch Hc. by apply negb_true_iff in Hc. }
  destruct (take_drop_while_word word s1) as (Hs1 & Hw & Hrest).
  set (rest := drop_while word s1) in *.
  destruct (take_while word s1) as [|c w] eqn:Ew.
  - (* no word character is left *)
    assert (s1 = []) as Hnil.
    { destruct s1 as [|c s1'] eqn:E1; [done|].
      pose proof (Hhead c eq_refl) as Hc. apply negb_false_iff in Hc.
      simpl in Ew. by rewrite Hc in Ew. }
    rewrite Hs, Hnil, app_nil_r.
    replace (findall_words word [] gap) with (@nil (list N)).
    + by constructor.
    + symmetry. rewrite <- (app_nil_r gap). by rewrite findall_words_gap.
  - rewrite Hs, Hs1.
    rewrite findall_words_gap by done.
    rewrite findall_words_token by done.
    apply tokens_next; try done.
    apply (IH (length rest)); [|done].
    rewrite Hn, Hs, Hs1, !length_app. simpl. lia.
Qed.

Lemma tokens_of_spec word s ws :
  tokens_of word s ws <-> ws = findall_words word [] s.
Proof.
  split; [intros H; by rewrite (tokens_of_findall _ _ _ H) | intros ->; apply findall_tokens_of].
Qed.

Lemma keywords_among_spec tokens keywords :
  keywords_among tokens keywords <->
  keywords = filter (fun w => (w ∉ stop_words) /\ (2 < length w)%nat) tokens.
Proof.
  split.
  - induction 1 as [|w tokens keywords Hstop Hlen _ IH|w tokens keywords Hdrop _ IH].
    + done.
    + rewrite filter_cons_True by done. by rewrite IH.
    + rewrite filter_cons_False; [done|]. intros [Hstop Hlen].
      destruct Hdrop as [Hin|Hshort]; [done | lia].
  - intros ->. induction tokens as [|w tokens IH]; [constructor|].
    destruct (decide ((w ∉ stop_words) /\ (2 < length w)%nat)) as [[Hstop Hlen]|Hno].
    + rewrite filter_cons_True by done. by constructor.
    + rewrite filter_cons_False by done. apply keywords_drop; [|done].
      destruct (decide (w ∈ stop_words)) as [Hin|Hout]; [by left|].
      right. destruct (decide (2 < length w)%nat); [|lia]. by destruct Hno.
Qed.

Section SpecBridge.
Context {RT : PyRuntime}.

Lemma keywords_of_spec text keywords :
  keywords_of text keywords <-> keywords = _extract_keywords text.
Proof.
  unfold keywords_of, _extract_keywords. split.
  - intros (tokens & Htokens%tokens_of_spec & Hkw%keywords_among_spec). by subst.
  - intros ->. eexists. split; [apply findall_tokens_of|]. by apply keywords_among_spec.
Qed.

Lemma shared_keywords_spec a b n :
  shared_keywords a b n <-> n = size (common_keywords a b).
Proof.
  unfold shared_keywords, common_keywords. split.
  - intros (common & Hnodup & Hmem & <-).
    unfold size, set_size. simpl. apply Permutation_length.
    apply NoDup_Permutation; [done | apply NoDup_elements|].
    intros w. rewrite Hmem, elem_of_elements, elem_of_intersection, !elem_of_list_to_set.
    done.
  - intros ->. exists (elements (list_to_set a ∩ list_to_set b : gset (list N))).
    split; [apply NoDup_elements|]. split; [|done].
    intros w. by rewrite elem_of_elements, elem_of_intersection, !elem_of_list_to_set.
Qed.
End SpecBridge.

Lemma dict_get_first {V} (k : list N) (v : V) before after :
  k ∉ before.*1 -> dict_get k (before ++ (k, v) :: after) = Some v.
Proof.
  induction before as [|[k' v'] before IH]; simpl; intros Hk.
  - by rewrite bool_decide_eq_true_2.
  - apply not_elem_of_cons in Hk as [Hne Hk].
    rewrite bool_decide_eq_false_2 by done. by apply IH.
Qed.

Lemma dict_get_absent {V} (k : list N) (d : list (list N * V)) :
  k ∉ d.*1 <-> dict_get k d = None.
Proof.
  induction d as [|[k' v'] d IH]; simpl.
  - split; [done | intros _; apply not_elem_of_nil].
  - rewrite not_elem_of_cons. case_bool_decide as Hk.
    + split; [by intros [? _] | done].
    + rewrite IH. split; [by intros [_ ?] | by split].
Qed.

Section MatcherProperties.
Context {RT : PyRuntime}.

(** *** The two loops pick the first hit in stored order *)

Lemma partial_match_first before question answer after m :
  (forall qa, qa ∈ before -> str_in qa.1 m || str_in m qa.1 = false) ->
  str_in question m || str_in m question = true ->
  partial_match (before ++ (question, answer) :: after) m = Some answer.
Proof.
  intros Hbefore Hhit. induction before as [|[q a] before IH]; simpl.
  - by rewrite Hhit.
  - pose proof (Hbefore (q, a) (list_elem_of_here _ _)) as Hq.
    simpl in Hq. rewrite Hq.
    apply IH. intros qa Hqa. apply Hbefore. by apply list_elem_of_further.
Qed.

Lemma partial_match_none items m :
  (forall qa, qa ∈ items -> str_in qa.1 m || str_in m qa.1 = false) ->
  partial_match items m = None.
Proof.
  induction items as [|[q a] items IH]; intros Hno; simpl; [done|].
  pose proof (Hno (q, a) (list_elem_of_here _ _)) as Hq.
  simpl in Hq. rewrite Hq.
  apply IH. intros qa Hqa. apply Hno. by apply list_elem_of_further.
Qed.

Lemma keyword_match_first before question answer after keywords :
  (forall qa, qa ∈ before ->
     (size (common_keywords keywords (_extract_keywords qa.1)) < 2)%nat) ->
  (2 <= size (common_keywords keywords (_extract_keywords question)))%nat ->
  keyword_match (before ++ (question, answer) :: after) keywords = Some answer.
Proof.
  intros Hbefore Hhit. induction before as [|[q a] before IH]; simpl.
  - by rewrite bool_decide_eq_true_2.
  - rewrite bool_decide_eq_false_2.
    + apply IH. intros qa Hqa. apply Hbefore. by apply list_elem_of_further.
    + specialize (Hbefore (q, a) (list_elem_of_here _ _)). simpl in Hbefore. lia.
Qed.

Lemma keyword_match_none items keywords :
  (forall qa, qa ∈ items ->
     (size (common_keywords keywords (_extract_keywords qa.1)) < 2)%nat) ->
  keyword_match items keywords = None.
Proof.
  induction items as [|[q a] items IH]; intros Hno; simpl; [done|].
  rewrite bool_decide_eq_false_2.
  - apply IH. intros qa Hqa. apply Hno. by apply list_elem_of_further.
  - specialize (Hno (q, a) (list_elem_of_here _ _)). simpl in Hno. lia.
Qed.

Lemma contained_spec (q m : list N) :
  occurs_in q m \/ occurs_in m q <-> str_in q m || str_in m q = true.
Proof. unfold occurs_in. by rewrite orb_true_iff, !str_in_spec. Qed.

Lemma not_contained_spec (q m : list N) :
  ~ (occurs_in q m \/ occurs_in m q) <-> str_in q m || str_in m q = false.
Proof. rewrite contained_spec. by destruct (str_in q m || str_in m q). Qed.

Lemma overlapping_spec (m q : list N) :
  (exists kw qk n,
     keywords_of m kw /\ keywords_of q qk /\ shared_keywords kw qk n /\ (2 <= n)%nat) <->
  (2 <= size (common_keywords (_extract_keywords m) (_extract_keywords q)))%nat.
Proof.
  split.
  - intros (kw & qk & n & ->%keywords_of_spec & ->%keywords_of_spec
            & ->%shared_keywords_spec & Hn). done.
  - intros Hn. eexists _, _, _.
    split; [by apply keywords_of_spec|]. split; [by apply keywords_of_spec|].
    split; [by apply shared_keywords_spec | done].
Qed.

(** C3. QnA lookup resolves in a fixed order, the first hit winning:
    (1) the lower-cased utterance is a stored key: its answer;
    (2) otherwise the first stored question, in stored order, that
    occurs in the lower-cased utterance or in which it occurs;
    (3) otherwise the first stored question whose keywords share at
    least two distinct words with those of the utterance, whatever
    the size of later overlaps;
    (4) otherwise nothing.  Keywords are the tokens of the lower-cased
    text, its maximal runs of word characters, without those of at
    most two characters and the stop words.  In particular a question
    stored under "столица франции" is found by any utterance that
    lower-cases to it. *)
Theorem C3_qna_lookup_order (items : list (list N * list N)) (user_message : list N) :
  let m := lower user_message in
  let contained := fun q : list N => occurs_in q m \/ occurs_in m q in
  let overlapping := fun q : list N =>
    exists kw qk n,
      keywords_of m kw /\ keywords_of q qk /\ shared_keywords kw qk n /\ (2 <= n)%nat in
  (forall before answer after,
     items = before ++ (m, answer) :: after -> m ∉ before.*1 ->
     check_qna_match items user_message = Some answer) /\
  (forall before question answer after,
     m ∉ items.*1 ->
     items = before ++ (question, answer) :: after ->
     (forall qa, qa ∈ before -> ~ contained qa.1) ->
     contained question ->
     check_qna_match items user_message = Some answer) /\
  (forall before question answer after,
     m ∉ items.*1 ->
     (forall qa, qa ∈ items -> ~ contained qa.1) ->
     items = before ++ (question, answer) :: after ->
     (forall qa, qa ∈ before -> ~ overlapping qa.1) ->
     overlapping question ->
     check_qna_match items user_message = Some answer) /\
  (m ∉ items.*1 ->
   (forall qa, qa ∈ items -> ~ contained qa.1 /\ ~ overlapping qa.1) ->
   check_qna_match items user_message = None) /\
  (forall store,
     m = u "столица франции" ->
     check_qna_match (dict_set (u "столица франции") (u "Париж") store) user_message
     = Some (u "Париж")).
Proof.
  intros m contained overlapping. unfold check_qna_match. fold m.
  assert (forall l : list (list N * list N),
            (forall qa, qa ∈ l -> ~ contained qa.1) ->
            forall qa, qa ∈ l -> str_in qa.1 m || str_in m qa.1 = false) as Hmiss.
  { intros l Hl qa Hqa. by apply not_contained_spec, Hl. }
  assert (forall l : list (list N * list N),
            (forall qa, qa ∈ l -> ~ overlapping qa.1) ->
            forall qa, qa ∈ l ->
              (size (common_keywords (_extract_keywords m) (_extract_keywords qa.1)) < 2)%nat)
    as Hfew.
  { intros l Hl qa Hqa. apply Nat.nle_gt. intros Hn. apply (Hl qa Hqa).
    by apply overlapping_spec. }
  split; [|split; [|split; [|split]]].
  - intros before answer after -> Hfirst. by rewrite dict_get_first.
  - intros before question answer after ->%dict_get_absent -> Hbefore Hhit%contained_spec.
    rewrite (partial_match_first before question answer after m); [done| |done].
    by apply Hmiss.
  - intros before question answer after ->%dict_get_absent Hno Hitems Hbefore
      Hhit%overlapping_spec.
    rewrite (partial_match_none items m) by (by apply Hmiss). rewrite Hitems.
    apply keyword_match_first; [|done]. by apply Hfew.
  - intros ->%dict_get_absent Hno.
    rewrite partial_match_none by (apply Hmiss; intros qa Hqa; by apply Hno).
    apply keyword_match_none. apply Hfew. intros qa Hqa. by apply Hno.
  - intros store ->. by rewrite dict_get_set_eq.
Qed.
End MatcherProperties.

(** ** Confidence *)

Lemma Q2Qc_nonneg (n : nat) (p : positive) : (0 ≤ Q2Qc (Z.of_nat n # p))%Qc.
Proof.
  change (0 <= Qred (Z.of_nat n # p))%Q.
  rewrite Qred_correct. unfold Qle. simpl. lia.
Qed.

Lemma Q2Qc_zero (p : positive) : Q2Qc (0 # p) = 0%Qc.
Proof. apply Q2Qc_eq_iff. reflexivity. Qed.

Lemma py_max_l (a b : Qc) : (a ≤ py_max a b)%Qc.
Proof.
  unfold py_max. case_bool_decide as Hlt.
  - by apply Qclt_le_weak.
  - apply Qcle_refl.
Qed.

Lemma py_max_r (a b : Qc) : (b ≤ py_max a b)%Qc.
Proof.
  unfold py_max. case_bool_decide as Hlt.
  - apply Qcle_refl.
  - by apply Qcnot_lt_le.
Qed.

Lemma py_max_cases (a b : Qc) : py_max a b = a \/ py_max a b = b.
Proof. unfold py_max. case_bool_decide; auto. Qed.

Section ConfidenceProperties.
Context {RT : PyRuntime}.

Lemma similarity_nonneg kw qk : (0 ≤ similarity kw qk)%Qc.
Proof. apply Q2Qc_nonneg. Qed.

Lemma similarity_no_keywords kw : similarity kw [] = 0%Qc.
Proof.
  unfold similarity, common_keywords. simpl.
  replace (size (list_to_set kw ∩ (∅ : gset (list N)))) with 0%nat.
  - apply Q2Qc_zero.
  - symmetry. apply size_empty_iff. apply intersection_empty_r.
Qed.

(** The loop keeps the running maximum: it never goes below its
    starting value, dominates the ratio of every question, and ends
    on the starting value or on the ratio of some question. *)
Lemma best_match_loop_max keywords questions best :
  (0 ≤ best)%Qc ->
  let result := best_match_loop keywords questions best in
  (best ≤ result)%Qc /\
  (forall q, q ∈ questions ->
     (similarity keywords (_extract_keywords q) ≤ result)%Qc) /\
  (result = best \/
   exists q, q ∈ questions /\ result = similarity keywords (_extract_keywords q)).
Proof.
  revert best. induction questions as [|q questions IH]; intros best Hbest; simpl.
  - split; [apply Qcle_refl|]. split; [|by left].
    intros q Hq. by apply elem_of_nil in Hq.
  - destruct (_extract_keywords q) as [|w qk] eqn:Hqk.
    + destruct (IH best Hbest) as (Hge & Hall & Hcase).
      split; [done|]. split.
      * intros q' [->|Hq']%elem_of_cons; [|by apply Hall].
        rewrite Hqk, similarity_no_keywords. by eapply Qcle_trans.
      * destruct Hcase as [->|(q' & Hq' & ->)]; [by left|].
        right. exists q'. split; [by apply list_elem_of_further|done].
    + set (s := similarity keywords (w :: qk)).
      assert (0 ≤ py_max best s)%Qc as Hmax
        by (eapply Qcle_trans; [exact Hbest | apply py_max_l]).
      destruct (IH (py_max best s) Hmax) as (Hge & Hall & Hcase).
      split; [eapply Qcle_trans; [apply py_max_l | exact Hge]|]. split.
      * intros q' [->|Hq']%elem_of_cons; [|by apply Hall].
        rewrite Hqk. fold s. eapply Qcle_trans; [apply py_max_r | exact Hge].
      * destruct Hcase as [Heq|(q' & Hq' & Heq)].
        -- destruct (py_max_cases best s) as [Hb|Hs].
           ++ left. by rewrite Heq.
           ++ right. exists q. split; [apply list_elem_of_here|].
              by rewrite Heq, Hs, Hqk.
        -- right. exists q'. split; [by apply list_elem_of_further|done].
Qed.

Lemma ratio_spec (user_message q : list N) (r : Qc) :
  (exists kw qk n,
     keywords_of user_message kw /\ keywords_of q qk /\ shared_keywords kw qk n /\
     r = Q2Qc (Z.of_nat n # Pos.of_nat (Nat.max (length kw) (length qk)))) <->
  r = similarity (_extract_keywords user_message) (_extract_keywords q).
Proof.
  unfold similarity. split.
  - by intros (kw & qk & n & ->%keywords_of_spec & ->%keywords_of_spec
               & ->%shared_keywords_spec & ->).
  - intros ->. eexists _, _, _.
    split; [by apply keywords_of_spec|]. split; [by apply keywords_of_spec|].
    split; [by apply shared_keywords_spec | done].
Qed.

(** C4. The confidence is exactly 0.9 when the lower-cased utterance
    is a stored question; otherwise it is 0.0 when the utterance has
    no keyword left after the stop-word and short-token filter; and
    otherwise it is the maximum, over the stored questions, of
    |shared keywords| / max(|utterance keywords|, |question keywords|),
    the shared keywords counted once each and the keywords of either
    text with their repetitions: it dominates the ratio of every
    stored question and is the ratio of one of them (0.0 when nothing
    is stored). *)
Theorem C4_confidence (items : list (list N * list N)) (user_message : list N) :
  let m := lower user_message in
  let confidence := calculate_confidence items user_message in
  let ratio_of := fun (q : list N) (r : Qc) =>
    exists kw qk n,
      keywords_of user_message kw /\ keywords_of q qk /\ shared_keywords kw qk n /\
      r = Q2Qc (Z.of_nat n # Pos.of_nat (Nat.max (length kw) (length qk))) in
  (m ∈ items.*1 -> confidence = Q2Qc (9 # 10)) /\
  (m ∉ items.*1 -> keywords_of user_message [] -> confidence = 0%Qc) /\
  (m ∉ items.*1 -> ~ keywords_of user_message [] ->
   (forall qa r, qa ∈ items -> ratio_of qa.1 r -> (r ≤ confidence)%Qc) /\
   (items = [] -> confidence = 0%Qc) /\
   (items <> [] -> exists qa, qa ∈ items /\ ratio_of qa.1 confidence)).
Proof.
  intros m confidence ratio_of. subst confidence. unfold calculate_confidence. fold m.
  split; [|split].
  - intros Hin. destruct (dict_get m items) as [answer|] eqn:Hget; [done|].
    by apply dict_get_absent in Hget.
  - intros ->%dict_get_absent Hkw%keywords_of_spec. by rewrite <- Hkw.
  - intros ->%dict_get_absent Hkw.
    destruct (_extract_keywords user_message) as [|w kw] eqn:Hkeys.
    { destruct Hkw. by apply keywords_of_spec. }
    pose proof (best_match_loop_max (w :: kw) (items.*1) 0%Qc (Qcle_refl _))
      as (Hge & Hall & Hcase).
    split; [|split].
    + intros qa r Hqa ->%ratio_spec. rewrite Hkeys.
      apply Hall. by apply list_elem_of_fmap_2.
    + intros ->. done.
    + intros Hne. destruct Hcase as [Heq|(q & Hq & Heq)].
      * destruct items as [|qa items]; [done|].
        exists qa. split; [apply list_elem_of_here|].
        apply ratio_spec. rewrite Hkeys. apply Qcle_antisym.
        -- rewrite Heq. apply Q2Qc_nonneg.
        -- apply Hall. apply list_elem_of_here.
      * apply list_elem_of_fmap in Hq as (qa & -> & Hqa).
        exists qa. split; [done|]. apply ratio_spec. by rewrite Hkeys.
Qed.
End ConfidenceProperties.

(** ** Running a computation *)

Lemma bind_run {A B} (m : M A) (f : A -> M B) (c : NixAICore) :
  (m ≫= f) c = match m c with
               | (Ret a, c') => f a c'
               | (Raise e, c') => (Raise e, c')
               end.
Proof. reflexivity. Qed.

Lemma bind_returns {A B} (m : M A) (f : A -> M B) (c c' : NixAICore) (a : A) :
  m c = (Ret a, c') -> (m ≫= f) c = f a c'.
Proof. intros Hm. by rewrite bind_run, Hm. Qed.

(** Two literal keys are different. *)
Ltac key_ne := let E := fresh in intros E; vm_compute in E; discriminate E.

(** Unfolding of the primitives of the monad. *)
Ltac mrun :=
  unfold modify_knowledge, getitem;
  unfold mbind, M_bind, mret, M_ret, modify, gets, lift, raise;
  cbn [id fst snd knowledge statistics facts qna user_profiles learned_facts
       interaction_stats set_knowledge set_statistics set_qna set_user_profiles
       set_learned_facts set_interaction_stats].

(** ** Frames *)

Lemma same_object_refl c : same_object c c.
Proof. by destruct c. Qed.

Lemma same_object_trans c1 c2 c3 :
  same_object c1 c2 -> same_object c2 c3 -> same_object c1 c3.
Proof.
  unfold same_object, set_knowledge. intros H12 H23.
  destruct c1, c2, c3; simpl in *. by simplify_eq.
Qed.

Lemma same_object_set_knowledge k c : same_object c (set_knowledge k c).
Proof. by destruct c. Qed.

Lemma same_object_fields c c' :
  same_object c c' ->
  weather_config c' = weather_config c /\ rules c' = rules c /\
  learning_modes c' = learning_modes c /\ weather_cache c' = weather_cache c /\
  cache_duration c' = cache_duration c /\ http_requests c' = http_requests c.
Proof. intros ->. by destruct c. Qed.

Lemma same_store_refl c : same_store c c.
Proof. split; [apply same_object_refl | done]. Qed.

Lemma same_store_trans c1 c2 c3 :
  same_store c1 c2 -> same_store c2 c3 -> same_store c1 c3.
Proof.
  intros (Ho & Hf & Hq & Hl & Hi) (Ho' & Hf' & Hq' & Hl' & Hi').
  split; [by eapply same_object_trans|].
  by rewrite Hf', Hq', Hl', Hi'.
Qed.

Section StoreProperties.
Context {RT : PyRuntime}.

Lemma get_or_create_spec now uid un fn ln c :
(forall s, stat c (u "total_users") <> Some (PStr s)) ->
exists p c',
  get_or_create_user_profile now uid un fn ln c = (Ret p, c') /\
  same_store c c' /\
  profiles c' = <[str_of_int (user_id p) := p]> (profiles c) /\
  match profiles c !! str_of_int uid with
  | Some p0 =>
      user_id p = user_id p0 /\
      learned_contributions p = learned_contributions p0 /\
      statistics (knowledge c') = statistics (knowledge c)
  | None =>
      user_id p = uid /\ conversation_count p = 1 /\
      learned_contributions p = 0 /\
      exists n, total_users c = PInt n /\
        statistics (knowledge c')
        = <[u "total_users" := PInt (n + 1)]> (statistics (knowledge c))
  end.
Proof.
intros Hst. unfold get_or_create_user_profile.
rewrite bind_run. cbn [gets]. fold (profiles c).
destruct (profiles c !! str_of_int uid) as [p0|] eqn:Hp0.
- eexists _, _. split; [reflexivity|].
  split; [|split; [|done]].
  + split; [by destruct c as [[]] | by destruct c as [[]]].
  + reflexivity.
- unfold total_users, stat in *.
  destruct (statistics (knowledge c) !! u "total_users") as [[n|s]|] eqn:Hn;
    [| by destruct (Hst s) |].
  + eexists _, _. split; [reflexivity|].
    split; [|split; [|eauto 10]].
    * split; [by destruct c as [[]] | by destruct c as [[]]].
    * reflexivity.
  + eexists _, _. split; [reflexivity|].
    split; [|split; [|eauto 10]].
    * split; [by destruct c as [[]] | by destruct c as [[]]].
    * reflexivity.
Qed.

Lemma update_user_stats_spec now uid field c :
(forall s, stat c field <> Some (PStr s)) ->
exists c',
  update_user_stats now uid field c = (Ret tt, c') /\
  same_store c c' /\
  statistics (knowledge c') =
    match stat c field with
    | Some (PInt n) => <[field := PInt (n + 1)]> (statistics (knowledge c))
    | _ => statistics (knowledge c)
    end /\
  match profiles c !! str_of_int uid with
  | Some p =>
      exists p', profiles c' = <[str_of_int uid := p']> (profiles c) /\
        user_id p' = user_id p /\
        learned_contributions p' =
          learned_contributions p
          + (if bool_decide (field = u "learned_contributions") then 1 else 0)
  | None => user_profiles (knowledge c') = user_profiles (knowledge c)
  end.
Proof.
intros Hst. unfold update_user_stats, stat in *.
rewrite bind_run. cbn [gets]. fold (profiles c).
destruct (profiles c !! str_of_int uid) as [p|] eqn:Hp.
- destruct (statistics (knowledge c) !! field) as [[n|s]|] eqn:Hn;
    [| by destruct (Hst s) |].
  + eexists. split; [mrun; rewrite Hn; reflexivity|].
    split; [split; [by destruct c as [[]] | by destruct c as [[]]]|].
    split; [by destruct c as [[]]|].
    eexists. split; [by destruct c as [[]]|].
    repeat case_bool_decide; subst; simpl; try lia; split; try done.
    all: exfalso; by match goal with H : u _ = u _ |- _ => vm_compute in H end.
  + eexists. split; [mrun; rewrite Hn; reflexivity|].
    split; [split; [by destruct c as [[]] | by destruct c as [[]]]|].
    split; [by destruct c as [[]]|].
    eexists. split; [by destruct c as [[]]|].
    repeat case_bool_decide; subst; simpl; try lia; split; try done.
    all: exfalso; by match goal with H : u _ = u _ |- _ => vm_compute in H end.
- destruct (statistics (knowledge c) !! field) as [[n|s]|] eqn:Hn;
    [| by destruct (Hst s) |].
  + eexists. split; [mrun; rewrite Hn; reflexivity|].
    split; [split; [by destruct c as [[]] | by destruct c as [[]]]|].
    split; by destruct c as [[]].
  + eexists. split; [mrun; rewrite Hn; reflexivity|].
    split; [split; [by destruct c as [[]] | by destruct c as [[]]]|].
    split; by destruct c as [[]].
Qed.

Lemma incr_statistic_spec key n c :
stat c key = Some (PInt n) ->
incr_statistic key c
= (Ret tt,
   set_knowledge
     (set_statistics (<[key := PInt (n + 1)]> (statistics (knowledge c))) (knowledge c)) c).
Proof.
unfold stat, incr_statistic. intros Hn.
rewrite bind_run. cbn [gets]. unfold getitem. rewrite Hn. reflexivity.
Qed.

Lemma learn_from_interaction_spec question answer uid c :
exists c',
  _learn_from_interaction question answer uid c = (Ret tt, c') /\
  same_object c c' /\
  facts (knowledge c') = facts (knowledge c) /\
  statistics (knowledge c') = statistics (knowledge c) /\
  qna (knowledge c') = qna (knowledge c) /\
  user_profiles (knowledge c') = user_profiles (knowledge c) /\
  learned_facts (knowledge c') = learned_facts (knowledge c).
Proof.
unfold _learn_from_interaction. case_bool_decide.
- eexists. split; [reflexivity|]. by destruct c as [[]].
- eexists. split; [reflexivity|]. by destruct c as [[]].
Qed.

Lemma choice_spec {A} (rnd : nat) (l : list A) (c : NixAICore) :
l <> [] -> exists x, choice rnd l c = (Ret x, c) /\ x ∈ l.
Proof.
intros Hl. unfold choice.
assert (rnd mod length l < length l)%nat as Hlt.
{ apply Nat.mod_upper_bound. destruct l; [done | simpl; lia]. }
apply lookup_lt_is_Some in Hlt as [x Hx]. rewrite Hx.
exists x. split; [done|]. by eapply list_elem_of_lookup_2.
Qed.

Lemma recall_from_qna_spec items m :
recall_from_qna items m = recall_nothing \/
exists question, (question, recall_from_qna items m) ∈ items.
Proof.
induction items as [|[q a] items IH]; simpl; [by left|].
destruct (str_in q m).
- right. exists q. apply list_elem_of_here.
- destruct IH as [->|[q' Hq']]; [by left|].
  right. exists q'. by apply list_elem_of_further.
Qed.

Lemma handler_frame_refl c : handler_frame c c.
Proof. split; [apply same_object_refl | done]. Qed.

Lemma call_handler_spec h now rnd message p c :
well_formed (knowledge c) ->
exists text c',
  call_handler h now rnd message (Some p) c = (Ret text, c') /\
  declared_variant (knowledge c) now h text /\
  handler_frame c c'.
Proof.
intros ((Htexts & [tm Htm] & [lq Hlq] & [cr Hcr])
        & ([name Hname] & [version Hversion] & [goal Hgoal] & [creator Hcreator])
        & [items Hitems]).
destruct h; simpl.
- (* greet *)
  destruct (first_name p) as [[|ch name']|].
  + destruct (choice_spec rnd greetings c) as (x & Hx & Hin); [done|].
    exists x, c. split; [done|]. split; [by constructor | apply handler_frame_refl].
  + destruct (choice_spec rnd (name_options (ch :: name')) c) as (x & Hx & Hin); [done|].
    exists x, c. split; [done|].
    split; [by eapply dv_greet_name | apply handler_frame_refl].
  + destruct (choice_spec rnd greetings c) as (x & Hx & Hin); [done|].
    exists x, c. split; [done|]. split; [by constructor | apply handler_frame_refl].
- (* goodbye *)
  destruct (choice_spec rnd farewells c) as (x & Hx & Hin); [done|].
  unfold _goodbye. destruct p as [? ? [[|ch name']|] ? ? ? ? ? ?].
  + exists x, c. split; [done|]. split; [by constructor | apply handler_frame_refl].
  + exists (named_farewell (ch :: name') x), c.
    split; [by rewrite (bind_returns _ _ _ _ _ Hx)|].
    split; [by constructor | apply handler_frame_refl].
  + exists x, c. split; [done|]. split; [by constructor | apply handler_frame_refl].
- destruct (choice_spec rnd how_are_you_responses c) as (x & Hx & Hin); [done|].
  exists x, c. split; [done|]. split; [by constructor | apply handler_frame_refl].
- destruct (choice_spec rnd thank_you_responses c) as (x & Hx & Hin); [done|].
  exists x, c. split; [done|]. split; [by constructor | apply handler_frame_refl].
- (* about_me *)
  exists (about_me_text name version goal), c.
  split; [unfold _about_me; mrun; by rewrite Hname, Hversion, Hgoal|].
  split; [by constructor | apply handler_frame_refl].
- exists creator, c.
  split; [unfold _about_creator; mrun; by rewrite Hcreator|].
  split; [by constructor | apply handler_frame_refl].
- eexists _, c. split; [reflexivity|]. split; [constructor | apply handler_frame_refl].
- eexists _, c. split; [reflexivity|]. split; [constructor | apply handler_frame_refl].
- eexists _, c. split; [reflexivity|]. split; [constructor | apply handler_frame_refl].
- (* remember_info *)
  unfold _remember_info.
  destruct (re_search_group _ _) as [group1|].
  + eexists _, _. split; [reflexivity|]. split; [constructor|].
    by destruct c as [[]].
  + eexists _, c. split; [reflexivity|]. split; [constructor | apply handler_frame_refl].
- (* recall_info *)
  unfold _recall_info. rewrite bind_run. cbn [gets].
  destruct (learned_facts (knowledge c)) as [[|[key f] rest]|] eqn:Hlf.
  + rewrite Hitems. eexists _, c. split; [reflexivity|].
    split; [|apply handler_frame_refl].
    destruct (recall_from_qna_spec items (lower message)) as [->|[q Hq]].
    * constructor.
    * eapply dv_recall_answer. rewrite Hitems. exact Hq.
  + destruct (choice_spec rnd (snd <$> ((key, f) :: rest)) c) as (x & Hx & Hin); [done|].
    exists (recall_text (fact x)), c.
    split; [by rewrite (bind_returns _ _ _ _ _ Hx)|].
    split; [|apply handler_frame_refl].
    apply list_elem_of_fmap in Hin as ([key' f'] & -> & Hin).
    by eapply dv_recall_fact.
  + rewrite Hitems. eexists _, c. split; [reflexivity|].
    split; [|apply handler_frame_refl].
    destruct (recall_from_qna_spec items (lower message)) as [->|[q Hq]].
    * constructor.
    * eapply dv_recall_answer. rewrite Hitems. exact Hq.
- eexists _, c. split; [reflexivity|]. split; [constructor | apply handler_frame_refl].
- (* how_i_learn *)
  eexists _, c.
  split; [unfold _how_i_learn; mrun; rewrite Hlq, Hcr, Htm; reflexivity|].
  split; [constructor | apply handler_frame_refl].
- eexists _, c. split; [reflexivity|]. split; [constructor | apply handler_frame_refl].
- (* stats_handler *)
  eexists _, c.
  split; [unfold _stats_handler; mrun; rewrite Htm, Hlq; reflexivity|].
  split; [constructor | apply handler_frame_refl].
- eexists _, c. split; [reflexivity|]. split; [constructor | apply handler_frame_refl].
- eexists _, c. split; [reflexivity|]. split; [constructor | apply handler_frame_refl].
- (* joke_handler *)
  destruct (choice_spec rnd jokes c) as (x & Hx & Hin); [done|].
  exists (joke_text x), c.
  split; [unfold _joke_handler; by rewrite (bind_returns _ _ _ _ _ Hx)|].
  split; [by constructor | apply handler_frame_refl].
Qed.

Lemma counters_ok_no_text st key :
counters_ok st -> key <> u "first_start" -> forall s, st !! key <> Some (PStr s).
Proof. intros (Htexts & _) Hkey s Hs. by apply Hkey, (Htexts key s). Qed.

Lemma counters_ok_counter st key :
counters_ok st -> key <> u "first_start" -> is_Some (st !! key) ->
exists n, st !! key = Some (PInt n).
Proof.
intros Hok Hkey [[n|s] Hv]; [by exists n|].
by destruct (counters_ok_no_text st key Hok Hkey s).
Qed.

Lemma counters_ok_insert st key n :
counters_ok st -> counters_ok (<[key := PInt n]> st).
Proof.
intros (Htexts & Htm & Hlq & Hcr).
split; [|by rewrite !lookup_insert_is_Some'; auto].
intros key' s. rewrite lookup_insert. case_decide; [done|]. apply Htexts.
Qed.

Lemma prologue_spec now uid un fn ln c :
counters_ok (statistics (knowledge c)) ->
exists p c1 c2,
  get_or_create_user_profile now uid un fn ln c = (Ret p, c1) /\
  update_user_stats now uid (u "total_messages") c1 = (Ret tt, c2) /\
  same_store c c2 /\
  counters_ok (statistics (knowledge c2)) /\
  (forall key, key <> u "total_users" -> key <> u "total_messages" ->
     stat c2 key = stat c key) /\
  is_Some (profiles c2 !! str_of_int uid) /\
  contributions c2 uid = contributions c uid.
Proof.
intros Hok.
destruct (get_or_create_spec now uid un fn ln c) as (p & c1 & Hrun1 & Hstore1 & Hprof1 & Hcase).
{ apply counters_ok_no_text; [done | key_ne]. }
assert (counters_ok (statistics (knowledge c1)) /\
        (forall key, key <> u "total_users" -> stat c1 key = stat c key) /\
        exists q, profiles c1 !! str_of_int uid = Some q /\
                  learned_contributions q = contributions c uid)
  as (Hok1 & Hstat1 & q & Hq & Hlc).
{ unfold contributions. rewrite Hprof1.
  destruct (profiles c !! str_of_int uid) as [p0|] eqn:Hp0.
  - destruct Hcase as (Hid & Hlc & Hst). unfold stat. rewrite Hst.
    split; [done|]. split; [done|].
    destruct (decide (str_of_int (user_id p) = str_of_int uid)) as [Heq|Hne].
    + exists p. by rewrite Heq, lookup_insert_eq.
    + exists p0. by rewrite lookup_insert_ne.
  - destruct Hcase as (Hid & _ & Hlc & n & _ & Hst). unfold stat. rewrite Hst.
    split; [by apply counters_ok_insert|].
    split; [intros key Hkey; by rewrite lookup_insert_ne|].
    exists p. by rewrite Hid, lookup_insert_eq. }
destruct (update_user_stats_spec now uid (u "total_messages") c1)
  as (c2 & Hrun2 & Hstore2 & Hst2 & Hprof2).
{ apply counters_ok_no_text; [done | key_ne]. }
rewrite Hq in Hprof2. destruct Hprof2 as (q' & Hprof2 & _ & Hlc').
rewrite bool_decide_eq_false_2 in Hlc' by key_ne.
exists p, c1, c2. split; [done|]. split; [done|].
split; [by eapply same_store_trans|].
assert (forall key, key <> u "total_messages" -> stat c2 key = stat c1 key) as Hstat2.
{ intros key Hkey. unfold stat at 1. rewrite Hst2.
  destruct (stat c1 (u "total_messages")) as [[n|s]|]; try done.
  by rewrite lookup_insert_ne. }
split.
{ rewrite Hst2. destruct (stat c1 (u "total_messages")) as [[n|s]|]; try done.
  by apply counters_ok_insert. }
split; [intros key H1 H2; by rewrite Hstat2, Hstat1|].
unfold contributions at 1. rewrite Hprof2, lookup_insert_eq.
split; [done | lia].
Qed.

Lemma correction_question_lookup data question :
data !! u "question" = Some question -> question <> [] ->
correction_question true (Some data) = Some question.
Proof.
intros Hq Hne. unfold correction_question.
rewrite bool_decide_eq_false_2.
- rewrite Hq. by destruct question.
- intros ->. by rewrite lookup_empty in Hq.
Qed.
End StoreProperties.

Section CorrectionProperties.
Context {RT : PyRuntime} {WS : WeatherService}.

(** C1 (amended). For every non-empty pending question Q and every
    reply A, on a knowledge document whose statistics hold their
    counters, a turn flagged as a correction with pending question Q
    stores qna[Q.lower()] = A verbatim, raises the acting user's
    learned_contributions by exactly 1 and the global counters
    learned_qna and corrections_received by exactly 1 each, and
    returns the confirmation with needs_followup = false; nothing
    else is matched on that turn: the interaction statistics, the
    weather cache and the provider log are as before. *)
Theorem C1_correction_learned now rnd uid (Q A : list N) un fn ln data c :
  Q <> [] ->
  data !! u "question" = Some Q ->
  counters_ok (statistics (knowledge c)) ->
  exists c',
    process_message now rnd uid A un fn ln true (Some data) c
    = (Ret {| response := correction_confirmation Q A; needs_followup := false;
              action := None; correction_data := None |}, c') /\
    dict_get (lower Q) (stored_qna c') = Some A /\
    contributions c' uid = contributions c uid + 1 /\
    (exists n, stat c (u "learned_qna") = Some (PInt n) /\
               stat c' (u "learned_qna") = Some (PInt (n + 1))) /\
    (exists n, stat c (u "corrections_received") = Some (PInt n) /\
               stat c' (u "corrections_received") = Some (PInt (n + 1))) /\
    interaction_stats (knowledge c') = interaction_stats (knowledge c) /\
    weather_cache c' = weather_cache c /\
    http_requests c' = http_requests c.
Proof.
  intros HQ Hdata Hok.
  destruct (prologue_spec now uid un fn ln c Hok)
    as (p & c1 & c2 & Hrun1 & Hrun2 & Hstore2 & Hok2 & Hstat2 & [q Hq] & Hlc2).
  unfold process_message.
  rewrite (bind_returns _ _ _ _ _ Hrun1), (bind_returns _ _ _ _ _ Hrun2).
  rewrite (correction_question_lookup data Q Hdata HQ).
  set (c3 := set_knowledge
               (set_qna (Some (dict_set (lower Q) A (default [] (qna (knowledge c2)))))
                  (knowledge c2)) c2).
  rewrite (bind_returns _ _ c2 c3 tt) by reflexivity.
  destruct (update_user_stats_spec now uid (u "learned_contributions") c3)
    as (c4 & Hrun4 & Hstore4 & Hst4 & Hprof4).
  { apply counters_ok_no_text; [by destruct c2 as [[]] | key_ne]. }
  rewrite (bind_returns _ _ _ _ _ Hrun4).
  assert (profiles c3 = profiles c2) as Hp3 by (by destruct c2 as [[]]).
  rewrite Hp3, Hq in Hprof4. destruct Hprof4 as (q' & Hprof4 & _ & Hlc4).
  rewrite bool_decide_eq_true_2 in Hlc4 by done.
  assert (forall key, key <> u "learned_contributions" ->
                      key <> u "total_users" -> key <> u "total_messages" ->
                      stat c4 key = stat c key) as Hstat4.
  { intros key H1 H2 H3. rewrite <- Hstat2 by done.
    unfold stat at 1. rewrite Hst4.
    replace (stat c3 (u "learned_contributions"))
      with (stat c2 (u "learned_contributions")) by (by destruct c2 as [[]]).
    replace (statistics (knowledge c3)) with (statistics (knowledge c2))
      by (by destruct c2 as [[]]).
    destruct (stat c2 (u "learned_contributions")) as [[n|s]|]; try done.
    by rewrite lookup_insert_ne. }
  destruct Hok as (Htexts & Htm & Hlq & Hcr).
  destruct (counters_ok_counter _ (u "learned_qna") (conj Htexts (conj Htm (conj Hlq Hcr))))
    as [n Hn]; [key_ne | done |].
  destruct (counters_ok_counter _ (u "corrections_received")
              (conj Htexts (conj Htm (conj Hlq Hcr))))
    as [m Hm]; [key_ne | done |].
  erewrite bind_returns; cycle 1.
  { apply incr_statistic_spec. rewrite Hstat4; [exact Hn | key_ne | key_ne | key_ne]. }
  erewrite bind_returns; cycle 1.
  { apply incr_statistic_spec. unfold stat.
    cbn [knowledge set_knowledge statistics set_statistics].
    rewrite lookup_insert_ne by key_ne.
    fold (stat c4 (u "corrections_received")).
    rewrite Hstat4; [exact Hm | key_ne | key_ne | key_ne]. }
  eexists. split; [reflexivity|].
  destruct Hstore2 as (Hobj2 & _ & Hqna2 & _ & Hint2).
  destruct Hstore4 as (Hobj4 & _ & Hqna4 & _ & Hint4).
  apply same_object_fields in Hobj2 as (_ & _ & _ & Hwc2 & _ & Hhr2).
  apply same_object_fields in Hobj4 as (_ & _ & _ & Hwc4 & _ & Hhr4).
  unfold stored_qna, contributions, profiles, stat.
  cbn [knowledge set_knowledge statistics set_statistics qna user_profiles
       interaction_stats weather_cache http_requests].
  split; [rewrite Hqna4; subst c3; cbn; apply dict_get_set_eq|].
  split.
  { fold (profiles c4). rewrite Hprof4, lookup_insert_eq.
    rewrite Hlc4. unfold contributions in Hlc2. fold (profiles c2) in Hlc2.
    rewrite Hq in Hlc2. fold (profiles c). lia. }
  split; [exists n; split; [done|]; by rewrite lookup_insert_ne, lookup_insert_eq by key_ne|].
  split; [exists m; split; [done|]; by rewrite lookup_insert_eq|].
  split; [rewrite Hint4; subst c3; cbn; by rewrite Hint2|].
  split; [rewrite Hwc4; subst c3; cbn; by rewrite Hwc2|].
  rewrite Hhr4; subst c3; cbn; by rewrite Hhr2.
Qed.
End CorrectionProperties.

Section DispatchProperties.
Context {RT : PyRuntime} {WS : WeatherService}.

Lemma handler_frame_well_formed c c' :
  handler_frame c c' -> well_formed (knowledge c) -> well_formed (knowledge c').
Proof.
  intros (_ & Hf & Hs & Hq & _) (Hok & Hfacts & Hqna).
  unfold well_formed. by rewrite Hf, Hs, Hq.
Qed.

(** The loop over the rule table stops at the first pattern found in
    the lower-cased utterance and answers with its handler. *)
Lemma dispatch_rules_first now rnd uid msg p before pattern h after c :
  well_formed (knowledge c) ->
  (forall ph, ph ∈ before -> re_search ph.1 (lower msg) = false) ->
  re_search pattern (lower msg) = true ->
  exists text c',
    dispatch_rules now rnd uid msg p (before ++ (pattern, h) :: after) c
    = (Ret (Some (plain_outcome text)), c') /\
    declared_variant (knowledge c) now h text /\
    same_object c c'.
Proof.
  intros Hwf Hbefore Hhit. induction before as [|[pat0 h0] before IH]; simpl.
  - rewrite Hhit.
    destruct (call_handler_spec h now rnd msg p c Hwf) as (text & c1 & Hrun & Hdv & Hframe).
    rewrite (bind_returns _ _ _ _ _ Hrun).
    destruct (learn_from_interaction_spec msg text uid c1) as (c2 & Hrun2 & Hobj2 & _).
    rewrite (bind_returns _ _ _ _ _ Hrun2).
    exists text, c2. split; [done|]. split; [done|].
    destruct Hframe as (Hobj1 & _). by eapply same_object_trans.
  - pose proof (Hbefore (pat0, h0) (list_elem_of_here _ _)) as Hmiss.
    simpl in Hmiss. rewrite Hmiss.
    apply IH. intros ph Hph. apply Hbefore. by apply list_elem_of_further.
Qed.

Lemma dispatch_rules_none now rnd uid msg p rs c :
  (forall ph, ph ∈ rs -> re_search ph.1 (lower msg) = false) ->
  dispatch_rules now rnd uid msg p rs c = (Ret None, c).
Proof.
  induction rs as [|[pat0 h0] rs IH]; intros Hmiss; simpl; [done|].
  pose proof (Hmiss (pat0, h0) (list_elem_of_here _ _)) as Hm.
  simpl in Hm. rewrite Hm.
  apply IH. intros ph Hph. apply Hmiss. by apply list_elem_of_further.
Qed.

(** Whatever the rule loop returns has no follow-up. *)
Lemma dispatch_rules_outcome now rnd uid msg p rs c o c' :
  dispatch_rules now rnd uid msg p rs c = (Ret (Some o), c') ->
  exists text, o = plain_outcome text.
Proof.
  induction rs as [|[pat0 h0] rs IH]; simpl; [done|].
  destruct (re_search pat0 (lower msg)); [|done].
  rewrite bind_run.
  destruct (call_handler h0 now rnd msg (Some p) c) as [[text|e] c1]; [|done].
  rewrite bind_run.
  destruct (_learn_from_interaction msg text uid c1) as [[[]|e] c2]; [|done].
  intros [= <- <-]. by exists text.
Qed.

(** The turn of an utterance that matches a rule: the first rule
    answers, and only the knowledge document is written. *)
Lemma rule_turn_spec now rnd uid msg un fn ln flag data c
    before pattern h after :
  well_formed (knowledge c) ->
  correction_question flag data = None ->
  rules c = before ++ (pattern, h) :: after ->
  (forall ph, ph ∈ before -> re_search ph.1 (lower msg) = false) ->
  re_search pattern (lower msg) = true ->
  exists text c',
    process_message now rnd uid msg un fn ln flag data c
    = (Ret (plain_outcome text), c') /\
    declared_variant (knowledge c) now h text /\
    same_object c c'.
Proof.
  intros (Hok & Hfacts & Hqna) Hnocorr Hrules Hbefore Hhit.
  destruct (prologue_spec now uid un fn ln c Hok)
    as (p & c1 & c2 & Hrun1 & Hrun2 & Hstore2 & Hok2 & _).
  unfold process_message.
  rewrite (bind_returns _ _ _ _ _ Hrun1), (bind_returns _ _ _ _ _ Hrun2).
  rewrite Hnocorr. rewrite bind_run. cbn [gets].
  destruct Hstore2 as (Hobj2 & Hf2 & Hq2 & Hl2 & Hi2).
  pose proof (same_object_fields _ _ Hobj2) as (_ & Hr2 & _).
  rewrite Hr2, Hrules.
  destruct (dispatch_rules_first now rnd uid msg p before pattern h after c2)
    as (text & c3 & Hrun3 & Hdv & Hobj3); [|done|done|].
  { unfold well_formed. by rewrite Hf2, Hq2. }
  rewrite (bind_returns _ _ _ _ _ Hrun3).
  exists text, c3. split; [done|].
  split; [|by eapply same_object_trans].
  assert (forall k k' : Knowledge,
            facts k' = facts k -> qna k' = qna k -> learned_facts k' = learned_facts k ->
            declared_variant k' now h text -> declared_variant k now h text) as Htransfer.
  { intros k k' Ef Eq El Hv. destruct Hv; rewrite ?Ef, ?Eq, ?El in *;
      econstructor; by eauto. }
  by eapply (Htransfer _ (knowledge c2)).
Qed.

(** The loop over the rule table runs the handler of the first
    pattern found. *)
Lemma dispatch_rules_hit now rnd uid msg p before pattern h after c :
  (forall ph, ph ∈ before -> re_search ph.1 (lower msg) = false) ->
  re_search pattern (lower msg) = true ->
  dispatch_rules now rnd uid msg p (before ++ (pattern, h) :: after) c
  = (call_handler h now rnd msg (Some p) ≫= fun response' =>
     _learn_from_interaction msg response' uid ≫= fun _ =>
     mret (Some (plain_outcome response'))) c.
Proof.
  intros Hbefore Hhit. induction before as [|[pat0 h0] before IH]; simpl.
  - by rewrite Hhit.
  - pose proof (Hbefore (pat0, h0) (list_elem_of_here _ _)) as Hmiss.
    simpl in Hmiss. rewrite Hmiss.
    apply IH. intros ph Hph. apply Hbefore. by apply list_elem_of_further.
Qed.

(** The loop of [_recall_info] answers with the first stored question
    that occurs in the message. *)
Lemma recall_from_qna_first before question answer after m :
  (forall qa, qa ∈ before -> ~ occurs_in qa.1 m) ->
  occurs_in question m ->
  recall_from_qna (before ++ (question, answer) :: after) m = answer.
Proof.
  intros Hbefore Hhit. induction before as [|[q a] before IH]; simpl.
  - by rewrite (proj2 (str_in_spec question m) Hhit).
  - destruct (str_in q m) eqn:Hq.
    + destruct (Hbefore (q, a) (list_elem_of_here _ _)). by apply str_in_spec.
    + apply IH. intros qa Hqa. apply Hbefore. by apply list_elem_of_further.
Qed.

Lemma recall_from_qna_cases items m :
  (exists before question answer after,
     items = before ++ (question, answer) :: after /\
     (forall qa, qa ∈ before -> ~ occurs_in qa.1 m) /\
     occurs_in question m /\ recall_from_qna items m = answer) \/
  ((forall qa, qa ∈ items -> ~ occurs_in qa.1 m) /\ recall_from_qna items m = recall_nothing).
Proof.
  induction items as [|[q a] items IH]; simpl.
  - right. split; [|done]. intros qa Hqa. by apply elem_of_nil in Hqa.
  - destruct (str_in q m) eqn:Hq.
    + left. exists [], q, a, items. split; [done|].
      split; [intros qa Hqa; by apply elem_of_nil in Hqa|].
      split; [by apply str_in_spec | done].
    + assert (~ occurs_in q m) as Hmiss.
      { intros Hin%str_in_spec. by rewrite Hq in Hin. }
      destruct IH as [(before & question & answer & after & -> & Hbefore & Hhit & Heq)
                     |[Hnone Heq]].
      * left. exists ((q, a) :: before), question, answer, after.
        split; [done|]. split; [|by split].
        intros qa [->|Hqa]%elem_of_cons; [done | by apply Hbefore].
      * right. split; [|done].
        intros qa [->|Hqa]%elem_of_cons; [done | by apply Hnone].
Qed.

(** On a well-formed document every handler returns, with the
    response described by [handler_response]. *)
Lemma call_handler_exact h now rnd message p c :
  well_formed (knowledge c) ->
  exists text c',
    call_handler h now rnd message (Some p) c = (Ret text, c') /\
    handler_response c now p message h text /\
    handler_frame c c'.
Proof.
  intros ((Htexts & [tm Htm] & [lq Hlq] & [cr Hcr])
          & ([name Hname] & [version Hversion] & [goal Hgoal] & [creator Hcreator])
          & [items Hitems]).
  destruct h; simpl.
  - (* greet *)
    destruct (first_name p) as [[|ch name']|] eqn:Hfn.
    + destruct (choice_spec rnd greetings c) as (x & Hx & Hin); [done|].
      exists x, c. split; [done|].
      split; [apply hr_greet; auto | apply handler_frame_refl].
    + destruct (choice_spec rnd (name_options (ch :: name')) c) as (x & Hx & Hin); [done|].
      exists x, c. split; [done|].
      split; [by eapply hr_greet_name | apply handler_frame_refl].
    + destruct (choice_spec rnd greetings c) as (x & Hx & Hin); [done|].
      exists x, c. split; [done|].
      split; [apply hr_greet; auto | apply handler_frame_refl].
  - (* goodbye *)
    destruct (choice_spec rnd farewells c) as (x & Hx & Hin); [done|].
    unfold _goodbye. destruct p as [? ? [[|ch name']|] ? ? ? ? ? ?].
    + exists x, c. split; [done|].
      split; [apply hr_goodbye; auto | apply handler_frame_refl].
    + exists (named_farewell (ch :: name') x), c.
      split; [by rewrite (bind_returns _ _ _ _ _ Hx)|].
      split; [by eapply hr_goodbye_name | apply handler_frame_refl].
    + exists x, c. split; [done|].
      split; [apply hr_goodbye; auto | apply handler_frame_refl].
  - destruct (choice_spec rnd how_are_you_responses c) as (x & Hx & Hin); [done|].
    exists x, c. split; [done|]. split; [by constructor | apply handler_frame_refl].
  - destruct (choice_spec rnd thank_you_responses c) as (x & Hx & Hin); [done|].
    exists x, c. split; [done|]. split; [by constructor | apply handler_frame_refl].
  - (* about_me *)
    exists (about_me_text name version goal), c.
    split; [unfold _about_me; mrun; by rewrite Hname, Hversion, Hgoal|].
    split; [by constructor | apply handler_frame_refl].
  - exists creator, c.
    split; [unfold _about_creator; mrun; by rewrite Hcreator|].
    split; [by constructor | apply handler_frame_refl].
  - eexists _, c. split; [reflexivity|]. split; [constructor | apply handler_frame_refl].
  - eexists _, c. split; [reflexivity|]. split; [constructor | apply handler_frame_refl].
  - eexists _, c. split; [reflexivity|]. split; [constructor | apply handler_frame_refl].
  - (* remember_info *)
    unfold _remember_info.
    destruct (re_search_group _ _) as [group1|] eqn:Hgroup.
    + eexists _, _. split; [reflexivity|]. split; [by constructor|].
      by destruct c as [[]].
    + eexists _, c. split; [reflexivity|].
      split; [by constructor | apply handler_frame_refl].
  - (* recall_info *)
    unfold _recall_info. rewrite bind_run. cbn [gets].
    assert (learned_facts (knowledge c) = None \/ learned_facts (knowledge c) = Some [] ->
            exists text,
              (Ret (recall_from_qna items (lower message)), c) = (Ret text, c) /\
              handler_response c now p message recall_info text) as Hqna.
    { intros Hnone. eexists. split; [reflexivity|].
      destruct (recall_from_qna_cases items (lower message))
        as [(before & question & answer & after & Hsplit & Hbefore & Hhit & ->)
           |[Hmiss ->]].
      - eapply hr_recall_answer; try done. by rewrite Hitems.
      - apply hr_recall_nothing; [done|]. by rewrite Hitems. }
    destruct (learned_facts (knowledge c)) as [[|[key f] rest]|] eqn:Hlf.
    + rewrite Hitems. destruct Hqna as (text & Heq & Hresp); [by right|].
      exists text, c. split; [done|]. split; [done | apply handler_frame_refl].
    + destruct (choice_spec rnd (snd <$> ((key, f) :: rest)) c) as (x & Hx & Hin); [done|].
      exists (recall_text (fact x)), c.
      split; [by rewrite (bind_returns _ _ _ _ _ Hx)|].
      split; [|apply handler_frame_refl].
      apply list_elem_of_fmap in Hin as ([key' f'] & -> & Hin).
      by eapply hr_recall_fact.
    + rewrite Hitems. destruct Hqna as (text & Heq & Hresp); [by left|].
      exists text, c. split; [done|]. split; [done | apply handler_frame_refl].
  - eexists _, c. split; [reflexivity|]. split; [constructor | apply handler_frame_refl].
  - (* how_i_learn *)
    eexists _, c.
    split; [unfold _how_i_learn; mrun; rewrite Hlq, Hcr, Htm; reflexivity|].
    split; [by constructor | apply handler_frame_refl].
  - eexists _, c. split; [reflexivity|]. split; [constructor | apply handler_frame_refl].
  - (* stats_handler *)
    eexists _, c.
    split; [unfold _stats_handler; mrun; rewrite Htm, Hlq; reflexivity|].
    split; [by constructor | apply handler_frame_refl].
  - eexists _, c. split; [reflexivity|]. split; [constructor | apply handler_frame_refl].
  - eexists _, c. split; [reflexivity|]. split; [constructor | apply handler_frame_refl].
  - (* joke_handler *)
    destruct (choice_spec rnd jokes c) as (x & Hx & Hin); [done|].
    exists (joke_text x), c.
    split; [unfold _joke_handler; by rewrite (bind_returns _ _ _ _ _ Hx)|].
    split; [by constructor | apply handler_frame_refl].
Qed.

(** C6. The rule table is scanned in registration order and the first
    pattern found in the lower-cased utterance wins, whatever matches
    after it; on a well-formed knowledge document, a turn that is not
    a correction and whose utterance matches a rule returns, with
    needs_followup = false, a response of the handler of that first
    rule: what [handler_response] lists for it, given the profile
    that [get_or_create_user_profile] returned, the message, and the
    object as it is once the message has been counted. *)
Theorem C6_first_rule_wins now rnd uid msg un fn ln flag data c
    before pattern h after :
  well_formed (knowledge c) ->
  correction_question flag data = None ->
  rules c = before ++ (pattern, h) :: after ->
  (forall ph, ph ∈ before -> re_search ph.1 (lower msg) = false) ->
  re_search pattern (lower msg) = true ->
  exists p c1 c2 text c',
    get_or_create_user_profile now uid un fn ln c = (Ret p, c1) /\
    update_user_stats now uid (u "total_messages") c1 = (Ret tt, c2) /\
    handler_response c2 now p msg h text /\
    process_message now rnd uid msg un fn ln flag data c
    = (Ret {| response := text; needs_followup := false; action := None;
              correction_data := None |}, c').
Proof.
  intros (Hok & Hfacts & Hqna) Hnocorr Hrules Hbefore Hhit.
  destruct (prologue_spec now uid un fn ln c Hok)
    as (p & c1 & c2 & Hrun1 & Hrun2 & Hstore2 & Hok2 & _).
  destruct Hstore2 as (Hobj2 & Hf2 & Hq2 & Hl2 & Hi2).
  pose proof (same_object_fields _ _ Hobj2) as (_ & Hr2 & _).
  destruct (call_handler_exact h now rnd msg p c2) as (text & c3 & Hcall & Hresp & _).
  { unfold well_formed. by rewrite Hf2, Hq2. }
  destruct (learn_from_interaction_spec msg text uid c3) as (c4 & Hlearn & _).
  exists p, c1, c2, text, c4. split; [done|]. split; [done|]. split; [done|].
  unfold process_message.
  rewrite (bind_returns _ _ _ _ _ Hrun1), (bind_returns _ _ _ _ _ Hrun2).
  rewrite Hnocorr. rewrite bind_run. cbn [gets]. rewrite Hr2, Hrules.
  assert (dispatch_rules now rnd uid msg p (before ++ (pattern, h) :: after) c2
          = (Ret (Some (plain_outcome text)), c4)) as Hdispatch.
  { rewrite dispatch_rules_hit by done.
    by rewrite (bind_returns _ _ _ _ _ Hcall), (bind_returns _ _ _ _ _ Hlearn). }
  by rewrite (bind_returns _ _ _ _ _ Hdispatch).
Qed.

(** An utterance found by some rule has a first rule that finds it. *)
Lemma first_match_split {A} (f : A -> bool) (l : list A) :
  existsb f l = true ->
  exists before x after,
    l = before ++ x :: after /\ (forall y, y ∈ before -> f y = false) /\ f x = true.
Proof.
  induction l as [|a l IH]; simpl; [done|].
  destruct (f a) eqn:Ha.
  - intros _. exists [], a, l. split; [done|]. split; [|done].
    intros y Hy. by apply elem_of_nil in Hy.
  - intros Hl. destruct (IH Hl) as (before & x & after & -> & Hbefore & Hx).
    exists (a :: before), x, after. split; [done|]. split; [|done].
    intros y [->|Hy]%elem_of_cons; [done | by apply Hbefore].
Qed.

(** The weather branch of [process_message] is never reached: an
    utterance with a weather word is found by the rule
    "погода|weather|прогноз", unless an earlier rule finds it first,
    and the turn ends in the rule loop without a follow-up and
    without a call to [get_weather]. *)
Lemma weather_words_dispatched now rnd uid msg un fn ln flag data c :
  well_formed (knowledge c) ->
  rules c = default_rules ->
  correction_question flag data = None ->
  existsb (fun word => str_in word (lower msg)) weather_words = true ->
  exists text c',
    process_message now rnd uid msg un fn ln flag data c
    = (Ret {| response := text; needs_followup := false; action := None;
              correction_data := None |}, c') /\
    http_requests c' = http_requests c /\
    weather_cache c' = weather_cache c.
Proof.
  intros Hwf Hrules Hnocorr Hweather.
  assert (existsb (fun ph : list N * handler => re_search ph.1 (lower msg)) default_rules
          = true) as Hsome.
  { apply existsb_exists. exists (u "погода|weather|прогноз", weather_handler).
    split; [|exact Hweather].
    unfold default_rules. do 13 right. by left. }
  apply first_match_split in Hsome as (before & [pattern h] & after & Hsplit & Hbefore & Hhit).
  destruct (rule_turn_spec now rnd uid msg un fn ln flag data c before pattern h after)
    as (text & c' & Hrun & _ & Hobj); try done.
  { by rewrite Hrules. }
  apply same_object_fields in Hobj as (_ & _ & _ & Hcache & _ & Hreq).
  by exists text, c'.
Qed.

(** C5. For an utterance that no earlier stage answers (no
    correction, no rule, no QnA answer, no weather word): when its
    confidence is below the configured threshold and auto-learning is
    on, the turn asks to be taught, with needs_followup = true,
    action "correction" and the utterance as pending question;
    otherwise it returns one of the fallback phrasings with
    needs_followup = false.  The threshold of a fresh object is
    0.3. *)
Theorem C5_teach_or_fallback now rnd uid msg un fn ln flag data c :
  counters_ok (statistics (knowledge c)) ->
  correction_question flag data = None ->
  (forall ph, ph ∈ rules c -> re_search ph.1 (lower msg) = false) ->
  (forall ch a, check_qna_match (stored_qna c) msg <> Some (ch :: a)) ->
  existsb (fun word => str_in word (lower msg)) weather_words = false ->
  let confidence := calculate_confidence (stored_qna c) msg in
  let modes := learning_modes c in
  ((confidence < confidence_threshold modes)%Qc /\ auto_correction modes = true ->
   exists c',
     process_message now rnd uid msg un fn ln flag data c
     = (Ret {| response := teach_me_prompt msg; needs_followup := true;
               action := Some (u "correction");
               correction_data := Some {[ u "question" := msg ]} |}, c')) /\
  (~ ((confidence < confidence_threshold modes)%Qc /\ auto_correction modes = true) ->
   exists text c',
     process_message now rnd uid msg un fn ln flag data c
     = (Ret {| response := text; needs_followup := false; action := None;
               correction_data := None |}, c') /\
     text ∈ fallback_responses msg) /\
  confidence_threshold default_learning_modes = Q2Qc (3 # 10).
Proof.
  intros Hok Hnocorr Hnorule Hnoqna Hnoweather confidence modes.
  destruct (prologue_spec now uid un fn ln c Hok)
    as (p & c1 & c2 & Hrun1 & Hrun2 & Hstore2 & Hok2 & _).
  destruct Hstore2 as (Hobj2 & Hf2 & Hq2 & Hl2 & Hi2).
  pose proof (same_object_fields _ _ Hobj2) as (_ & Hr2 & Hm2 & _).
  assert (process_message now rnd uid msg un fn ln flag data c
          = (if bool_decide (confidence < confidence_threshold modes)%Qc
                && auto_correction modes
             then mret {| response := teach_me_prompt msg; needs_followup := true;
                          action := Some (u "correction");
                          correction_data := Some {[ u "question" := msg ]} |}
             else _get_fallback_response rnd msg ≫= fun text => mret (plain_outcome text))
              c2) as Hrun.
  { unfold process_message.
    rewrite (bind_returns _ _ _ _ _ Hrun1), (bind_returns _ _ _ _ _ Hrun2).
    rewrite Hnocorr. rewrite bind_run. cbn [gets]. rewrite Hr2.
    rewrite (bind_returns _ _ _ _ _ (dispatch_rules_none now rnd uid msg p _ c2 Hnorule)).
    rewrite bind_run. unfold _check_qna_match at 1. rewrite bind_run. cbn [gets].
    change (default [] (qna (knowledge c2))) with (stored_qna c2).
    assert (stored_qna c2 = stored_qna c) as -> by (unfold stored_qna; by rewrite Hq2).
    cbn [mret M_ret].
    destruct (check_qna_match (stored_qna c) msg) as [[|ch a]|] eqn:Hq;
      [| by destruct (Hnoqna ch a) |].
    - rewrite Hnoweather. rewrite bind_run. unfold _calculate_confidence.
      rewrite bind_run. cbn [gets mret M_ret].
      change (default [] (qna (knowledge c2))) with (stored_qna c2).
      assert (stored_qna c2 = stored_qna c) as -> by (unfold stored_qna; by rewrite Hq2).
      rewrite bind_run. cbn [gets]. rewrite Hm2. reflexivity.
    - rewrite Hnoweather. rewrite bind_run. unfold _calculate_confidence.
      rewrite bind_run. cbn [gets mret M_ret].
      change (default [] (qna (knowledge c2))) with (stored_qna c2).
      assert (stored_qna c2 = stored_qna c) as -> by (unfold stored_qna; by rewrite Hq2).
      rewrite bind_run. cbn [gets]. rewrite Hm2. reflexivity. }
  rewrite Hrun. split; [|split; [|reflexivity]].
  - intros [Hlow Hauto]. rewrite bool_decide_eq_true_2, Hauto by done.
    by exists c2.
  - intros Hnot.
    assert (bool_decide (confidence < confidence_threshold modes)%Qc
            && auto_correction modes = false) as ->.
    { apply not_true_is_false. intros [Hlow Hauto]%andb_true_iff.
      apply Hnot. split; [by apply bool_decide_eq_true_1 in Hlow | done]. }
    destruct (choice_spec rnd (fallback_responses msg) c2) as (text & Hchoice & Hin); [done|].
    exists text, c2. split; [|done].
    unfold _get_fallback_response. by rewrite (bind_returns _ _ _ _ _ Hchoice).
Qed.
End DispatchProperties.

Section OutcomeProperties.
Context {RT : PyRuntime} {WS : WeatherService}.

(** The shape shared by all the dictionaries the turn returns. *)
Lemma plain_outcome_shape text msg :
  let o := plain_outcome text in
  (needs_followup o = true <-> action o <> None) /\
  (needs_followup o = true ->
   action o = Some (u "weather") \/ action o = Some (u "correction")) /\
  (action o = Some (u "correction") ->
   exists d, correction_data o = Some d /\ d !! u "question" = Some msg).
Proof. simpl. split; [split; [done | congruence] | split; done]. Qed.

(** C10. Whatever outcome a turn returns, needs_followup is true
    exactly when action is not None; the action is then "weather" or
    "correction"; and with action "correction" the outcome carries
    correction_data whose "question" is the utterance of the turn. *)
Theorem C10_followup_shape now rnd uid msg un fn ln flag data c outcome c' :
  process_message now rnd uid msg un fn ln flag data c = (Ret outcome, c') ->
  (needs_followup outcome = true <-> action outcome <> None) /\
  (needs_followup outcome = true ->
   action outcome = Some (u "weather") \/ action outcome = Some (u "correction")) /\
  (action outcome = Some (u "correction") ->
   exists d, correction_data outcome = Some d /\ d !! u "question" = Some msg).
Proof.
  unfold process_message. rewrite bind_run.
  destruct (get_or_create_user_profile now uid un fn ln c) as [[p|e] c1]; [|done].
  rewrite bind_run.
  destruct (update_user_stats now uid (u "total_messages") c1) as [[[]|e] c2]; [|done].
  destruct (correction_question flag data) as [question|].
  - rewrite bind_run. unfold modify_knowledge at 1. cbn [modify].
    rewrite bind_run.
    destruct (update_user_stats now uid (u "learned_contributions") _) as [[[]|e] c3];
      [|done].
    rewrite bind_run.
    destruct (incr_statistic (u "learned_qna") c3) as [[[]|e] c4]; [|done].
    rewrite bind_run.
    destruct (incr_statistic (u "corrections_received") c4) as [[[]|e] c5]; [|done].
    intros [= <- <-]. apply plain_outcome_shape.
  - rewrite bind_run. cbn [gets]. rewrite bind_run.
    destruct (dispatch_rules now rnd uid msg p (rules c2) c2) as [[[o|]|e] c3] eqn:Hrules;
      [| |done].
    { intros [= <- <-].
      apply dispatch_rules_outcome in Hrules as [text ->]. apply plain_outcome_shape. }
    rewrite bind_run. unfold _check_qna_match at 1. rewrite bind_run. cbn [gets mret M_ret].
    assert (forall c4,
      (if existsb (fun word => str_in word (lower msg)) weather_words
       then
         match re_search_group [Lit (u "погода"); Rep is_space 1] (lower msg) with
         | Some group1 =>
             get_weather now (strip group1) ≫= fun weather => mret (plain_outcome weather)
         | None =>
             mret {| response := weather_city_prompt; needs_followup := true;
                     action := Some (u "weather"); correction_data := None |}
         end
       else
         _calculate_confidence msg ≫= fun confidence =>
         gets learning_modes ≫= fun modes =>
         if bool_decide (confidence < confidence_threshold modes)%Qc
            && auto_correction modes
         then mret {| response := teach_me_prompt msg; needs_followup := true;
                      action := Some (u "correction");
                      correction_data := Some {[ u "question" := msg ]} |}
         else _get_fallback_response rnd msg ≫= fun text => mret (plain_outcome text)) c4
      = (Ret outcome, c') ->
      (needs_followup outcome = true <-> action outcome <> None) /\
      (needs_followup outcome = true ->
       action outcome = Some (u "weather") \/ action outcome = Some (u "correction")) /\
      (action outcome = Some (u "correction") ->
       exists d, correction_data outcome = Some d /\ d !! u "question" = Some msg))
      as Hrest.
    { intros c4. destruct (existsb _ weather_words).
      - destruct (re_search_group _ _) as [group1|].
        + rewrite bind_run.
          destruct (get_weather now (strip group1) c4) as [[weather|e] c5]; [|done].
          intros [= <- <-]. apply plain_outcome_shape.
        + intros [= <- <-]. simpl.
          split; [split; [done | congruence]|]. split; [by left | key_ne].
      - rewrite bind_run. unfold _calculate_confidence. rewrite bind_run.
        cbn [gets mret M_ret]. rewrite bind_run. cbn [gets].
        destruct (bool_decide _ && _).
        + intros [= <- <-]. simpl.
          split; [split; [done | congruence]|]. split; [by right|].
          intros _. eexists. split; [done|]. apply lookup_singleton_eq.
        + rewrite bind_run.
          destruct (_get_fallback_response rnd msg c4) as [[text|e] c5]; [|done].
          intros [= <- <-]. apply plain_outcome_shape. }
    destruct (check_qna_match (default [] (qna (knowledge c3))) msg) as [[|ch a]|].
    + apply Hrest.
    + rewrite bind_run.
      destruct (_learn_from_interaction msg (ch :: a) uid c3) as [[[]|e] c4]; [|done].
      intros [= <- <-]. apply plain_outcome_shape.
    + apply Hrest.
Qed.
End OutcomeProperties.

(** ** Relations that hold of every run *)

Section Ensures.
Context (R : NixAICore -> NixAICore -> Prop) `{!PreOrder R}.

Lemma ensures_ret {A} (a : A) : ensures R (mret a).
Proof. intros c. reflexivity. Qed.

Lemma ensures_gets {A} (f : NixAICore -> A) : ensures R (gets f).
Proof. intros c. reflexivity. Qed.

Lemma ensures_lift {A} (r : result A) : ensures R (lift r).
Proof. intros c. reflexivity. Qed.

Lemma ensures_raise {A} (e : exn) : ensures R (raise (A := A) e).
Proof. intros c. reflexivity. Qed.

Lemma ensures_getitem {V} (d : gmap (list N) V) key : ensures R (getitem d key).
Proof. intros c. unfold getitem. destruct (d !! key); reflexivity. Qed.

Lemma ensures_choice {A} rnd (l : list A) : ensures R (choice rnd l).
Proof. intros c. unfold choice. destruct (l !! _); reflexivity. Qed.

Lemma ensures_modify (f : NixAICore -> NixAICore) :
  (forall c, R c (f c)) -> ensures R (modify f).
Proof. intros Hf c. apply Hf. Qed.

Lemma ensures_bind {A B} (m : M A) (f : A -> M B) :
  ensures R m -> (forall a, ensures R (f a)) -> ensures R (m ≫= f).
Proof.
  intros Hm Hf c. rewrite bind_run. specialize (Hm c).
  destruct (m c) as [[a|e] c1]; simpl in *; [|done].
  etrans; [exact Hm | apply Hf].
Qed.

Lemma ensures_try_except {A} (body : M A) (handler : exn -> M A) :
  ensures R body -> (forall e, ensures R (handler e)) ->
  ensures R (try_except body handler).
Proof.
  intros Hm Hf c. unfold try_except. specialize (Hm c).
  destruct (body c) as [[a|e] c1]; simpl in *; [done|].
  etrans; [exact Hm | apply Hf].
Qed.
End Ensures.

Lemma ensures_weaken {A} (R R' : NixAICore -> NixAICore -> Prop) (m : M A) :
  (forall c c', R c c' -> R' c c') -> ensures R m -> ensures R' m.
Proof. intros HR Hm c. apply HR, Hm. Qed.

(** One step through the structure of a computation. *)
Ltac ensures_step :=
  first
    [ apply ensures_ret | apply ensures_gets | apply ensures_lift
    | apply ensures_raise | apply ensures_getitem | apply ensures_choice
    | apply ensures_bind; [..|intros ?]
    | match goal with
      | |- ensures _ (match ?x with _ => _ end) => destruct x
      | |- ensures _ (let _ := _ in _) => cbv zeta
      end ];
  try match goal with |- PreOrder _ => apply _ end.

Global Instance same_object_preorder : PreOrder same_object.
Proof. split; [exact same_object_refl | exact same_object_trans]. Qed.

Global Instance handler_frame_preorder : PreOrder handler_frame.
Proof.
  split; [exact handler_frame_refl|].
  intros c1 c2 c3 (Ho & Hf & Hs & Hq & Hu & Hi) (Ho' & Hf' & Hs' & Hq' & Hu' & Hi').
  split; [by eapply same_object_trans|]. by rewrite Hf', Hs', Hq', Hu', Hi'.
Qed.

Global Instance config_frame_preorder : PreOrder config_frame.
Proof.
  split; [done|].
  intros c1 c2 c3 (Hc & Hd & Hr & Hk) (Hc' & Hd' & Hr' & Hk').
  split; [by rewrite Hc'|]. split; [by rewrite Hd'|]. split; [by rewrite Hr'|].
  intros Hkey. rewrite Hk', Hk; [done..|]. by rewrite Hc.
Qed.

Global Instance keeps_preorder uid : PreOrder (keeps uid).
Proof.
  split.
  - intros c. split; [done|]. split; [reflexivity | done].
  - intros c1 c2 c3 (Hi & Hc & Hd) (Hi' & Hc' & Hd').
    split; [auto|]. split; [by etrans|].
    intros H1 Hu. rewrite Hd', Hd; auto.
    apply elem_of_dom. rewrite Hd by done. by apply elem_of_dom.
Qed.

Section EveryRun.
Context {RT : PyRuntime} {WS : WeatherService}.

Lemma call_handler_ensures h now rnd message p :
  ensures handler_frame (call_handler h now rnd message p).
Proof.
  destruct h; simpl;
    unfold _greet, _goodbye, _how_are_you, _thank_you, _about_me, _about_creator,
           _help, _time, _date, _remember_info, _recall_info, _clear_memory,
           _how_i_learn, _weather_handler, _stats_handler, _currency_handler,
           _news_handler, _joke_handler, _save_knowledge, modify_knowledge;
    repeat ensures_step.
  apply ensures_modify. intros c. by destruct c as [[]].
Qed.

Lemma quiet_keeps uid c c' : quiet c c' -> keeps uid c c'.
Proof.
  intros (Hobj & Hs & Hu).
  pose proof (same_object_fields _ _ Hobj) as (Hcfg & Hr & _ & Hcache & Hd & _).
  unfold keeps, user_count_invariant, users_counted, profiles_keyed, total_users,
    stat, profiles.
  rewrite Hs, Hu. split; [done|]. split; [by repeat split | done].
Qed.

Lemma handler_frame_quiet c c' : handler_frame c c' -> quiet c c'.
Proof. intros (Hobj & _ & Hs & _ & Hu & _). by split. Qed.

Lemma learn_from_interaction_ensures uid0 question answer uid :
  ensures (keeps uid0) (_learn_from_interaction question answer uid).
Proof.
  intros c.
  destruct (learn_from_interaction_spec question answer uid c)
    as (c' & Hrun & Hobj & _ & Hs & _ & Hu & _).
  rewrite Hrun. simpl. apply quiet_keeps. by split.
Qed.

Lemma same_knowledge_keeps uid c c' :
  knowledge c' = knowledge c -> config_frame c c' -> keeps uid c c'.
Proof.
  intros Hk Hcfg.
  unfold keeps, user_count_invariant, users_counted, profiles_keyed, total_users,
    stat, profiles.
  by rewrite Hk.
Qed.

Lemma get_weather_ensures uid now city : ensures (keeps uid) (get_weather now city).
Proof.
  intros c. unfold get_weather, try_except, request. mrun.
  destruct (cached_weather c (lower city) now); [reflexivity|].
  case_bool_decide as Hkey; [reflexivity|].
  destruct (http_get _ _) as [status json|e];
    [|apply same_knowledge_keeps; by destruct c].
  repeat case_bool_decide; try (apply same_knowledge_keeps; by destruct c).
  destruct json as [data|e]; [|apply same_knowledge_keeps; by destruct c].
  destruct (_format_weather_data data);
    [|apply same_knowledge_keeps; by destruct c].
  apply same_knowledge_keeps; [by destruct c|].
  repeat split; by destruct c.
Qed.

Lemma get_or_create_same_object now uid un fn ln :
  ensures same_object (get_or_create_user_profile now uid un fn ln).
Proof.
  unfold get_or_create_user_profile, _save_user_profile, _save_knowledge,
    modify_knowledge.
  repeat ensures_step; apply ensures_modify; intros c; by destruct c.
Qed.

Lemma users_counted_no_text c :
  users_counted c -> forall s, stat c (u "total_users") <> Some (PStr s).
Proof.
  unfold users_counted, total_users. intros Hc s Hs. by rewrite Hs in Hc.
Qed.

(** [get_or_create_user_profile] counts a user exactly when it files
    a new profile. *)
Lemma get_or_create_keeps now uid un fn ln :
  ensures (keeps uid) (get_or_create_user_profile now uid un fn ln).
Proof.
  intros c.
  assert (config_frame c (get_or_create_user_profile now uid un fn ln c).2) as Hcfg.
  { pose proof (get_or_create_same_object now uid un fn ln c) as Hobj.
    apply same_object_fields in Hobj as (? & ? & _ & ? & ? & _). by repeat split. }
  assert (user_count_invariant c ->
          user_count_invariant (get_or_create_user_profile now uid un fn ln c).2 /\
          (is_Some (profiles c !! str_of_int uid) ->
           dom (profiles (get_or_create_user_profile now uid un fn ln c).2)
           = dom (profiles c))) as Hinv.
  { intros (Hcount & Hkeyed).
    destruct (get_or_create_spec now uid un fn ln c (users_counted_no_text c Hcount))
      as (p & c' & Hrun & Hstore & Hprof & Hcase).
    rewrite Hrun. simpl.
    destruct (profiles c !! str_of_int uid) as [p0|] eqn:Hp0.
    + destruct Hcase as (Hid & _ & Hst).
      pose proof (Hkeyed _ _ Hp0) as Hkey0. rewrite <- Hid in Hkey0.
      split; [split|].
      * unfold users_counted, total_users, stat. rewrite Hst, Hprof.
        rewrite map_size_insert_Some by (rewrite <- Hkey0; eauto). exact Hcount.
      * intros key q. rewrite Hprof, lookup_insert.
        case_decide as Hk; [by intros [= <-] | apply Hkeyed].
      * intros _. rewrite Hprof, <- Hkey0. apply dom_insert_lookup_L. eauto.
    + destruct Hcase as (Hid & _ & _ & n & Hn & Hst).
      split; [split|by intros [? ?]].
      * unfold users_counted, total_users, stat. rewrite Hst, Hprof, lookup_insert_eq.
        rewrite map_size_insert_None by (by rewrite Hid).
        unfold users_counted in Hcount. rewrite Hn in Hcount.
        injection Hcount as ->. simpl. f_equal. lia.
      * intros key q. rewrite Hprof, lookup_insert.
        case_decide as Hk; [by intros [= <-] | apply Hkeyed]. }
  split; [intros Hi; by apply Hinv|]. split; [done|].
  intros Hi. by apply Hinv.
Qed.

(** Writing a counter other than [total_users] keeps the user
    count. *)
Lemma set_statistic_keeps uid key v c :
  key <> u "total_users" ->
  keeps uid c
    (set_knowledge
       (set_statistics (<[key := v]> (statistics (knowledge c))) (knowledge c)) c).
Proof.
  intros Hkey.
  unfold keeps, user_count_invariant, users_counted, profiles_keyed, total_users,
    stat, profiles.
  cbn [knowledge set_knowledge statistics set_statistics user_profiles].
  rewrite lookup_insert_ne by done.
  split; [done|]. split; [by destruct c | done].
Qed.

Lemma incr_statistic_keeps uid key :
  key <> u "total_users" -> ensures (keeps uid) (incr_statistic key).
Proof.
  intros Hkey c. unfold incr_statistic. rewrite bind_run. cbn [gets].
  unfold getitem. destruct (statistics (knowledge c) !! key) as [[n|s]|];
    [|reflexivity|reflexivity].
  simpl. by apply set_statistic_keeps.
Qed.

Lemma update_user_stats_keeps uid0 now uid field :
  field <> u "total_users" -> ensures (keeps uid0) (update_user_stats now uid field).
Proof.
  intros Hfield c. unfold update_user_stats. rewrite bind_run. cbn [gets].
  fold (profiles c).
  assert (forall c1, keeps uid0 c c1 ->
    keeps uid0 c ((gets knowledge ≫= fun k =>
              match statistics k !! field with
              | Some v =>
                  lift (py_add_one v) ≫= fun v' =>
                  modify_knowledge (fun k =>
                    set_statistics (<[field := v']> (statistics k)) k)
              | None => mret tt
              end ≫= fun _ => _save_knowledge) c1).2) as Hstats.
  { intros c1 H1. rewrite bind_run. cbn [gets].
    destruct (statistics (knowledge c1) !! field) as [[n|s]|]; [|done|done].
    simpl. etrans; [exact H1 | by apply set_statistic_keeps]. }
  destruct (profiles c !! str_of_int uid) as [p|] eqn:Hp.
  - rewrite bind_run. unfold modify_knowledge at 1. cbn [modify].
    apply Hstats.
    set (p' := with_last_active now _).
    assert (user_id p' = user_id p) as Hid by (subst p'; by repeat case_bool_decide).
    match goal with |- keeps _ _ ?s => set (c1 := s) end.
    assert (profiles c1 = <[str_of_int uid := p']> (profiles c)) as Hprof by reflexivity.
    assert (statistics (knowledge c1) = statistics (knowledge c)) as Hst by reflexivity.
    split; [|split; [by destruct c|]].
    + intros (Hcount & Hkeyed).
      unfold user_count_invariant, users_counted, profiles_keyed, total_users, stat.
      rewrite Hprof, Hst. split.
      * rewrite map_size_insert_Some by eauto. exact Hcount.
      * intros key q. rewrite lookup_insert.
        case_decide as Hk; [|apply Hkeyed].
        intros [= <-]. rewrite Hid, <- Hk. by apply Hkeyed.
    + intros _ _. rewrite Hprof. apply dom_insert_lookup_L. eauto.
  - rewrite bind_run. cbn [mret M_ret]. apply Hstats. reflexivity.
Qed.

(** Writing to the question table keeps the user count. *)
Lemma set_qna_keeps uid q c : keeps uid c (set_knowledge (set_qna q (knowledge c)) c).
Proof. apply quiet_keeps. by destruct c as [[]]. Qed.

Lemma dispatch_rules_ensures uid0 now rnd uid msg p rs :
  ensures (keeps uid0) (dispatch_rules now rnd uid msg p rs).
Proof.
  induction rs as [|[pattern h] rs IH]; simpl; [apply ensures_ret; apply _|].
  destruct (re_search pattern (lower msg)); [|exact IH].
  apply ensures_bind; [apply _| |intros text].
  - eapply ensures_weaken; [|apply call_handler_ensures].
    intros c c' Hf. by apply quiet_keeps, handler_frame_quiet.
  - apply ensures_bind; [apply _|apply learn_from_interaction_ensures|intros []].
    apply ensures_ret; apply _.
Qed.

(** A turn keeps the user count exact and never writes the weather
    configuration, whether it returns or raises. *)
Lemma process_message_ensures now rnd uid msg un fn ln flag data :
  ensures (keeps uid) (process_message now rnd uid msg un fn ln flag data).
Proof.
  unfold process_message, _check_qna_match, _calculate_confidence,
    _get_fallback_response, _save_knowledge.
  repeat first
    [ apply get_or_create_keeps
    | apply update_user_stats_keeps; key_ne
    | apply incr_statistic_keeps; key_ne
    | apply dispatch_rules_ensures
    | apply learn_from_interaction_ensures
    | apply get_weather_ensures
    | ensures_step ].
  apply ensures_modify. intros c. apply set_qna_keeps.
Qed.
End EveryRun.

(** ** The user count *)

Section UserCount.
Context {RT : PyRuntime} {WS : WeatherService}.

(** Every operation keeps the user count exact and the configuration
    unwritten. *)
Lemma step_keeps c c' :
  step c c' -> (user_count_invariant c -> user_count_invariant c') /\ config_frame c c'.
Proof.
  intros Hstep.
  destruct Hstep as [now rnd uid text un fn ln flag data | now city | now uid un fn ln
                     | now uid field Hfield_in | | ].
  - destruct (process_message_ensures now rnd uid text un fn ln flag data c) as (? & ? & _).
    by split.
  - destruct (get_weather_ensures 0 now city c) as (? & ? & _). by split.
  - destruct (get_or_create_keeps now uid un fn ln c) as (? & ? & _). by split.
  - assert (field <> u "total_users") as Hfield.
    { intros ->. set_unfold.
      destruct Hfield_in as [E|[E|[E|[]]]]; by vm_compute in E. }
    destruct (update_user_stats_keeps 0 now uid field Hfield c) as (? & ? & _). by split.
  - assert (quiet c (clear_memory_confirmed c).2) as Hq by (by destruct c as [[]]).
    destruct (quiet_keeps 0 _ _ Hq) as (? & ? & _). by split.
  - assert (keeps 0 c (toggle_learning c).2) as (? & ? & _).
    { apply same_knowledge_keeps; by destruct c. }
    by split.
Qed.

Lemma reachable_keeps c0 c :
  reachable c0 c ->
  (user_count_invariant c0 -> user_count_invariant c) /\ config_frame c0 c.
Proof.
  induction 1 as [|c c' _ [IHinv IHcfg] Hstep]; [by split|].
  apply step_keeps in Hstep as [Hinv Hcfg]. split; [auto | by etrans].
Qed.

(** After a turn of [uid] the user has a profile. *)
Lemma turn_registers now rnd uid text un fn ln flag data c :
  user_count_invariant c ->
  is_Some (profiles (process_message now rnd uid text un fn ln flag data c).2
             !! str_of_int uid).
Proof.
  intros Hinv. pose proof Hinv as [Hcount Hkeyed].
  destruct (get_or_create_spec now uid un fn ln c (users_counted_no_text c Hcount))
    as (p & c1 & Hrun & _ & Hprof & Hcase).
  assert (is_Some (profiles c1 !! str_of_int uid)) as Hknown.
  { rewrite Hprof. destruct (profiles c !! str_of_int uid) as [p0|] eqn:Hp0.
    - destruct Hcase as (Hid & _). rewrite Hid, <- (Hkeyed _ _ Hp0), lookup_insert_eq. eauto.
    - destruct Hcase as (Hid & _). rewrite Hid, lookup_insert_eq. eauto. }
  assert (user_count_invariant c1) as Hinv1.
  { pose proof (get_or_create_keeps now uid un fn ln c) as (H1 & _).
    rewrite Hrun in H1. by apply H1. }
  unfold process_message. rewrite (bind_returns _ _ _ _ _ Hrun).
  match goal with
  | |- is_Some (profiles (?rest c1).2 !! _) =>
      assert (ensures (keeps uid) rest) as Hrest
  end.
  { unfold _check_qna_match, _calculate_confidence, _get_fallback_response,
      _save_knowledge.
    repeat first
      [ apply update_user_stats_keeps; key_ne
      | apply incr_statistic_keeps; key_ne
      | apply dispatch_rules_ensures
      | apply learn_from_interaction_ensures
      | apply get_weather_ensures
      | ensures_step ].
    apply ensures_modify. intros c2. apply set_qna_keeps. }
  destruct (Hrest c1) as (_ & _ & Hdom).
  apply elem_of_dom. rewrite Hdom by done. by apply elem_of_dom.
Qed.

(** C9. [statistics.total_users] = number of keys of [user_profiles]
    (with every profile filed under its own identifier) is kept by
    every operation on the object.  [get_or_create_user_profile]
    raises [total_users] by one exactly when it creates a profile,
    which it creates with [conversation_count] = 1; and a further
    turn from a user who already had one adds no profile and leaves
    [total_users] as it is. *)
Theorem C9_user_count_invariant (c : NixAICore) :
  user_count_invariant c ->
  (forall c', step c c' -> user_count_invariant c') /\
  (forall now uid un fn ln,
     exists p c',
       get_or_create_user_profile now uid un fn ln c = (Ret p, c') /\
       match profiles c !! str_of_int uid with
       | None =>
           conversation_count p = 1 /\
           profiles c' !! str_of_int uid = Some p /\
           size (profiles c') = S (size (profiles c)) /\
           total_users c' = PInt (Z.of_nat (size (profiles c)) + 1)
       | Some _ =>
           dom (profiles c') = dom (profiles c) /\
           total_users c' = total_users c
       end) /\
  (forall now rnd uid text un fn ln flag data now' rnd' text' un' fn' ln' flag' data',
     let c1 := (process_message now rnd uid text un fn ln flag data c).2 in
     let c2 := (process_message now' rnd' uid text' un' fn' ln' flag' data' c1).2 in
     dom (profiles c2) = dom (profiles c1) /\ total_users c2 = total_users c1).
Proof.
  intros Hinv. split; [|split].
  - intros c' Hstep. by apply (step_keeps c c').
  - intros now uid un fn ln. destruct Hinv as [Hcount Hkeyed].
    destruct (get_or_create_spec now uid un fn ln c (users_counted_no_text c Hcount))
      as (p & c' & Hrun & _ & Hprof & Hcase).
    exists p, c'. split; [done|].
    destruct (profiles c !! str_of_int uid) as [p0|] eqn:Hp0.
    + destruct Hcase as (Hid & _ & Hst). split.
      * rewrite Hprof, Hid, <- (Hkeyed _ _ Hp0). apply dom_insert_lookup_L. eauto.
      * unfold total_users, stat. by rewrite Hst.
    + destruct Hcase as (Hid & Hcc & _ & n & Hn & Hst).
      split; [done|]. rewrite Hprof, Hid. split; [by rewrite lookup_insert_eq|].
      split; [by apply map_size_insert_None|].
      unfold total_users, stat. rewrite Hst, lookup_insert_eq.
      unfold users_counted in Hcount. rewrite Hn in Hcount. by injection Hcount as ->.
  - intros now rnd uid text un fn ln flag data now' rnd' text' un' fn' ln' flag' data' c1 c2.
    assert (user_count_invariant c1) as Hinv1
      by (by apply (process_message_ensures now rnd uid text un fn ln flag data c)).
    assert (is_Some (profiles c1 !! str_of_int uid)) as Hknown
      by (by apply turn_registers).
    destruct (process_message_ensures now' rnd' uid text' un' fn' ln' flag' data' c1)
      as (Hinv2 & _ & Hdom).
    fold c2 in Hinv2, Hdom. specialize (Hinv2 Hinv1) as [Hcount2 _].
    specialize (Hdom Hinv1 Hknown). split; [done|].
    destruct Hinv1 as [Hcount1 _]. unfold users_counted in *.
    rewrite Hcount1, Hcount2. do 2 f_equal.
    by rewrite <- !size_dom, Hdom.
Qed.
End UserCount.

(** ** The weather lookup *)

Section WeatherProperties.
Context {RT : PyRuntime} {WS : WeatherService}.

Lemma cached_weather_fresh c city_lower now cache_time text :
  weather_cache c !! city_lower = Some (cache_time, text) ->
  now - cache_time < cache_duration c ->
  cached_weather c city_lower now = Some text.
Proof.
  intros Hentry Hfresh. unfold cached_weather. rewrite Hentry.
  by rewrite bool_decide_eq_true_2.
Qed.

Lemma cached_weather_stale c city_lower now cache_time text :
  weather_cache c !! city_lower = Some (cache_time, text) ->
  cache_duration c <= now - cache_time ->
  cached_weather c city_lower now = None.
Proof.
  intros Hentry Hstale. unfold cached_weather. rewrite Hentry.
  rewrite bool_decide_eq_false_2; [done | lia].
Qed.

Lemma cached_weather_missing c city_lower now :
  weather_cache c !! city_lower = None -> cached_weather c city_lower now = None.
Proof. intros Hentry. unfold cached_weather. by rewrite Hentry. Qed.

(** A fresh entry is returned as it is; the object is not touched. *)
Lemma get_weather_cached now city c text :
  cached_weather c (lower city) now = Some text ->
  get_weather now city c = (Ret text, c).
Proof. intros Hc. unfold get_weather. mrun. by rewrite Hc. Qed.

Lemma get_weather_no_key now city c :
  cached_weather c (lower city) now = None ->
  api_key (weather_config c) = [] ->
  get_weather now city c = (Ret needs_api_key_text, c).
Proof.
  intros Hc Hkey. unfold get_weather. mrun. rewrite Hc.
  by rewrite bool_decide_eq_true_2.
Qed.

(** Without a fresh entry and with an API key, exactly one request
    is sent, and its answer decides the result. *)
Lemma get_weather_fetch now city c :
  cached_weather c (lower city) now = None ->
  api_key (weather_config c) <> [] ->
  let url := weather_url (weather_config c) city in
  let asked := set_http_requests (http_requests c ++ [url]) c in
  get_weather now city c =
  match http_get (length (http_requests c)) url with
  | Response status json =>
      if bool_decide (status = 200) then
        match json with
        | Ret data =>
            match _format_weather_data data with
            | Ret weather =>
                (Ret weather,
                 set_weather_cache
                   (<[lower city := (now, weather)]> (weather_cache c)) asked)
            | Raise e => (Ret (exception_text e), asked)
            end
        | Raise e => (Ret (exception_text e), asked)
        end
      else if bool_decide (status = 404) then (Ret (city_not_found_text city), asked)
      else (Ret (status_error_text status), asked)
  | ConnectionError e => (Ret (exception_text e), asked)
  end.
Proof.
  intros Hc Hkey url asked. unfold get_weather, try_except, request. mrun.
  rewrite Hc. rewrite bool_decide_eq_false_2 by done.
  fold url. fold asked.
  destruct (http_get _ _) as [status json|e]; [|done].
  repeat case_bool_decide; try done.
  destruct json as [data|e]; [|done].
  by destruct (_format_weather_data data).
Qed.

(** In a run that starts from a fresh object, the cache holds
    nothing unless an API key is configured, and the cache duration
    is thirty minutes. *)
Lemma reachable_weather k cfg c :
  reachable (new_core k cfg) c ->
  weather_config c = cfg /\ cache_duration c = thirty_minutes /\
  rules c = default_rules /\
  (api_key cfg = [] -> weather_cache c = ∅).
Proof.
  intros Hreach. apply reachable_keeps in Hreach as (_ & Hcfg & Hd & Hr & Hcache).
  by repeat split.
Qed.

(** C7 (amended). In a run of the object: a cache entry for the
    lower-cased city that is less than 30 minutes old is returned
    unchanged, with no provider call; when a call obtains its text
    from a successful provider answer, any call for the same city
    less than 30 minutes later returns the identical text with no
    further provider call (one request in all); and a call made 30
    minutes or more after the cached timestamp sends a request to the
    provider again. *)
Theorem C7_weather_cache k cfg c now city :
  reachable (new_core k cfg) c ->
  let url := weather_url (weather_config c) city in
  (forall cache_time text,
     weather_cache c !! lower city = Some (cache_time, text) ->
     now - cache_time < thirty_minutes ->
     get_weather now city c = (Ret text, c)) /\
  (forall data text later city',
     cached_weather c (lower city) now = None ->
     api_key (weather_config c) <> [] ->
     http_get (length (http_requests c)) url = Response 200 (Ret data) ->
     _format_weather_data data = Ret text ->
     lower city' = lower city ->
     later - now < thirty_minutes ->
     let c1 := (get_weather now city c).2 in
     (get_weather now city c).1 = Ret text /\
     get_weather later city' c1 = (Ret text, c1) /\
     http_requests c1 = http_requests c ++ [url]) /\
  (forall cache_time text,
     weather_cache c !! lower city = Some (cache_time, text) ->
     thirty_minutes <= now - cache_time ->
     http_requests (get_weather now city c).2 = http_requests c ++ [url]).
Proof.
  intros Hreach url.
  destruct (reachable_weather k cfg c Hreach) as (Hcfg & Hduration & _ & Hnokey).
  split; [|split].
  - intros cache_time text Hentry Hfresh.
    apply get_weather_cached. eapply cached_weather_fresh; [done|].
    by rewrite Hduration.
  - intros data text later city' Hmiss Hkey Hreply Hformat Hcity Hsoon c1.
    pose proof (get_weather_fetch now city c Hmiss Hkey) as Hrun.
    cbv zeta in Hrun. fold url in Hrun. rewrite Hreply in Hrun.
    rewrite bool_decide_eq_true_2, Hformat in Hrun by done.
    subst c1. rewrite Hrun. cbn [fst snd].
    split; [done|]. split; [|by destruct c].
    apply get_weather_cached. rewrite Hcity.
    eapply cached_weather_fresh.
    + cbn [weather_cache set_weather_cache]. apply lookup_insert_eq.
    + cbn [cache_duration set_weather_cache set_http_requests]. by rewrite Hduration.
  - intros cache_time text Hentry Hstale.
    assert (api_key (weather_config c) <> []) as Hkey.
    { rewrite Hcfg. intros Hno. rewrite (Hnokey Hno) in Hentry.
      by rewrite lookup_empty in Hentry. }
    assert (cached_weather c (lower city) now = None) as Hmiss.
    { eapply cached_weather_stale; [done|]. by rewrite Hduration. }
    rewrite (get_weather_fetch now city c Hmiss Hkey). cbv zeta. fold url.
    destruct (http_get _ _) as [status json|e]; [|by destruct c].
    repeat case_bool_decide; try (by destruct c).
    destruct json as [data|e]; [|by destruct c].
    destruct (_format_weather_data data); by destruct c.
Qed.

(** C8. In a run of the object, [get_weather] never raises and
    writes the cache only after a successful answer: without an API
    key it returns the fixed needs-configuration text and leaves the
    object as it is; on a 404 it returns the city-not-found text, on
    any other status than 200 a text ending with that status, on a
    transport failure a text ending with its detail, and in these
    three cases the object only records the request, so that a later
    call for a city that has no entry queries the provider again. *)
Theorem C8_weather_failures k cfg c now city :
  reachable (new_core k cfg) c ->
  let url := weather_url (weather_config c) city in
  let sent := length (http_requests c) in
  let asked := set_http_requests (http_requests c ++ [url]) c in
  (exists text, (get_weather now city c).1 = Ret text) /\
  (weather_cache (get_weather now city c).2 <> weather_cache c ->
   exists data text,
     http_get sent url = Response 200 (Ret data) /\
     _format_weather_data data = Ret text /\
     (get_weather now city c).1 = Ret text) /\
  (api_key (weather_config c) = [] ->
   get_weather now city c = (Ret needs_api_key_text, c)) /\
  (cached_weather c (lower city) now = None ->
   api_key (weather_config c) <> [] ->
   (forall json, http_get sent url = Response 404 json ->
      get_weather now city c = (Ret (city_not_found_text city), asked)) /\
   (forall status json, http_get sent url = Response status json ->
      status <> 200 -> status <> 404 ->
      get_weather now city c
      = (Ret (u "⚠️ Ошибка получения погоды. Код ошибки: " ++ str_of_int status), asked)) /\
   (forall e, http_get sent url = ConnectionError e ->
      get_weather now city c
      = (Ret (u "⚠️ Произошла ошибка при получении погоды: " ++ exn_str e), asked))) /\
  weather_cache asked = weather_cache c /\
  (weather_cache c !! lower city = None ->
   api_key (weather_config c) <> [] ->
   forall later,
     http_requests (get_weather later city asked).2 = http_requests asked ++ [url]).
Proof.
  intros Hreach url sent asked.
  destruct (reachable_weather k cfg c Hreach) as (Hcfg & Hduration & _ & Hnokey).
  assert (exists text, (get_weather now city c).1 = Ret text) as Hreturns.
  { destruct (cached_weather c (lower city) now) as [text|] eqn:Hc.
    - rewrite (get_weather_cached now city c text Hc). by exists text.
    - destruct (decide (api_key (weather_config c) = [])) as [Hkey|Hkey].
      + rewrite (get_weather_no_key now city c Hc Hkey). by eexists.
      + rewrite (get_weather_fetch now city c Hc Hkey). cbv zeta.
        destruct (http_get _ _) as [status json|e]; [|by eexists].
        repeat case_bool_decide; try (by eexists).
        destruct json as [data|e]; [|by eexists].
        destruct (_format_weather_data data); by eexists. }
  split; [done|]. split; [|split; [|split; [|split]]].
  - destruct (cached_weather c (lower city) now) as [text|] eqn:Hc.
    { rewrite (get_weather_cached now city c text Hc). by intros []. }
    destruct (decide (api_key (weather_config c) = [])) as [Hkey|Hkey].
    { rewrite (get_weather_no_key now city c Hc Hkey). by intros []. }
    rewrite (get_weather_fetch now city c Hc Hkey). cbv zeta. fold url sent.
    destruct (http_get sent url) as [status json|e]; [|by intros []].
    repeat case_bool_decide; try (by intros []).
    destruct json as [data|e]; [|by intros []].
    destruct (_format_weather_data data) as [text|e] eqn:Hformat; [|by intros []].
    intros _. subst status. by exists data, text.
  - intros Hkey. apply get_weather_no_key; [|done].
    apply cached_weather_missing. rewrite Hcfg in Hkey. rewrite (Hnokey Hkey).
    apply lookup_empty.
  - intros Hc Hkey.
    pose proof (get_weather_fetch now city c Hc Hkey) as Hrun.
    cbv zeta in Hrun. fold url sent asked in Hrun.
    split; [|split].
    + intros json Hreply. rewrite Hrun, Hreply.
      rewrite bool_decide_eq_false_2 by done. by rewrite bool_decide_eq_true_2.
    + intros status json Hreply H200 H404. rewrite Hrun, Hreply.
      by rewrite !bool_decide_eq_false_2.
    + intros e Hreply. by rewrite Hrun, Hreply.
  - done.
  - intros Hentry Hkey later.
    assert (cached_weather asked (lower city) later = None) as Hmiss
      by (by apply cached_weather_missing).
    rewrite (get_weather_fetch later city asked Hmiss Hkey). cbv zeta.
    change (weather_url (weather_config asked) city) with url.
    destruct (http_get _ _) as [status json|e]; [|done].
    repeat case_bool_decide; try done.
    destruct json as [data|e]; [|done].
    by destruct (_format_weather_data data).
Qed.
End WeatherProperties.

(** ** The fresh object *)

Section FreshObject.
Context {RT : PyRuntime}.

Lemma default_knowledge_well_formed now : well_formed (default_knowledge now).
Proof.
  split; [split|split].
  - intros key s Hlookup. apply elem_of_list_to_map_2 in Hlookup.
    repeat (apply elem_of_cons in Hlookup as [Heq|Hlookup]; [by injection Heq|]).
    by apply elem_of_nil in Hlookup.
  - repeat split; by apply (mk_is_Some _ (PInt 0)).
  - repeat split; by eapply mk_is_Some.
  - by eexists.
Qed.

Lemma new_core_user_count now cfg :
  user_count_invariant (new_core (default_knowledge now) cfg).
Proof.
  split; [reflexivity|]. intros key p Hp.
  change (profiles (new_core (default_knowledge now) cfg))
    with (∅ : gmap (list N) UserProfile) in Hp.
  by rewrite lookup_empty in Hp.
Qed.

(** In every state of a run that starts from the seed document, the
    user count is exact. *)
Lemma reachable_users_counted {WS : WeatherService} now cfg c :
  reachable (new_core (default_knowledge now) cfg) c -> users_counted c.
Proof.
  intros Hreach. apply reachable_keeps in Hreach as (Hinv & _).
  by apply Hinv, new_core_user_count.
Qed.
End FreshObject.

(** A rule table, checked against an utterance in one pass. *)
Lemma no_rule_found (rs : list (list N * handler)) (m : list N) :
  forallb (fun ph : list N * handler => negb (re_search ph.1 m)) rs = true ->
  forall ph, ph ∈ rs -> re_search ph.1 m = false.
Proof.
  intros Hall ph Hph. rewrite forallb_forall in Hall.
  apply negb_true_iff, Hall. by apply list_elem_of_In.
Qed.

(** ** Concrete turns *)

Section ConcreteTurns.
Import LatinCyrillic Runs.

Local Existing Instance runtime.

(** C2. The weather branch is shadowed by the rule table: with an API
    key configured, "погода москва" is answered by the prompt of the
    weather rule, no request is sent to the provider and no
    follow-up is asked; the bare word "погода" gets the same answer,
    with needs_followup = false and no action. *)
Theorem C2_weather_branch_shadowed :
  let prompt := {| response := weather_handler_text; needs_followup := false;
                   action := None; correction_data := None |} in
  (say (WS := Providers.changing) (u "погода москва") fresh_with_key).1 = Ret prompt /\
  http_requests (say (WS := Providers.changing) (u "погода москва") fresh_with_key).2 = [] /\
  (say (WS := Providers.changing) (u "погода") fresh_with_key).1 = Ret prompt.
Proof. vm_compute. done. Qed.

(** C1, as stated for every pending question, fails for the empty
    one: the reply is processed as an ordinary utterance; here it is
    answered by a teach-me prompt with a follow-up, nothing is stored
    under the empty question and no answer is counted as learned. *)
Lemma C1_empty_question_not_learned :
  (correct (WS := Providers.unknown_city) [] (u "qwerty") fresh).1
  = Ret {| response := teach_me_prompt (u "qwerty"); needs_followup := true;
           action := Some (u "correction");
           correction_data := Some {[ u "question" := u "qwerty" ]} |} /\
  dict_get [] (stored_qna (correct (WS := Providers.unknown_city) [] (u "qwerty") fresh).2)
  = None /\
  stat (correct (WS := Providers.unknown_city) [] (u "qwerty") fresh).2 (u "learned_qna")
  = Some (PInt 0).
Proof. vm_compute. done. Qed.

(** C7, as stated for any two calls, fails when the first call does
    not succeed: two calls for the same city one second apart send
    two requests and return different texts. *)
Lemma C7_two_calls_two_requests :
  let first := get_weather (WS := Providers.late_success) t0 (u "Москва") fresh_with_key in
  let second := get_weather (WS := Providers.late_success) (t0 + 1000000) (u "Москва")
                  first.2 in
  first.1 = Ret (city_not_found_text (u "Москва")) /\
  second.1 = Ret (u "ясно") /\
  first.1 <> second.1 /\
  length (http_requests second.2) = 2%nat.
Proof. vm_compute. repeat split; done. Qed.

(** The correction of "Столица Франции" by "Париж" on the fresh
    object. *)
Lemma C1_witness :
  exists c',
    correct (WS := Providers.unknown_city) (u "Столица Франции") (u "Париж") fresh
    = (Ret {| response := correction_confirmation (u "Столица Франции") (u "Париж");
              needs_followup := false; action := None; correction_data := None |}, c') /\
    dict_get (lower (u "Столица Франции")) (stored_qna c') = Some (u "Париж") /\
    contributions c' 42 = contributions fresh 42 + 1 /\
    (exists n, stat fresh (u "learned_qna") = Some (PInt n) /\
               stat c' (u "learned_qna") = Some (PInt (n + 1))) /\
    (exists n, stat fresh (u "corrections_received") = Some (PInt n) /\
               stat c' (u "corrections_received") = Some (PInt (n + 1))) /\
    interaction_stats (knowledge c') = interaction_stats (knowledge fresh) /\
    weather_cache c' = weather_cache fresh /\
    http_requests c' = http_requests fresh.
Proof.
  apply (C1_correction_learned (WS := Providers.unknown_city) t0 0 42
           (u "Столица Франции") (u "Париж") (Some (u "ivan")) (Some (u "Иван")) None
           {[ u "question" := u "Столица Франции" ]} fresh).
  - intros E. vm_compute in E. discriminate E.
  - apply lookup_singleton_eq.
  - apply default_knowledge_well_formed.
Defined.

Lemma all_not_contained (items : list (list N * list N)) (m : list N) :
  forallb (fun qa : list N * list N => negb (str_in qa.1 m || str_in m qa.1)) items = true ->
  forall qa, qa ∈ items -> ~ (occurs_in qa.1 m \/ occurs_in m qa.1).
Proof.
  intros Hall qa Hqa. apply not_contained_spec.
  rewrite forallb_forall in Hall. apply negb_true_iff, Hall. by apply list_elem_of_In.
Qed.

Lemma all_not_overlapping (items : list (list N * list N)) (m : list N) :
  forallb (fun qa : list N * list N =>
             bool_decide (size (common_keywords (_extract_keywords m)
                                  (_extract_keywords qa.1)) < 2)%nat) items = true ->
  forall qa, qa ∈ items ->
    ~ exists kw qk n,
        keywords_of m kw /\ keywords_of qa.1 qk /\ shared_keywords kw qk n /\ (2 <= n)%nat.
Proof.
  intros Hall qa Hqa Hover%overlapping_spec.
  rewrite forallb_forall in Hall.
  pose proof (Hall qa (proj1 (list_elem_of_In _ _) Hqa)) as Hlt.
  apply bool_decide_eq_true in Hlt. lia.
Qed.

(** The four stages on the seed document: a stored question in
    capitals; a stored question inside a longer utterance; two
    keywords shared with the first stored question, although the
    second shares three; nothing in common. *)
Lemma C3_witness :
  check_qna_match
    (dict_set (u "столица франции") (u "Париж") (stored_qna fresh))
    (u "СТОЛИЦА Франции")
  = Some (u "Париж") /\
  check_qna_match (stored_qna fresh) (u "Скажи, как тебя зовут?")
  = Some (u "Меня зовут Nix AI") /\
  check_qna_match (stored_qna fresh) (u "Интеллект искусственный такое Python")
  = Some (u "Python — это язык программирования") /\
  check_qna_match (stored_qna fresh) (u "qwerty") = None.
Proof.
  split; [|split; [|split]].
  - apply (C3_qna_lookup_order (stored_qna fresh) (u "СТОЛИЦА Франции")).
    vm_compute. reflexivity.
  - refine (proj1 (proj2 (C3_qna_lookup_order (stored_qna fresh) (u "Скажи, как тебя зовут?")))
              (take 2 (stored_qna fresh)) (u "как тебя зовут") _ (drop 3 (stored_qna fresh))
              _ _ _ _).
    + apply dict_get_absent. vm_compute. reflexivity.
    + reflexivity.
    + apply all_not_contained. vm_compute. reflexivity.
    + apply contained_spec. vm_compute. reflexivity.
  - refine (proj1 (proj2 (proj2 (C3_qna_lookup_order (stored_qna fresh)
                                   (u "Интеллект искусственный такое Python"))))
              [] (u "что такое python") _ (drop 1 (stored_qna fresh)) _ _ _ _ _).
    + apply dict_get_absent. vm_compute. reflexivity.
    + apply all_not_contained. vm_compute. reflexivity.
    + reflexivity.
    + intros qa Hqa. by apply elem_of_nil in Hqa.
    + apply overlapping_spec. vm_compute. lia.
  - refine (proj1 (proj2 (proj2 (proj2 (C3_qna_lookup_order (stored_qna fresh)
                                          (u "qwerty"))))) _ _).
    + apply dict_get_absent. vm_compute. reflexivity.
    + intros qa Hqa. split.
      * revert qa Hqa. apply all_not_contained. vm_compute. reflexivity.
      * revert qa Hqa. apply all_not_overlapping. vm_compute. reflexivity.
Defined.

(** On the seed document: a stored question in another case; an
    utterance of stop words; an utterance of four keywords of which
    the second stored question has three. *)
Lemma C4_witness :
  calculate_confidence (stored_qna fresh) (u "Что такое Python") = Q2Qc (9 # 10) /\
  calculate_confidence (stored_qna fresh) (u "Что это?") = 0%Qc /\
  calculate_confidence (stored_qna fresh) (u "Интеллект искусственный такое Python")
  = Q2Qc (3 # 4).
Proof.
  split; [|split].
  - refine (proj1 (C4_confidence (stored_qna fresh) (u "Что такое Python")) _).
    refine (bool_decide_unpack (_ ∈ _) _). vm_compute. exact I.
  - refine (proj1 (proj2 (C4_confidence (stored_qna fresh) (u "Что это?"))) _ _).
    + apply dict_get_absent. vm_compute. reflexivity.
    + apply keywords_of_spec. vm_compute. reflexivity.
  - destruct (proj2 (proj2 (C4_confidence (stored_qna fresh)
                              (u "Интеллект искусственный такое Python"))))
      as (Hdominates & _ & Hattained).
    + apply dict_get_absent. vm_compute. reflexivity.
    + intros Hkw%keywords_of_spec. vm_compute in Hkw. discriminate Hkw.
    + pose proof (Hdominates
                    (u "что такое искусственный интеллект",
                     u "ИИ — это система, имитирующая человеческий интеллект")
                    (Q2Qc (3 # 4))) as Hsecond.
      destruct Hattained as (qa & Hqa & Hratio%ratio_spec); [done|].
      rewrite Hratio in *.
      assert (Q2Qc (3 # 4)
              ≤ similarity (_extract_keywords (u "Интеллект искусственный такое Python"))
                  (_extract_keywords qa.1))%Qc as Hle.
      { apply Hsecond.
        - apply list_elem_of_further, list_elem_of_here.
        - apply ratio_spec. vm_compute. reflexivity. }
      clear Hsecond Hdominates Hratio.
      repeat (apply elem_of_cons in Hqa as [->|Hqa]).
      * exfalso. vm_compute in Hle. by apply Hle.
      * vm_compute. reflexivity.
      * exfalso. vm_compute in Hle. by apply Hle.
      * exfalso. vm_compute in Hle. by apply Hle.
      * by apply elem_of_nil in Hqa.
Defined.

(** "qwerty" is met by no rule, no stored question and no weather
    word; its confidence is 0 and the fresh object asks to be
    taught. *)
Lemma C5_witness :
  exists c',
    say (WS := Providers.unknown_city) (u "qwerty") fresh
    = (Ret {| response := teach_me_prompt (u "qwerty"); needs_followup := true;
              action := Some (u "correction");
              correction_data := Some {[ u "question" := u "qwerty" ]} |}, c').
Proof.
  apply (C5_teach_or_fallback (WS := Providers.unknown_city) t0 0 42 (u "qwerty")
           (Some (u "ivan")) (Some (u "Иван")) None false None fresh).
  - apply default_knowledge_well_formed.
  - reflexivity.
  - apply no_rule_found. vm_compute. reflexivity.
  - intros ch a E. vm_compute in E. discriminate E.
  - vm_compute. reflexivity.
  - split; vm_compute; reflexivity.
Defined.

(** "Привет" is found by the first rule of the table and greeted by
    name; "Как учишься?" is answered with the figures of the object
    once the message has been counted. *)
Lemma C6_witness :
  (exists text c',
     say (WS := Providers.unknown_city) (u "Привет") fresh
     = (Ret {| response := text; needs_followup := false; action := None;
               correction_data := None |}, c') /\
     text ∈ name_options (u "Иван")) /\
  (exists c',
     say (WS := Providers.unknown_city) (u "Как учишься?") fresh
     = (Ret {| response :=
                 u "🧠 *Как я учусь:*" ++ nl
                 ++ u "• Автообучение: ВКЛ" ++ nl
                 ++ u "• Выучено ответов: 0" ++ nl
                 ++ u "• Получено исправлений: 0" ++ nl
                 ++ u "• Всего сообщений: 1" ++ nl
                 ++ u "• Всего пользователей: 1" ++ nl ++ nl
                 ++ u "Когда я не знаю ответа, я спрашиваю у вас! 💡";
               needs_followup := false; action := None; correction_data := None |}, c')).
Proof.
  split.
  - destruct (C6_first_rule_wins (WS := Providers.unknown_city) t0 0 42 (u "Привет")
                (Some (u "ivan")) (Some (u "Иван")) None false None fresh
                [] (u "привет|здравствуй|hello|hi|хай") greet (tail default_rules))
      as (p & c1 & c2 & text & c' & Hrun1 & Hrun2 & Hresp & Hturn).
    + apply default_knowledge_well_formed.
    + reflexivity.
    + reflexivity.
    + intros ph Hph. by apply elem_of_nil in Hph.
    + vm_compute. reflexivity.
    + exists text, c'. split; [exact Hturn|].
      pose proof (f_equal fst Hrun1) as E1. cbn [fst] in E1.
      vm_compute in E1. injection E1 as <-.
      inversion Hresp as [name text' Hname Hne Hin | text' [Hname|Hname] | | | | | | | | | | | | | | | | | | | | | ];
        try discriminate Hname.
      injection Hname as <-. exact Hin.
  - destruct (C6_first_rule_wins (WS := Providers.unknown_city) t0 0 42 (u "Как учишься?")
                (Some (u "ivan")) (Some (u "Иван")) None false None fresh
                (take 12 default_rules) (u "как учишься|как обучаешься") how_i_learn
                (drop 13 default_rules))
      as (p & c1 & c2 & text & c' & Hrun1 & Hrun2 & Hresp & Hturn).
    + apply default_knowledge_well_formed.
    + reflexivity.
    + reflexivity.
    + apply no_rule_found. vm_compute. reflexivity.
    + vm_compute. reflexivity.
    + exists c'. unfold say. rewrite Hturn. do 3 f_equal.
      pose proof (f_equal snd Hrun1) as E1. pose proof (f_equal snd Hrun2) as E2.
      cbn [snd] in E1, E2. subst c1 c2.
      inversion Hresp as [ | | | | | | | | | | | | | | | | | learned corrections messages Hl Hc Hm | | | | | ].
      vm_compute in Hl. injection Hl as <-.
      vm_compute in Hc. injection Hc as <-.
      vm_compute in Hm. injection Hm as <-.
      vm_compute. reflexivity.
Defined.

(** Two calls for Moscow one second apart, the first one answered
    by the provider: one request, the same text. *)
Lemma C7_witness :
  let first := get_weather (WS := Providers.changing) t0 (u "Москва") fresh_with_key in
  first.1 = Ret (u "0") /\
  get_weather (WS := Providers.changing) (t0 + 1000000) (u "МОСКВА") first.2
  = (Ret (u "0"), first.2) /\
  http_requests first.2
  = http_requests fresh_with_key ++ [weather_url (weather_config fresh_with_key) (u "Москва")].
Proof.
  apply (proj1 (proj2 (C7_weather_cache (WS := Providers.changing)
                         (default_knowledge t0) with_key fresh_with_key t0 (u "Москва")
                         (reach_start _)))
           0%nat (u "0") (t0 + 1000000) (u "МОСКВА")).
  - vm_compute. reflexivity.
  - intros E. vm_compute in E. discriminate E.
  - vm_compute. reflexivity.
  - vm_compute. reflexivity.
  - vm_compute. reflexivity.
  - vm_compute. reflexivity.
Defined.

(** A city the provider does not know: the answer is the
    city-not-found text and only the request is recorded. *)
Lemma C8_witness :
  get_weather (WS := Providers.unknown_city) t0 (u "Атлантида") fresh_with_key
  = (Ret (city_not_found_text (u "Атлантида")),
     set_http_requests
       (http_requests fresh_with_key
        ++ [weather_url (weather_config fresh_with_key) (u "Атлантида")])
       fresh_with_key).
Proof.
  refine (proj1 (proj1 (proj2 (proj2 (proj2
            (C8_weather_failures (WS := Providers.unknown_city) (default_knowledge t0)
               with_key fresh_with_key t0 (u "Атлантида") (reach_start _))))) _ _)
            (Ret []) _).
  - vm_compute. reflexivity.
  - intros E. vm_compute in E. discriminate E.
  - vm_compute. reflexivity.
Defined.

(** After the first turn of a user on the fresh object the user
    count is exact. *)
Lemma C9_witness :
  user_count_invariant (say (WS := Providers.unknown_city) (u "Привет") fresh).2.
Proof.
  apply (C9_user_count_invariant (WS := Providers.unknown_city) fresh
           (new_core_user_count t0 default_weather_config)).
  apply step_turn.
Defined.

(** The teach-me outcome of "qwerty" has the shape of a correction
    follow-up. *)
Lemma C10_witness :
  (needs_followup (teach_me (u "qwerty")) = true
   <-> action (teach_me (u "qwerty")) <> None) /\
  (needs_followup (teach_me (u "qwerty")) = true ->
   action (teach_me (u "qwerty")) = Some (u "weather")
   \/ action (teach_me (u "qwerty")) = Some (u "correction")) /\
  (action (teach_me (u "qwerty")) = Some (u "correction") ->
   exists d, correction_data (teach_me (u "qwerty")) = Some d
             /\ d !! u "question" = Some (u "qwerty")).
Proof.
  apply (C10_followup_shape (WS := Providers.unknown_city) t0 0 42 (u "qwerty")
           (Some (u "ivan")) (Some (u "Иван")) None false None fresh
           (teach_me (u "qwerty"))
           (process_message (WS := Providers.unknown_city) t0 0 42 (u "qwerty")
              (Some (u "ivan")) (Some (u "Иван")) None false None fresh).2).
  vm_compute. reflexivity.
Defined.
End ConcreteTurns.

(** ** The text functions on sample inputs *)

Section Samples.
Import LatinCyrillic Runs.

Local Existing Instance runtime.

Example keywords_of_a_question :
  _extract_keywords (u "Объясни, что такое нейросеть?")
  = [u "объясни"; u "такое"; u "нейросеть"].
Proof. vm_compute. reflexivity. Qed.

Example short_and_stop_words_dropped :
  _extract_keywords (u "Как ты? Кто это и где он") = [].
Proof. vm_compute. reflexivity. Qed.

Example keyword_overlap_of_two :
  size (common_keywords
          (_extract_keywords (u "объясни что такое нейросеть простыми словами"))
          (_extract_keywords (u "что такое нейросеть")))
  = 2%nat.
Proof. vm_compute. reflexivity. Qed.

Example stored_question_inside_the_utterance :
  check_qna_match [(u "что такое нейросеть", u "Модель из слоёв нейронов")]
    (u "Объясни что такое нейросеть простыми словами")
  = Some (u "Модель из слоёв нейронов").
Proof. vm_compute. reflexivity. Qed.

Example first_overlap_wins_over_larger_one :
  check_qna_match
    [(u "быстрая сортировка массива", u "первый");
     (u "быстрая сортировка массива чисел слиянием", u "второй")]
    (u "сортировка чисел слиянием: массива")
  = Some (u "первый").
Proof. vm_compute. reflexivity. Qed.

Example confidence_of_one_shared_keyword :
  calculate_confidence [(u "что такое python", u "язык")] (u "python быстрый язык")
  = Q2Qc (1 # 3).
Proof. vm_compute. reflexivity. Qed.

Example city_after_the_keyword :
  strip <$> re_search_group [Lit (u "погода"); Rep is_space 1] (u "какая погода   в москве ")
  = Some (u "в москве").
Proof. vm_compute. reflexivity. Qed.

Example no_city_after_the_keyword :
  re_search_group [Lit (u "погода"); Rep is_space 1] (u "погода") = None.
Proof. vm_compute. reflexivity. Qed.

Example fact_after_remember :
  strip <$> re_search_group
              [Lit (u "запомни"); Rep is_space 0; OptAlt [u "что"; u ","]; Rep is_space 0]
              (u "запомни, что земля круглая")
  = Some (u "что земля круглая").
Proof. vm_compute. reflexivity. Qed.

Example interaction_key_of_two_smallest :
  join (u " ") (take 2 (sorted [u "погода"; u "завтра"; u "москва"])) = u "завтра москва".
Proof. vm_compute. reflexivity. Qed.

Example greeting_wins_over_weather :
  (say (WS := Providers.changing) (u "Привет, какая погода?") fresh_with_key).1
  = Ret {| response := u "С возвращением, Иван! Как ваши дела?"; needs_followup := false;
           action := None; correction_data := None |}.
Proof. vm_compute. reflexivity. Qed.

Example clock_and_calendar :
  strftime_HMS (t0 + 3723000000) = u "01:02:03" /\ strftime_dmY t0 = u "01.01.2024".
Proof. vm_compute. done. Qed.
End Samples.

(** * Further properties *)

(** ** The weather icon *)

Section IconProperties.
Context {RT : PyRuntime}.

(** X1. The icon is decided by the first word found in the lower-cased
    description, in the order дождь, снег, облачно, ясно or солнце,
    туман, гроза: each icon is returned exactly when its word occurs
    and no earlier one does, and the generic icon exactly when none
    occurs.  The test for "тумано" never decides anything. *)
Theorem X1_icon_by_first_word (description : list N) :
  let d := lower description in
  let has := fun w : list N => str_in w d = true in
  (_get_weather_icon description = u "🌧️" <-> has (u "дождь")) /\
  (_get_weather_icon description = u "❄️" <-> ~ has (u "дождь") /\ has (u "снег")) /\
  (_get_weather_icon description = u "☁️" <->
     ~ has (u "дождь") /\ ~ has (u "снег") /\ has (u "облачно")) /\
  (_get_weather_icon description = u "☀️" <->
     ~ has (u "дождь") /\ ~ has (u "снег") /\ ~ has (u "облачно") /\
     (has (u "ясно") \/ has (u "солнце"))) /\
  (_get_weather_icon description = u "🌫️" <->
     ~ has (u "дождь") /\ ~ has (u "снег") /\ ~ has (u "облачно") /\
     ~ has (u "ясно") /\ ~ has (u "солнце") /\ has (u "туман")) /\
  (_get_weather_icon description = u "⛈️" <->
     ~ has (u "дождь") /\ ~ has (u "снег") /\ ~ has (u "облачно") /\
     ~ has (u "ясно") /\ ~ has (u "солнце") /\ ~ has (u "туман") /\ has (u "гроза")) /\
  (_get_weather_icon description = u "🌤️" <->
     ~ has (u "дождь") /\ ~ has (u "снег") /\ ~ has (u "облачно") /\
     ~ has (u "ясно") /\ ~ has (u "солнце") /\ ~ has (u "туман") /\ ~ has (u "гроза")).
Proof.
  intros d has. unfold _get_weather_icon. fold d. subst has. cbv beta.
  assert (str_in (u "тумано") d = true -> str_in (u "туман") d = true) as Hfog.
  { apply (str_in_prefix (u "туман") (u "о")). }
  assert (str_in (u "туман") d || str_in (u "тумано") d = str_in (u "туман") d) as ->.
  { destruct (str_in (u "туман") d); [done|].
    destruct (str_in (u "тумано") d); [by specialize (Hfog eq_refl) | done]. }
  clear Hfog.
  assert (NoDup [u "🌧️"; u "❄️"; u "☁️"; u "☀️"; u "🌫️"; u "⛈️"; u "🌤️"]) as Hicons.
  { refine (bool_decide_unpack (NoDup _) _). vm_compute. exact I. }
  revert Hicons.
  generalize (u "🌧️") (u "❄️") (u "☁️") (u "☀️") (u "🌫️") (u "⛈️") (u "🌤️").
  intros i1 i2 i3 i4 i5 i6 i7 Hicons.
  repeat (apply NoDup_cons in Hicons as [? Hicons]).
  repeat match goal with
         | H : _ ∉ _ :: _ |- _ => apply not_elem_of_cons in H as [? H]
         end.
  destruct (str_in (u "дождь") d); [intuition congruence|].
  destruct (str_in (u "снег") d); [intuition congruence|].
  destruct (str_in (u "облачно") d); [intuition congruence|].
  destruct (str_in (u "ясно") d); [cbn [orb]; intuition congruence|].
  destruct (str_in (u "солнце") d); [cbn [orb]; intuition congruence|].
  cbn [orb].
  destruct (str_in (u "туман") d); [intuition congruence|].
  destruct (str_in (u "гроза") d); intuition congruence.
Qed.
End IconProperties.

(** ** An utterance that finds no stored question *)

Section UnmatchedProperties.
Context {RT : PyRuntime}.

Lemma partial_match_None_inv items m :
  partial_match items m = None ->
  forall qa, qa ∈ items -> str_in qa.1 m || str_in m qa.1 = false.
Proof.
  induction items as [|[q a] items IH]; simpl; intros Hnone qa Hin.
  - by apply elem_of_nil in Hin.
  - destruct (str_in q m || str_in m q) eqn:Hhit; [done|].
    apply elem_of_cons in Hin as [->|Hin]; [done | by apply IH].
Qed.

Lemma keyword_match_None_inv items keywords :
  keyword_match items keywords = None ->
  forall qa, qa ∈ items ->
    (size (common_keywords keywords (_extract_keywords qa.1)) < 2)%nat.
Proof.
  induction items as [|[q a] items IH]; simpl; intros Hnone qa Hin.
  - by apply elem_of_nil in Hin.
  - case_bool_decide as Hhit; [done|].
    apply elem_of_cons in Hin as [->|Hin]; [simpl; lia | by apply IH].
Qed.

(** What a failed lookup says about the table. *)
Lemma check_qna_match_None_inv items msg :
  check_qna_match items msg = None ->
  dict_get (lower msg) items = None /\
  forall qa, qa ∈ items ->
    str_in qa.1 (lower msg) || str_in (lower msg) qa.1 = false /\
    (size (common_keywords (_extract_keywords (lower msg)) (_extract_keywords qa.1)) < 2)%nat.
Proof.
  unfold check_qna_match.
  destruct (dict_get (lower msg) items); [done|].
  destruct (partial_match items (lower msg)) eqn:Hpartial; [done|].
  intros Hkw. split; [done|]. intros qa Hin. split.
  - by eapply partial_match_None_inv.
  - by eapply keyword_match_None_inv.
Qed.

Lemma similarity_of_one_common kw qk :
  kw <> [] ->
  (size (common_keywords kw qk) < 2)%nat ->
  (similarity kw qk ≤ Q2Qc (1 # Pos.of_nat (length kw)))%Qc.
Proof.
  intros Hkw Hcommon. unfold similarity, Qcle. cbn [this Q2Qc].
  rewrite !Qred_correct. unfold Qle. cbn [Qnum Qden].
  assert (0 < length kw)%nat as Hlen by (destruct kw; [done | simpl; lia]).
  rewrite !Nat2Pos.inj_max, !Pos2Z.inj_max.
  assert (Z.pos (Pos.of_nat (length kw)) = Z.of_nat (length kw)) as ->.
  { rewrite <- positive_nat_Z, Nat2Pos.id; lia. }
  nia.
Qed.

Lemma best_match_loop_bound keywords questions best bound :
  (best ≤ bound)%Qc ->
  (forall q, q ∈ questions -> (similarity keywords (_extract_keywords q) ≤ bound)%Qc) ->
  (best_match_loop keywords questions best ≤ bound)%Qc.
Proof.
  revert best. induction questions as [|q questions IH]; intros best Hbest Hall; [done|].
  cbn [best_match_loop].
  assert (forall q', q' ∈ questions ->
            (similarity keywords (_extract_keywords q') ≤ bound)%Qc) as Hrest.
  { intros q' Hq'. apply Hall. by apply list_elem_of_further. }
  pose proof (Hall q (list_elem_of_here _ _)) as Hq.
  destruct (_extract_keywords q) as [|w ws]; [by apply IH|].
  apply IH; [|done].
  destruct (py_max_cases best (similarity keywords (w :: ws))) as [-> | ->]; done.
Qed.

(** With no stored question sharing two keywords, every similarity
    and so the best match is at most 1 / (number of keywords). *)
Lemma unmatched_best_match (items : list (list N * list N)) (keywords : list (list N)) :
  keywords <> [] ->
  (forall qa, qa ∈ items ->
     (size (common_keywords keywords (_extract_keywords qa.1)) < 2)%nat) ->
  (best_match_loop keywords (fst <$> items) 0%Qc
   ≤ Q2Qc (1 # Pos.of_nat (length keywords)))%Qc.
Proof.
  intros Hne Hall. apply best_match_loop_bound.
  - apply Q2Qc_nonneg with (n := 1%nat).
  - intros q [[q' a] [-> Hin]]%list_elem_of_fmap.
    apply similarity_of_one_common; [done|]. by apply (Hall (q', a)).
Qed.

(** X2. When the lookup in the question table fails, the confidence
    is small: 0 for an utterance without keywords, and at most
    1 / (number of keywords) otherwise, since no stored question
    shares two keywords with the utterance. *)
Theorem X2_unmatched_confidence (items : list (list N * list N)) (user_message : list N) :
  lower (lower user_message) = lower user_message ->
  check_qna_match items user_message = None ->
  let keywords := _extract_keywords user_message in
  (keywords = [] -> calculate_confidence items user_message = 0%Qc) /\
  (keywords <> [] ->
   (calculate_confidence items user_message ≤ Q2Qc (1 # Pos.of_nat (length keywords)))%Qc).
Proof.
  intros Hlower Hnone keywords.
  apply check_qna_match_None_inv in Hnone as [Hexact Hall].
  assert (_extract_keywords (lower user_message) = keywords) as Hkw.
  { unfold keywords, _extract_keywords. by rewrite Hlower. }
  rewrite Hkw in Hall.
  unfold calculate_confidence. rewrite Hexact. fold keywords. split.
  - by intros ->.
  - intros Hne. destruct keywords as [|w ws] eqn:Heq; [done|].
    apply unmatched_best_match; [done|]. intros qa Hqa. by apply Hall.
Qed.

Context {WS : WeatherService}.

(** The end of a turn that no rule, no stored question and no
    weather word answers. *)
Lemma unanswered_turn now rnd uid msg un fn ln flag data c :
  counters_ok (statistics (knowledge c)) ->
  correction_question flag data = None ->
  (forall ph, ph ∈ rules c -> re_search ph.1 (lower msg) = false) ->
  (forall ch a, check_qna_match (stored_qna c) msg <> Some (ch :: a)) ->
  existsb (fun word => str_in word (lower msg)) weather_words = false ->
  exists c2,
    same_store c c2 /\
    process_message now rnd uid msg un fn ln flag data c
    = (if bool_decide (calculate_confidence (stored_qna c) msg
                       < confidence_threshold (learning_modes c))%Qc
          && auto_correction (learning_modes c)
       then mret {| response := teach_me_prompt msg; needs_followup := true;
                    action := Some (u "correction");
                    correction_data := Some {[ u "question" := msg ]} |}
       else _get_fallback_response rnd msg ≫= fun text => mret (plain_outcome text)) c2.
Proof.
  intros Hok Hnocorr Hnorule Hnoqna Hnoweather.
  destruct (prologue_spec now uid un fn ln c Hok)
    as (p & c1 & c2 & Hrun1 & Hrun2 & Hstore2 & Hok2 & _).
  exists c2. split; [done|].
  destruct Hstore2 as (Hobj2 & Hf2 & Hq2 & Hl2 & Hi2).
  pose proof (same_object_fields _ _ Hobj2) as (_ & Hr2 & Hm2 & _).
  unfold process_message.
  rewrite (bind_returns _ _ _ _ _ Hrun1), (bind_returns _ _ _ _ _ Hrun2).
  rewrite Hnocorr. rewrite bind_run. cbn [gets]. rewrite Hr2.
  rewrite (bind_returns _ _ _ _ _ (dispatch_rules_none now rnd uid msg p _ c2 Hnorule)).
  rewrite bind_run. unfold _check_qna_match at 1. rewrite bind_run. cbn [gets].
  change (default [] (qna (knowledge c2))) with (stored_qna c2).
  assert (stored_qna c2 = stored_qna c) as -> by (unfold stored_qna; by rewrite Hq2).
  cbn [mret M_ret].
  destruct (check_qna_match (stored_qna c) msg) as [[|ch a]|] eqn:Hq;
    [| by destruct (Hnoqna ch a) |].
  - rewrite Hnoweather. rewrite bind_run. unfold _calculate_confidence.
    rewrite bind_run. cbn [gets mret M_ret].
    change (default [] (qna (knowledge c2))) with (stored_qna c2).
    assert (stored_qna c2 = stored_qna c) as -> by (unfold stored_qna; by rewrite Hq2).
    rewrite bind_run. cbn [gets]. rewrite Hm2. reflexivity.
  - rewrite Hnoweather. rewrite bind_run. unfold _calculate_confidence.
    rewrite bind_run. cbn [gets mret M_ret].
    change (default [] (qna (knowledge c2))) with (stored_qna c2).
    assert (stored_qna c2 = stored_qna c) as -> by (unfold stored_qna; by rewrite Hq2).
    rewrite bind_run. cbn [gets]. rewrite Hm2. reflexivity.
Qed.

(** X3. With automatic correction on and the threshold at 0.3, an
    utterance that no rule, no weather word and no stored question
    answers is met by the teach-me prompt whenever it has no keyword
    or at least four: its confidence is then at most 1/4. *)
Theorem X3_long_unmatched_utterance_taught now rnd uid msg un fn ln flag data c :
  counters_ok (statistics (knowledge c)) ->
  correction_question flag data = None ->
  (forall ph, ph ∈ rules c -> re_search ph.1 (lower msg) = false) ->
  existsb (fun word => str_in word (lower msg)) weather_words = false ->
  lower (lower msg) = lower msg ->
  check_qna_match (stored_qna c) msg = None ->
  auto_correction (learning_modes c) = true ->
  confidence_threshold (learning_modes c) = Q2Qc (3 # 10) ->
  (length (_extract_keywords msg) = 0 \/ 4 <= length (_extract_keywords msg))%nat ->
  exists c',
    process_message now rnd uid msg un fn ln flag data c
    = (Ret {| response := teach_me_prompt msg; needs_followup := true;
              action := Some (u "correction");
              correction_data := Some {[ u "question" := msg ]} |}, c').
Proof.
  intros Hok Hnocorr Hnorule Hnoweather Hlower Hnone Hauto Hthreshold Hlen.
  destruct (unanswered_turn now rnd uid msg un fn ln flag data c) as (c2 & _ & ->);
    try done.
  { intros ch a. by rewrite Hnone. }
  exists c2. rewrite Hauto, Hthreshold, bool_decide_eq_true_2; [done|].
  apply check_qna_match_None_inv in Hnone as [Hexact Hall].
  assert (_extract_keywords (lower msg) = _extract_keywords msg) as Hsame.
  { unfold _extract_keywords. by rewrite Hlower. }
  rewrite Hsame in Hall.
  unfold calculate_confidence. rewrite Hexact.
  destruct (_extract_keywords msg) as [|w ws] eqn:Hkw.
  - done.
  - eapply Qcle_lt_trans.
    { apply unmatched_best_match; [done|]. intros qa Hqa. by apply Hall. }
    destruct Hlen as [Hlen|Hlen]; [done|].
    unfold Qclt. cbn [this Q2Qc]. rewrite !Qred_correct. unfold Qlt. cbn [Qnum Qden].
    assert (Z.pos (Pos.of_nat (length (w :: ws))) = Z.of_nat (length (w :: ws))) as ->.
    { rewrite <- positive_nat_Z, Nat2Pos.id; [done | simpl; lia]. }
    lia.
Qed.
End UnmatchedProperties.

Section UnmatchedSamples.
Import LatinCyrillic Runs.

Local Existing Instance runtime.

(** One stored question, sharing one keyword out of three. *)
Lemma X2_witness :
  (_extract_keywords (u "python быстрый язык") = [] ->
   calculate_confidence [(u "что такое python", u "язык")] (u "python быстрый язык") = 0%Qc) /\
  (_extract_keywords (u "python быстрый язык") <> [] ->
   (calculate_confidence [(u "что такое python", u "язык")] (u "python быстрый язык")
    ≤ Q2Qc (1 # Pos.of_nat (length (_extract_keywords (u "python быстрый язык")))))%Qc).
Proof.
  apply (X2_unmatched_confidence [(u "что такое python", u "язык")] (u "python быстрый язык")).
  - vm_compute. reflexivity.
  - vm_compute. reflexivity.
Defined.

(** Five keywords, nothing stored. *)
Lemma X3_witness :
  exists c',
    process_message (WS := Providers.unknown_city) t0 0 42
      (u "объясни квантовую физику простыми словами")
      (Some (u "ivan")) (Some (u "Иван")) None false None fresh
    = (Ret {| response := teach_me_prompt (u "объясни квантовую физику простыми словами");
              needs_followup := true;
              action := Some (u "correction");
              correction_data :=
                Some {[ u "question" := u "объясни квантовую физику простыми словами" ]} |},
       c').
Proof.
  apply (X3_long_unmatched_utterance_taught (WS := Providers.unknown_city) t0 0 42
           (u "объясни квантовую физику простыми словами")
           (Some (u "ivan")) (Some (u "Иван")) None false None fresh).
  - apply default_knowledge_well_formed.
  - reflexivity.
  - apply no_rule_found. vm_compute. reflexivity.
  - vm_compute. reflexivity.
  - vm_compute. reflexivity.
  - vm_compute. reflexivity.
  - reflexivity.
  - reflexivity.
  - right. apply Nat.leb_le. vm_compute. reflexivity.
Defined.
End UnmatchedSamples.

(** ** The provider is out of reach of a turn *)

(** A step of a run: [R] holds over [m ≫= f] when it holds over [m]
    and, from the state [m] returns in, over [f]. *)
Lemma run_bind {A B} (R : NixAICore -> NixAICore -> Prop) `{!PreOrder R}
    (m : M A) (f : A -> M B) (c : NixAICore) :
  R c (m c).2 ->
  (forall a c', m c = (Ret a, c') -> R c c' -> R c' (f a c').2) ->
  R c ((m ≫= f) c).2.
Proof.
  intros Hm Hf. rewrite bind_run.
  destruct (m c) as [[a|e] c1]; simpl in *; [|done].
  etrans; [exact Hm | by apply Hf].
Qed.

Section NoProvider.
Context {RT : PyRuntime} {WS : WeatherService}.

Lemma update_user_stats_same_object now uid field :
  ensures same_object (update_user_stats now uid field).
Proof.
  unfold update_user_stats, _save_knowledge, modify_knowledge.
  repeat ensures_step; apply ensures_modify; intros c; by destruct c.
Qed.

Lemma incr_statistic_same_object key : ensures same_object (incr_statistic key).
Proof.
  unfold incr_statistic, modify_knowledge.
  repeat ensures_step; apply ensures_modify; intros c; by destruct c.
Qed.

Lemma call_handler_same_object h now rnd message p :
  ensures same_object (call_handler h now rnd message p).
Proof.
  eapply ensures_weaken; [|apply call_handler_ensures]. by intros c c' [Hobj _].
Qed.

Lemma learn_from_interaction_same_object question answer uid :
  ensures same_object (_learn_from_interaction question answer uid).
Proof.
  intros c.
  destruct (learn_from_interaction_spec question answer uid c) as (c' & Hrun & Hobj & _).
  by rewrite Hrun.
Qed.

Lemma dispatch_rules_same_object now rnd uid msg p rs :
  ensures same_object (dispatch_rules now rnd uid msg p rs).
Proof.
  induction rs as [|[pattern h] rs IH]; simpl; [apply ensures_ret; apply _|].
  destruct (re_search pattern (lower msg)); [|exact IH].
  repeat first [ apply call_handler_same_object
               | apply learn_from_interaction_same_object
               | ensures_step ].
Qed.

(** The loop over the rule table returns nothing only when no pattern
    is found in the lower-cased utterance. *)
Lemma dispatch_rules_None_inv now rnd uid msg p rs c c' :
  dispatch_rules now rnd uid msg p rs c = (Ret None, c') ->
  forall ph, ph ∈ rs -> re_search ph.1 (lower msg) = false.
Proof.
  induction rs as [|[pat0 h0] rs IH]; simpl.
  - intros _ ph Hph. by apply elem_of_nil in Hph.
  - destruct (re_search pat0 (lower msg)) eqn:Hhit.
    + rewrite bind_run.
      destruct (call_handler h0 now rnd msg (Some p) c) as [[text|e] c1]; [|done].
      rewrite bind_run.
      by destruct (_learn_from_interaction msg text uid c1) as [[[]|e] c2].
    + intros Hrun ph [->|Hph]%elem_of_cons; [done | by apply IH].
Qed.

(** Under the registered rules an utterance that no rule answers holds
    no weather word. *)
Lemma no_rule_no_weather_word (m : list N) :
  (forall ph, ph ∈ default_rules -> re_search ph.1 m = false) ->
  existsb (fun word => str_in word m) weather_words = false.
Proof.
  intros Hnone.
  apply (Hnone (u "погода|weather|прогноз", weather_handler)).
  unfold default_rules. do 13 apply list_elem_of_further. apply list_elem_of_here.
Qed.

Lemma process_message_same_object now rnd uid msg un fn ln flag data c :
  rules c = default_rules ->
  same_object c (process_message now rnd uid msg un fn ln flag data c).2.
Proof.
  intros Hrules. unfold process_message.
  apply run_bind; [apply _ | apply get_or_create_same_object | intros p c1 _ H1].
  apply run_bind; [apply _ | apply update_user_stats_same_object | intros [] c2 _ H2].
  assert (rules c2 = default_rules) as Hrules2.
  { apply same_object_fields in H1 as (_ & Hr1 & _).
    apply same_object_fields in H2 as (_ & Hr2 & _). by rewrite Hr2, Hr1. }
  clear H1 H2 Hrules. revert c2 Hrules2.
  destruct (correction_question flag data) as [question|]; intros c2 Hrules2.
  - unfold _save_knowledge, modify_knowledge.
    revert c2 Hrules2. 
    assert (ensures same_object
              (modify (fun c0 =>
                 set_knowledge
                   (set_qna (Some (dict_set (lower question) msg
                                     (default [] (qna (knowledge c0))))) (knowledge c0)) c0)
               ≫= fun _ =>
               update_user_stats now uid (u "learned_contributions") ≫= fun _ =>
               incr_statistic (u "learned_qna") ≫= fun _ =>
               incr_statistic (u "corrections_received") ≫= fun _ =>
               mret tt ≫= fun _ =>
               mret (plain_outcome (correction_confirmation question msg)))) as Hchain.
    { repeat first [ apply update_user_stats_same_object
                   | apply incr_statistic_same_object
                   | ensures_step ].
      apply ensures_modify. intros c0. by destruct c0. }
    intros c2 _. apply Hchain.
  - apply run_bind; [apply _ | reflexivity | intros rs c2' [= <- <-] _].
    apply run_bind; [apply _ | apply dispatch_rules_same_object | intros by_rule c3 Hrun3 _].
    destruct by_rule as [outcome|]; [reflexivity|].
    rewrite Hrules2 in Hrun3.
    pose proof (dispatch_rules_None_inv _ _ _ _ _ _ _ _ Hrun3) as Hnone.
    rewrite (no_rule_no_weather_word _ Hnone).
    unfold _check_qna_match, _calculate_confidence, _get_fallback_response.
    apply run_bind; [apply _ | reflexivity | intros qna_answer c4 _ _].
    revert c4.
    change (ensures same_object
              match qna_answer with
              | Some (ch :: a) =>
                  _learn_from_interaction msg (ch :: a) uid ≫= fun _ =>
                  mret (plain_outcome (ch :: a))
              | _ =>
                  (gets knowledge ≫= fun k =>
                   mret (calculate_confidence (default [] (qna k)) msg)) ≫= fun confidence =>
                  gets learning_modes ≫= fun modes =>
                  if bool_decide (confidence < confidence_threshold modes)%Qc
                     && auto_correction modes
                  then mret {| response := teach_me_prompt msg; needs_followup := true;
                               action := Some (u "correction");
                               correction_data := Some {[ u "question" := msg ]} |}
                  else choice rnd (fallback_responses msg) ≫= fun text =>
                       mret (plain_outcome text)
              end).
    repeat first [ apply learn_from_interaction_same_object | ensures_step ].
Qed.

Lemma process_message_outcome now rnd uid msg un fn ln flag data c outcome c' :
  rules c = default_rules ->
  process_message now rnd uid msg un fn ln flag data c = (Ret outcome, c') ->
  (exists text, outcome = plain_outcome text) \/
  outcome = {| response := teach_me_prompt msg; needs_followup := true;
               action := Some (u "correction");
               correction_data := Some {[ u "question" := msg ]} |}.
Proof.
  intros Hrules. unfold process_message. rewrite bind_run.
  pose proof (get_or_create_same_object now uid un fn ln c) as H1.
  destruct (get_or_create_user_profile now uid un fn ln c) as [[p|e] c1]; [|done].
  rewrite bind_run.
  pose proof (update_user_stats_same_object now uid (u "total_messages") c1) as H2.
  destruct (update_user_stats now uid (u "total_messages") c1) as [[[]|e] c2]; [|done].
  simpl in H1, H2.
  assert (rules c2 = default_rules) as Hrules2.
  { apply same_object_fields in H1 as (_ & Hr1 & _).
    apply same_object_fields in H2 as (_ & Hr2 & _). by rewrite Hr2, Hr1. }
  destruct (correction_question flag data) as [question|].
  - rewrite bind_run. unfold modify_knowledge at 1. cbn [modify].
    rewrite bind_run.
    destruct (update_user_stats now uid (u "learned_contributions") _) as [[[]|e] c3];
      [|done].
    rewrite bind_run.
    destruct (incr_statistic (u "learned_qna") c3) as [[[]|e] c4]; [|done].
    rewrite bind_run.
    destruct (incr_statistic (u "corrections_received") c4) as [[[]|e] c5]; [|done].
    intros [= <- <-]. left. by eexists.
  - rewrite bind_run. cbn [gets]. rewrite bind_run, Hrules2.
    destruct (dispatch_rules now rnd uid msg p default_rules c2) as [[[o|]|e] c3] eqn:Hdispatch;
      [| |done].
    { intros [= <- <-]. left. by eapply dispatch_rules_outcome. }
    pose proof (dispatch_rules_None_inv _ _ _ _ _ _ _ _ Hdispatch) as Hnone.
    rewrite (no_rule_no_weather_word _ Hnone).
    rewrite bind_run. unfold _check_qna_match at 1. rewrite bind_run. cbn [gets mret M_ret].
    assert (forall c4,
      (_calculate_confidence msg ≫= fun confidence =>
       gets learning_modes ≫= fun modes =>
       if bool_decide (confidence < confidence_threshold modes)%Qc
          && auto_correction modes
       then mret {| response := teach_me_prompt msg; needs_followup := true;
                    action := Some (u "correction");
                    correction_data := Some {[ u "question" := msg ]} |}
       else _get_fallback_response rnd msg ≫= fun text => mret (plain_outcome text)) c4
      = (Ret outcome, c') ->
      (exists text, outcome = plain_outcome text) \/
      outcome = {| response := teach_me_prompt msg; needs_followup := true;
                   action := Some (u "correction");
                   correction_data := Some {[ u "question" := msg ]} |}) as Hrest.
    { intros c4. rewrite bind_run. unfold _calculate_confidence. rewrite bind_run.
      cbn [gets mret M_ret]. rewrite bind_run. cbn [gets].
      destruct (bool_decide _ && _).
      - intros [= <- <-]. by right.
      - rewrite bind_run.
        destruct (_get_fallback_response rnd msg c4) as [[text|e] c5]; [|done].
        intros [= <- <-]. left. by eexists. }
    destruct (check_qna_match (default [] (qna (knowledge c3))) msg) as [[|ch a]|].
    + apply Hrest.
    + rewrite bind_run.
      destruct (_learn_from_interaction msg (ch :: a) uid c3) as [[[]|e] c4]; [|done].
      intros [= <- <-]. left. by eexists.
    + apply Hrest.
Qed.

(** X4. Under the registered rule table a turn never reaches the
    weather provider, whether it returns or raises: no request is
    sent and the weather cache is not written; and an outcome it
    returns is either a plain answer or the teach-me prompt for the
    utterance, never the request for a city. *)
Theorem X4_turn_never_reaches_provider now rnd uid msg un fn ln flag data c :
  rules c = default_rules ->
  http_requests (process_message now rnd uid msg un fn ln flag data c).2 = http_requests c /\
  weather_cache (process_message now rnd uid msg un fn ln flag data c).2 = weather_cache c /\
  forall outcome,
    (process_message now rnd uid msg un fn ln flag data c).1 = Ret outcome ->
    action outcome <> Some (u "weather") /\
    ((exists text, outcome = plain_outcome text) \/
     outcome = {| response := teach_me_prompt msg; needs_followup := true;
                  action := Some (u "correction");
                  correction_data := Some {[ u "question" := msg ]} |}).
Proof.
  intros Hrules.
  pose proof (process_message_same_object now rnd uid msg un fn ln flag data c Hrules)
    as Hobj.
  apply same_object_fields in Hobj as (_ & _ & _ & Hcache & _ & Hreq).
  split; [done|]. split; [done|].
  intros outcome Hrun.
  destruct (process_message now rnd uid msg un fn ln flag data c) as [r c'] eqn:Hturn.
  simpl in Hrun. subst r.
  pose proof (process_message_outcome _ _ _ _ _ _ _ _ _ _ _ _ Hrules Hturn) as Hshape.
  split; [|done].
  destruct Hshape as [[text ->] | ->]; simpl; [done | key_ne].
Qed.
End NoProvider.

Section NoProviderSamples.
Import LatinCyrillic Runs.

Local Existing Instance runtime.

(** "погода москва" on the object with an API key. *)
Lemma X4_witness :
  http_requests
    (process_message (WS := Providers.changing) t0 0 42 (u "погода москва")
       (Some (u "ivan")) (Some (u "Иван")) None false None fresh_with_key).2
  = http_requests fresh_with_key.
Proof.
  apply (X4_turn_never_reaches_provider (WS := Providers.changing) t0 0 42
           (u "погода москва") (Some (u "ivan")) (Some (u "Иван")) None false None
           fresh_with_key).
  reflexivity.
Defined.
End NoProviderSamples.

(** ** The profile of a user *)

Section ProfileProperties.
Context {RT : PyRuntime}.

(** The run of [get_or_create_user_profile] for a user with a
    profile. *)
Lemma get_or_create_known now uid un fn ln c p0 :
  profiles c !! str_of_int uid = Some p0 ->
  let p :=
    with_last_active now
      (with_names
         (if truthy un && bool_decide (un ≠ username p0) then un else username p0)
         (if truthy fn && bool_decide (fn ≠ first_name p0) then fn else first_name p0)
         (if truthy ln && bool_decide (ln ≠ last_name p0) then ln else last_name p0)
         p0) in
  get_or_create_user_profile now uid un fn ln c
  = (Ret p,
     set_knowledge
       (set_user_profiles (Some (<[str_of_int (user_id p0) := p]> (profiles c)))
          (knowledge c)) c).
Proof.
  intros Hp0 p. unfold get_or_create_user_profile.
  rewrite bind_run. cbn [gets]. fold (profiles c). rewrite Hp0. reflexivity.
Qed.

(** The run of [get_or_create_user_profile] for a user without a
    profile. *)
Lemma get_or_create_new now uid un fn ln c n :
  profiles c !! str_of_int uid = None ->
  total_users c = PInt n ->
  let p :=
    {| user_id := uid; username := un; first_name := fn; last_name := ln;
       conversation_count := 1; total_messages := 0; learned_contributions := 0;
       last_active := now; preferences := [] |} in
  get_or_create_user_profile now uid un fn ln c
  = (Ret p,
     set_knowledge
       (set_user_profiles (Some (<[str_of_int uid := p]> (profiles c)))
          (set_statistics (<[u "total_users" := PInt (n + 1)]> (statistics (knowledge c)))
             (knowledge c))) c).
Proof.
  intros Hp0 Hn p. unfold get_or_create_user_profile.
  rewrite bind_run. cbn [gets]. fold (profiles c). rewrite Hp0.
  unfold total_users, stat in Hn.
  destruct (statistics (knowledge c) !! u "total_users") as [v|] eqn:Hv;
    simpl in Hn; [subst v | injection Hn as <-]; reflexivity.
Qed.

(** A call for a user without a profile raises when the user count is
    a text. *)
Lemma get_or_create_new_raises now uid un fn ln c s r c' :
  profiles c !! str_of_int uid = None ->
  total_users c = PStr s ->
  get_or_create_user_profile now uid un fn ln c = (r, c') ->
  exists e, r = Raise e.
Proof.
  intros Hp0 Hs. unfold get_or_create_user_profile.
  rewrite bind_run. cbn [gets]. fold (profiles c). rewrite Hp0.
  unfold total_users, stat in Hs.
  destruct (statistics (knowledge c) !! u "total_users") as [v|] eqn:Hv;
    simpl in Hs; [|done]. subst v.
  mrun. simpl. intros [= <- <-]. by eexists.
Qed.




End ProfileProperties.

Section ProfileSamples.
Import LatinCyrillic Runs.

Local Existing Instance runtime.

End ProfileSamples.

(** ** The ledger of messages and corrections *)

Lemma sum_profiles_empty (f : UserProfile -> Z) : sum_profiles f ∅ = 0.
Proof. apply map_fold_empty. Qed.

Lemma sum_profiles_insert_None (f : UserProfile -> Z) m key p :
  m !! key = None -> sum_profiles f (<[key := p]> m) = f p + sum_profiles f m.
Proof.
  intros Hkey. unfold sum_profiles.
  rewrite map_fold_insert_L; [done| |done]. intros. lia.
Qed.

Lemma sum_profiles_insert_Some (f : UserProfile -> Z) m key p q :
  m !! key = Some q -> sum_profiles f (<[key := p]> m) = sum_profiles f m + f p - f q.
Proof.
  intros Hkey.
  rewrite <- (insert_delete_eq m), sum_profiles_insert_None by apply lookup_delete_eq.
  rewrite <- (insert_delete_id m key q) at 2 by done.
  rewrite (sum_profiles_insert_None f (delete key m)) by apply lookup_delete_eq. lia.
Qed.

Global Instance same_ledger_preorder : PreOrder same_ledger.
Proof.
  split; [done|].
  intros c1 c2 c3 [Hs Hu] [Hs' Hu']. split; [by rewrite Hs' | by rewrite Hu'].
Qed.

Lemma same_ledger_invariant c c' : same_ledger c c' -> ledger_invariant c -> ledger_invariant c'.
Proof.
  intros [Hs Hu].
  unfold ledger_invariant, profiles_keyed, messages_counted, corrections_counted,
    stat, profiles.
  by rewrite Hs, Hu.
Qed.

Section LedgerProperties.
Context {RT : PyRuntime} {WS : WeatherService}.

(** The run of [update_user_stats] for a user with a profile. *)
Lemma update_user_stats_known now uid field c p :
  profiles c !! str_of_int uid = Some p ->
  (forall s, stat c field <> Some (PStr s)) ->
  let p' :=
    with_last_active now
      (if bool_decide (field = u "total_messages") then
         with_counters (conversation_count p) (total_messages p + 1)
           (learned_contributions p) p
       else if bool_decide (field = u "learned_contributions") then
         with_counters (conversation_count p) (total_messages p)
           (learned_contributions p + 1) p
       else if bool_decide (field = u "conversation_count") then
         with_counters (conversation_count p + 1) (total_messages p)
           (learned_contributions p) p
       else p) in
  exists c',
    update_user_stats now uid field c = (Ret tt, c') /\
    same_store c c' /\
    profiles c' = <[str_of_int uid := p']> (profiles c) /\
    statistics (knowledge c') =
      match stat c field with
      | Some (PInt n) => <[field := PInt (n + 1)]> (statistics (knowledge c))
      | _ => statistics (knowledge c)
      end.
Proof.
  intros Hp Hst p'. unfold update_user_stats, stat in *.
  rewrite bind_run. cbn [gets]. fold (profiles c). rewrite Hp.
  destruct (statistics (knowledge c) !! field) as [[n|s]|] eqn:Hn;
    [| by destruct (Hst s) |].
  - eexists. split; [mrun; rewrite Hn; reflexivity|].
    split; [split; [by destruct c as [[]] | by destruct c as [[]]]|].
    split; by destruct c as [[]].
  - eexists. split; [mrun; rewrite Hn; reflexivity|].
    split; [split; [by destruct c as [[]] | by destruct c as [[]]]|].
    split; by destruct c as [[]].
Qed.

(** The first two steps of a turn file the message: the profile of
    the user gets one message more, and so does the global count. *)
Lemma prologue_counts now uid un fn ln c :
  ledger_invariant c ->
  exists p c1 c2 p2,
    get_or_create_user_profile now uid un fn ln c = (Ret p, c1) /\
    update_user_stats now uid (u "total_messages") c1 = (Ret tt, c2) /\
    same_store c c2 /\
    ledger_invariant c2 /\
    profiles c2 = <[str_of_int uid := p2]> (profiles c) /\
    total_messages p2
    = match profiles c !! str_of_int uid with
      | Some p0 => total_messages p0 + 1
      | None => 1
      end /\
    learned_contributions p2 = contributions c uid.
Proof.
  intros (Hok & Hkeyed & Hmsgs & [Hlearned Hrecv]).
  assert (forall key, key <> u "first_start" ->
            forall s, statistics (knowledge c) !! key <> Some (PStr s)) as Hint.
  { intros key Hkey. by apply counters_ok_no_text. }
  unfold contributions.
  destruct (profiles c !! str_of_int uid) as [p0|] eqn:Hp0.
  - pose proof (Hkeyed _ _ Hp0) as Hkey.
    eexists _, _. rewrite (get_or_create_known now uid un fn ln c p0 Hp0). cbv zeta.
    set (p := with_last_active now _).
    set (c1 := set_knowledge _ c).
    assert (profiles c1 = <[str_of_int uid := p]> (profiles c)) as Hprof1
      by (by rewrite Hkey).
    assert (statistics (knowledge c1) = statistics (knowledge c)) as Hst1 by done.
    destruct (update_user_stats_known now uid (u "total_messages") c1 p)
      as (c2 & Hrun2 & Hstore2 & Hprof2 & Hst2).
    { by rewrite Hprof1, lookup_insert_eq. }
    { unfold stat. rewrite Hst1. apply Hint. key_ne. }
    rewrite bool_decide_eq_true_2 in Hprof2 by done.
    unfold stat in Hst2. rewrite Hst1 in Hst2.
    unfold messages_counted, stat in Hmsgs. rewrite Hmsgs in Hst2.
    rewrite Hprof1, insert_insert_eq in Hprof2.
    eexists c2, _. split; [done|]. split; [done|].
    split.
    { eapply same_store_trans; [|exact Hstore2].
      split; [by destruct c as [[]] | by destruct c as [[]]]. }
    split; [|split; [exact Hprof2 | by split]].
    split; [rewrite Hst2; by apply counters_ok_insert|].
    split.
    { intros key q. rewrite Hprof2, lookup_insert.
      case_decide as Hk; [|apply Hkeyed]. intros [= <-]. by rewrite <- Hk. }
    unfold messages_counted, corrections_counted, stat.
    rewrite Hst2, Hprof2, !(sum_profiles_insert_Some _ _ _ _ p0) by done.
    rewrite lookup_insert_eq, !lookup_insert_ne by key_ne.
    split; [simpl; do 2 f_equal; lia|].
    unfold stat in Hlearned, Hrecv. rewrite Hlearned, Hrecv.
    split; simpl; do 2 f_equal; lia.
  - assert (exists n, total_users c = PInt n) as [n Hn].
    { unfold total_users, stat.
      destruct (statistics (knowledge c) !! u "total_users") as [[n|s]|] eqn:Hv;
        [by exists n | | by exists 0].
      by destruct (Hint (u "total_users") ltac:(key_ne) s). }
    eexists _, _. rewrite (get_or_create_new now uid un fn ln c n Hp0 Hn). cbv zeta.
    set (p := {| user_id := uid |}).
    set (c1 := set_knowledge _ c).
    assert (profiles c1 = <[str_of_int uid := p]> (profiles c)) as Hprof1 by done.
    assert (statistics (knowledge c1)
            = <[u "total_users" := PInt (n + 1)]> (statistics (knowledge c))) as Hst1
      by done.
    destruct (update_user_stats_known now uid (u "total_messages") c1 p)
      as (c2 & Hrun2 & Hstore2 & Hprof2 & Hst2).
    { by rewrite Hprof1, lookup_insert_eq. }
    { unfold stat. rewrite Hst1, lookup_insert_ne by key_ne. apply Hint. key_ne. }
    rewrite bool_decide_eq_true_2 in Hprof2 by done.
    unfold stat in Hst2. rewrite Hst1, lookup_insert_ne in Hst2 by key_ne.
    unfold messages_counted, stat in Hmsgs. rewrite Hmsgs in Hst2.
    rewrite Hprof1, insert_insert_eq in Hprof2.
    eexists c2, _. split; [done|]. split; [done|].
    split.
    { eapply same_store_trans; [|exact Hstore2].
      split; [by destruct c as [[]] | by destruct c as [[]]]. }
    split; [|split; [exact Hprof2 | by split]].
    split; [rewrite Hst2; by do 2 apply counters_ok_insert|].
    split.
    { intros key q. rewrite Hprof2, lookup_insert.
      case_decide as Hk; [|apply Hkeyed]. by intros [= <-]. }
    unfold messages_counted, corrections_counted, stat.
    rewrite Hst2, Hprof2, !sum_profiles_insert_None by done.
    rewrite lookup_insert_eq, !lookup_insert_ne by key_ne.
    split; [simpl; do 2 f_equal; lia|].
    unfold stat in Hlearned, Hrecv. rewrite Hlearned, Hrecv.
    split; simpl; do 2 f_equal; lia.
Qed.

Lemma get_weather_same_knowledge now city c :
  knowledge (get_weather now city c).2 = knowledge c.
Proof.
  unfold get_weather, try_except, request. mrun.
  destruct (cached_weather c (lower city) now); [reflexivity|].
  case_bool_decide as Hkey; [reflexivity|].
  destruct (http_get _ _) as [status json|e]; [|by destruct c].
  repeat case_bool_decide; try (by destruct c).
  destruct json as [data|e]; [|by destruct c].
  destruct (_format_weather_data data); by destruct c.
Qed.

Lemma get_weather_same_ledger now city : ensures same_ledger (get_weather now city).
Proof. intros c. unfold same_ledger. by rewrite get_weather_same_knowledge. Qed.

Lemma quiet_same_ledger c c' : quiet c c' -> same_ledger c c'.
Proof. by intros (_ & Hs & Hu). Qed.

Lemma call_handler_same_ledger h now rnd message p :
  ensures same_ledger (call_handler h now rnd message p).
Proof.
  eapply ensures_weaken; [|apply call_handler_ensures].
  intros c c' Hf. by apply quiet_same_ledger, handler_frame_quiet.
Qed.

Lemma learn_from_interaction_same_ledger question answer uid :
  ensures same_ledger (_learn_from_interaction question answer uid).
Proof.
  intros c.
  destruct (learn_from_interaction_spec question answer uid c)
    as (c' & Hrun & _ & _ & Hs & _ & Hu & _).
  rewrite Hrun. by split.
Qed.

Lemma dispatch_rules_same_ledger now rnd uid msg p rs :
  ensures same_ledger (dispatch_rules now rnd uid msg p rs).
Proof.
  induction rs as [|[pattern h] rs IH]; simpl; [apply ensures_ret; apply _|].
  destruct (re_search pattern (lower msg)); [|exact IH].
  repeat first [ apply call_handler_same_ledger
               | apply learn_from_interaction_same_ledger
               | ensures_step ].
Qed.

(** The writes of a correction turn after the message is filed. *)
Lemma correction_counts now uid question answer c p :
  ledger_invariant c ->
  profiles c !! str_of_int uid = Some p ->
  exists c' p',
    (modify_knowledge (fun k =>
       set_qna (Some (dict_set (lower question) answer (default [] (qna k)))) k) ≫= fun _ =>
     update_user_stats now uid (u "learned_contributions") ≫= fun _ =>
     incr_statistic (u "learned_qna") ≫= fun _ =>
     incr_statistic (u "corrections_received") ≫= fun _ =>
     _save_knowledge ≫= fun _ =>
     mret (plain_outcome (correction_confirmation question answer))) c
    = (Ret (plain_outcome (correction_confirmation question answer)), c') /\
    ledger_invariant c' /\
    profiles c' = <[str_of_int uid := p']> (profiles c) /\
    total_messages p' = total_messages p /\
    learned_contributions p' = learned_contributions p + 1.
Proof.
  intros (Hok & Hkeyed & Hmsgs & [Hlearned Hrecv]) Hp.
  rewrite bind_run. unfold modify_knowledge at 1. cbn [modify].
  set (c1 := set_knowledge _ c).
  assert (profiles c1 = profiles c) as Hprof1 by done.
  assert (statistics (knowledge c1) = statistics (knowledge c)) as Hst1 by done.
  destruct (update_user_stats_known now uid (u "learned_contributions") c1 p)
    as (c2 & Hrun2 & _ & Hprof2 & Hst2).
  { by rewrite Hprof1. }
  { unfold stat. rewrite Hst1. apply counters_ok_no_text; [done | key_ne]. }
  rewrite bool_decide_eq_false_2, bool_decide_eq_true_2 in Hprof2 by (done || key_ne).
  rewrite Hprof1 in Hprof2. unfold stat in Hst2. rewrite Hst1 in Hst2.
  rewrite (bind_returns _ _ _ _ _ Hrun2).
  assert (forall key, key <> u "learned_contributions" ->
            stat c2 key = stat c key) as Hstat2.
  { intros key Hkey. unfold stat. rewrite Hst2.
    destruct (statistics (knowledge c) !! u "learned_contributions") as [[n|s]|]; try done.
    by rewrite lookup_insert_ne. }
  assert (counters_ok (statistics (knowledge c2))) as Hok2.
  { rewrite Hst2.
    destruct (statistics (knowledge c) !! u "learned_contributions") as [[n|s]|]; try done.
    by apply counters_ok_insert. }
  erewrite bind_returns; cycle 1.
  { apply incr_statistic_spec. rewrite Hstat2 by key_ne. exact Hlearned. }
  erewrite bind_returns; cycle 1.
  { apply incr_statistic_spec. unfold stat. cbn [knowledge set_knowledge statistics set_statistics].
    rewrite lookup_insert_ne by key_ne. fold (stat c2 (u "corrections_received")).
    rewrite Hstat2 by key_ne. exact Hrecv. }
  eexists _, _. split; [reflexivity|].
  split; [|split; [exact Hprof2 | by split]].
  unfold ledger_invariant, profiles_keyed, messages_counted, corrections_counted,
    stat, profiles.
  cbn [knowledge set_knowledge statistics set_statistics user_profiles].
  fold (profiles c2). rewrite Hprof2.
  split; [by do 2 apply counters_ok_insert|].
  split.
  { intros key q. rewrite lookup_insert.
    case_decide as Hk; [|apply Hkeyed]. intros [= <-]. subst key. by apply Hkeyed in Hp. }
  rewrite !(sum_profiles_insert_Some _ _ _ _ p) by done.
  rewrite lookup_insert_eq, !lookup_insert_ne by key_ne. rewrite lookup_insert_eq.
  fold (stat c2 (u "total_messages")). rewrite Hstat2 by key_ne.
  unfold messages_counted in Hmsgs. rewrite Hmsgs.
  split; [simpl; do 2 f_equal; lia|].
  split; simpl; do 2 f_equal; unfold profiles; lia.
Qed.

(** What a turn does to the ledger, whether it returns or raises: the
    message is filed on the profile of the user, a correction is
    filed there too, and the sums stay exact. *)
Lemma turn_ledger now rnd uid msg un fn ln flag data c :
  ledger_invariant c ->
  ledger_invariant (process_message now rnd uid msg un fn ln flag data c).2 /\
  exists p',
    profiles (process_message now rnd uid msg un fn ln flag data c).2
    = <[str_of_int uid := p']> (profiles c) /\
    total_messages p'
    = match profiles c !! str_of_int uid with
      | Some p0 => total_messages p0 + 1
      | None => 1
      end /\
    learned_contributions p'
    = contributions c uid
      + match correction_question flag data with Some _ => 1 | None => 0 end.
Proof.
  intros Hledger.
  destruct (prologue_counts now uid un fn ln c Hledger)
    as (p & c1 & c2 & p2 & Hrun1 & Hrun2 & _ & Hledger2 & Hprof2 & Hmsgs & Hcontrib).
  unfold process_message.
  rewrite (bind_returns _ _ _ _ _ Hrun1), (bind_returns _ _ _ _ _ Hrun2).
  destruct (correction_question flag data) as [question|].
  - destruct (correction_counts now uid question msg c2 p2 Hledger2)
      as (c' & p' & Hrun & Hledger' & Hprof' & Hmsgs' & Hcontrib').
    { by rewrite Hprof2, lookup_insert_eq. }
    rewrite Hrun. split; [done|]. exists p'. cbn [snd].
    rewrite Hprof', Hprof2, insert_insert_eq.
    split; [done|]. split; [by rewrite Hmsgs' | by rewrite Hcontrib', Hcontrib].
  - assert (same_ledger c2
              ((gets rules ≫= fun rs =>
                dispatch_rules now rnd uid msg p rs ≫= fun by_rule =>
                match by_rule with
                | Some outcome => mret outcome
                | None =>
                    _check_qna_match msg ≫= fun qna_answer =>
                    match qna_answer with
                    | Some (ch :: a) =>
                        _learn_from_interaction msg (ch :: a) uid ≫= fun _ =>
                        mret (plain_outcome (ch :: a))
                    | _ =>
                        if existsb (fun word => str_in word (lower msg)) weather_words then
                          match re_search_group [Lit (u "погода"); Rep is_space 1]
                                  (lower msg) with
                          | Some group1 =>
                              get_weather now (strip group1) ≫= fun weather =>
                              mret (plain_outcome weather)
                          | None =>
                              mret {| response := weather_city_prompt;
                                      needs_followup := true;
                                      action := Some (u "weather");
                                      correction_data := None |}
                          end
                        else
                          _calculate_confidence msg ≫= fun confidence =>
                          gets learning_modes ≫= fun modes =>
                          if bool_decide (confidence < confidence_threshold modes)%Qc
                             && auto_correction modes
                          then mret {| response := teach_me_prompt msg;
                                       needs_followup := true;
                                       action := Some (u "correction");
                                       correction_data :=
                                         Some {[ u "question" := msg ]} |}
                          else _get_fallback_response rnd msg ≫= fun text =>
                               mret (plain_outcome text)
                    end
                end) c2).2) as [Hs Hu].
    { revert c2 Hrun2 Hledger2 Hprof2.
      assert (forall m : M TurnOutcome, ensures same_ledger m ->
                forall c2, same_ledger c2 (m c2).2) as Hens by (intros m Hm c2; apply Hm).
      intros c2 _ _ _. apply Hens.
      unfold _check_qna_match, _calculate_confidence, _get_fallback_response.
      repeat first [ apply dispatch_rules_same_ledger
                   | apply learn_from_interaction_same_ledger
                   | apply get_weather_same_ledger
                   | ensures_step ]. }
    split; [eapply same_ledger_invariant; [by split | done]|].
    exists p2. unfold profiles at 1. rewrite Hu. fold (profiles c2).
    split; [done|]. split; [done | lia].
Qed.

Lemma serves_ledger c c' : serves c c' -> ledger_invariant c -> ledger_invariant c'.
Proof.
  intros [now rnd uid text un fn ln flag data | now city | | ] Hledger.
  - by apply turn_ledger.
  - eapply same_ledger_invariant; [apply get_weather_same_ledger | done].
  - eapply same_ledger_invariant; [|done]. by destruct c as [[]].
  - eapply same_ledger_invariant; [|done]. by destruct c.
Qed.

Lemma served_ledger c0 c : served c0 c -> ledger_invariant c0 -> ledger_invariant c.
Proof.
  induction 1 as [|c c' _ IH Hstep]; [done|].
  intros Hledger. eapply serves_ledger; [done | by apply IH].
Qed.

Lemma new_core_ledger now cfg : ledger_invariant (new_core (default_knowledge now) cfg).
Proof.
  split; [apply default_knowledge_well_formed|].
  split; [apply new_core_user_count|].
  by repeat split.
Qed.

(** X6. The counters of the statistics are exact sums over the
    profiles in every state the object goes through from the seed
    document on, by turns, weather lookups and the two buttons,
    whether the turns return or raise: [total_messages] is the sum of
    the users' [total_messages]; [learned_qna] and
    [corrections_received] are both the sum of the users'
    [learned_contributions], also after the memory was cleared. *)
Theorem X6_ledger_exact now cfg c :
  served (new_core (default_knowledge now) cfg) c ->
  stat c (u "total_messages") = Some (PInt (sum_profiles total_messages (profiles c))) /\
  stat c (u "learned_qna")
  = Some (PInt (sum_profiles learned_contributions (profiles c))) /\
  stat c (u "corrections_received")
  = Some (PInt (sum_profiles learned_contributions (profiles c))).
Proof.
  intros Hserved.
  destruct (served_ledger _ _ Hserved (new_core_ledger now cfg))
    as (_ & _ & Hmsgs & Hlearned & Hrecv).
  done.
Qed.

(** X7. A turn files its message whether it returns or raises: on an
    object with exact counters the profile of the user is written
    with one message more (one message, for a new user), one
    contribution more exactly when the turn is a correction with a
    question, no other profile is touched, and the global message
    count goes up by one. *)
Theorem X7_turn_files_message now rnd uid msg un fn ln flag data c :
  ledger_invariant c ->
  exists p' n,
    profiles (process_message now rnd uid msg un fn ln flag data c).2
    = <[str_of_int uid := p']> (profiles c) /\
    total_messages p'
    = match profiles c !! str_of_int uid with
      | Some p0 => total_messages p0 + 1
      | None => 1
      end /\
    learned_contributions p'
    = contributions c uid
      + match correction_question flag data with Some _ => 1 | None => 0 end /\
    stat c (u "total_messages") = Some (PInt n) /\
    stat (process_message now rnd uid msg un fn ln flag data c).2 (u "total_messages")
    = Some (PInt (n + 1)).
Proof.
  intros Hledger.
  destruct (turn_ledger now rnd uid msg un fn ln flag data c Hledger)
    as ((_ & _ & Hmsgs' & _) & p' & Hprof & Htm & Hlc).
  destruct Hledger as (_ & _ & Hmsgs & _).
  exists p', (sum_profiles total_messages (profiles c)).
  split; [done|]. split; [done|]. split; [done|]. split; [done|].
  unfold messages_counted in Hmsgs'. rewrite Hmsgs', Hprof. do 2 f_equal.
  destruct (profiles c !! str_of_int uid) as [p0|] eqn:Hp0.
  - rewrite (sum_profiles_insert_Some _ _ _ _ p0) by done. lia.
  - rewrite sum_profiles_insert_None by done. lia.
Qed.
End LedgerProperties.

Section LedgerSamples.
Import LatinCyrillic Runs.

Local Existing Instance runtime.

(** The state after the first greeting of user 42. *)
Lemma X6_witness :
  stat (say (WS := Providers.unknown_city) (u "Привет") fresh).2 (u "total_messages")
  = Some (PInt (sum_profiles total_messages
                  (profiles (say (WS := Providers.unknown_city) (u "Привет") fresh).2))) /\
  stat (say (WS := Providers.unknown_city) (u "Привет") fresh).2 (u "learned_qna")
  = Some (PInt (sum_profiles learned_contributions
                  (profiles (say (WS := Providers.unknown_city) (u "Привет") fresh).2))) /\
  stat (say (WS := Providers.unknown_city) (u "Привет") fresh).2 (u "corrections_received")
  = Some (PInt (sum_profiles learned_contributions
                  (profiles (say (WS := Providers.unknown_city) (u "Привет") fresh).2))).
Proof.
  apply (X6_ledger_exact (WS := Providers.unknown_city) t0 default_weather_config).
  eapply served_step; [apply served_start|]. apply serves_turn.
Defined.

(** The first greeting of user 42 on the fresh object. *)
Lemma X7_witness :
  exists p' n,
    profiles (say (WS := Providers.unknown_city) (u "Привет") fresh).2
    = <[str_of_int 42 := p']> (profiles fresh) /\
    total_messages p'
    = match profiles fresh !! str_of_int 42 with
      | Some p0 => total_messages p0 + 1
      | None => 1
      end /\
    learned_contributions p'
    = contributions fresh 42
      + match correction_question false None with Some _ => 1 | None => 0 end /\
    stat fresh (u "total_messages") = Some (PInt n) /\
    stat (say (WS := Providers.unknown_city) (u "Привет") fresh).2 (u "total_messages")
    = Some (PInt (n + 1)).
Proof.
  apply (X7_turn_files_message (WS := Providers.unknown_city) t0 0 42 (u "Привет")
           (Some (u "ivan")) (Some (u "Иван")) None false None fresh).
  apply new_core_ledger.
Defined.
End LedgerSamples.

(** ** Learning an answer and giving it *)

Section LearnedAnswer.
Context {RT : PyRuntime} {WS : WeatherService}.




(** X9. An empty answer on file is never given: when the question
    table holds the empty text for the lower-cased utterance, a turn
    that no rule and no weather word answers goes on to the
    confidence test with confidence 0.9, and with the threshold at
    most 0.9 it ends in one of the fallback responses. *)
Theorem X9_empty_answer_not_given now rnd uid msg un fn ln flag data c :
  counters_ok (statistics (knowledge c)) ->
  correction_question flag data = None ->
  (forall ph, ph ∈ rules c -> re_search ph.1 (lower msg) = false) ->
  existsb (fun word => str_in word (lower msg)) weather_words = false ->
  dict_get (lower msg) (stored_qna c) = Some [] ->
  (confidence_threshold (learning_modes c) ≤ Q2Qc (9 # 10))%Qc ->
  exists text c',
    process_message now rnd uid msg un fn ln flag data c = (Ret (plain_outcome text), c') /\
    text ∈ fallback_responses msg.
Proof.
  intros Hok Hnocorr Hnorule Hnoweather Hempty Hthreshold.
  assert (check_qna_match (stored_qna c) msg = Some []) as Hmatch.
  { unfold check_qna_match. by rewrite Hempty. }
  destruct (unanswered_turn now rnd uid msg un fn ln flag data c) as (c2 & _ & ->);
    try done.
  { intros ch a. by rewrite Hmatch. }
  assert (calculate_confidence (stored_qna c) msg = Q2Qc (9 # 10)) as ->.
  { unfold calculate_confidence. by rewrite Hempty. }
  rewrite bool_decide_eq_false_2 by (by apply Qcle_not_lt).
  cbn [andb].
  destruct (choice_spec rnd (fallback_responses msg) c2) as (text & Hchoice & Hin); [done|].
  exists text, c2. split; [|done].
  unfold _get_fallback_response. by rewrite (bind_returns _ _ _ _ _ Hchoice).
Qed.
End LearnedAnswer.

Section LearnedAnswerSamples.
Import LatinCyrillic Runs.

Local Existing Instance runtime.


(** The empty answer filed for "qwerty". *)
Lemma X9_witness :
  exists text c',
    process_message (WS := Providers.unknown_city) t0 0 42 (u "qwerty")
      (Some (u "ivan")) (Some (u "Иван")) None false None
      (set_knowledge (set_qna (Some [(u "qwerty", [])]) (default_knowledge t0)) fresh)
    = (Ret (plain_outcome text), c') /\
    text ∈ fallback_responses (u "qwerty").
Proof.
  apply (X9_empty_answer_not_given (WS := Providers.unknown_city) t0 0 42 (u "qwerty")
           (Some (u "ivan")) (Some (u "Иван")) None false None
           (set_knowledge (set_qna (Some [(u "qwerty", [])]) (default_knowledge t0)) fresh)).
  - apply default_knowledge_well_formed.
  - reflexivity.
  - apply no_rule_found. vm_compute. reflexivity.
  - vm_compute. reflexivity.
  - vm_compute. reflexivity.
  - vm_compute. discriminate.
Defined.
End LearnedAnswerSamples.

(** ** What a weather lookup leaves alone *)

Section WeatherFrame.
Context {RT : PyRuntime} {WS : WeatherService}.

(** X10. A weather lookup, whatever the provider answers, leaves the
    knowledge document and the configuration alone, sends at most
    one request (for the city as typed), writes the cache at most
    under the lower-cased city, and never drops an entry of the
    cache: an entry older than the cache duration stays until a
    successful answer for the same city replaces it. *)
Theorem X10_weather_lookup_frame now city c :
  knowledge (get_weather now city c).2 = knowledge c /\
  weather_config (get_weather now city c).2 = weather_config c /\
  learning_modes (get_weather now city c).2 = learning_modes c /\
  (http_requests (get_weather now city c).2 = http_requests c \/
   http_requests (get_weather now city c).2
   = http_requests c ++ [weather_url (weather_config c) city]) /\
  (forall key, key <> lower city ->
     weather_cache (get_weather now city c).2 !! key = weather_cache c !! key) /\
  (is_Some (weather_cache c !! lower city) ->
   is_Some (weather_cache (get_weather now city c).2 !! lower city)) /\
  (weather_cache (get_weather now city c).2 <> weather_cache c ->
   exists text,
     (get_weather now city c).1 = Ret text /\
     weather_cache (get_weather now city c).2
     = <[lower city := (now, text)]> (weather_cache c)).
Proof.
  unfold get_weather, try_except, request. mrun.
  destruct (cached_weather c (lower city) now); [by repeat split; auto|].
  case_bool_decide as Hkey; [by repeat split; auto|].
  destruct (http_get _ _) as [status json|e];
    [|destruct c; by repeat split; auto].
  repeat case_bool_decide; try (destruct c; by repeat split; auto).
  destruct json as [data|e]; [|destruct c; by repeat split; auto].
  destruct (_format_weather_data data) as [text|e];
    [|destruct c; by repeat split; auto].
  destruct c as [k cfg rs modes cache duration requests]. simpl.
  split; [done|]. split; [done|]. split; [done|]. split; [by right|].
  split; [intros key Hne; by rewrite lookup_insert_ne|].
  split; [intros _; rewrite lookup_insert_eq; by eexists|].
  intros _. by exists text.
Qed.
End WeatherFrame.

(** ** Remembered facts *)

Lemma dict_set_not_empty {V} (k : list N) (v : V) (d : list (list N * V)) :
  dict_set k v d <> [].
Proof. destruct d as [|[k' v'] d]; simpl; [done|]. by case_bool_decide. Qed.

Lemma dict_set_length_known {V} (k : list N) (v w : V) (d : list (list N * V)) :
  dict_get k d = Some w -> length (dict_set k v d) = length d.
Proof.
  induction d as [|[k' v'] d IH]; simpl; [done|].
  case_bool_decide; simpl; [done|]. intros Hget. by rewrite IH.
Qed.

Lemma dict_get_elem_of {V} (k : list N) (v : V) (d : list (list N * V)) :
  dict_get k d = Some v -> (k, v) ∈ d.
Proof.
  induction d as [|[k' v'] d IH]; simpl; [done|].
  case_bool_decide as Hk.
  - intros [= ->]. subst k'. apply list_elem_of_here.
  - intros Hget. apply list_elem_of_further. by apply IH.
Qed.

(** A search for a pattern that begins with a literal fails on a text
    without the literal. *)
Lemma re_search_group_needs_literal (l : list N) (items : list re_item) (s : list N) :
  str_in l s = false -> re_search_group (Lit l :: items) s = None.
Proof.
  induction s as [|ch s IH]; cbn [str_in re_search_group match_items].
  - intros [-> _]%orb_false_iff. done.
  - intros [-> Hrest]%orb_false_iff. by apply IH.
Qed.

Section RememberProperties.
Context {RT : PyRuntime}.

(** X11. A remembered fact is on file and is what recall tells: after
    [_remember_info] finds a fact in the message, the fact is stored
    under its first 50 characters with the clock reading and the
    user; from then on [_recall_info] answers with one of the stored
    facts and no longer looks at the question table, and with
    nothing else on file it answers with this very fact.  A fact
    whose first 50 characters are already a key replaces the older
    one: the table does not grow. *)
Theorem X11_remembered_fact_recalled now message p c g rnd message' :
  re_search_group
    [Lit (u "запомни"); Rep is_space 0; OptAlt [u "что"; u ","]; Rep is_space 0]
    (lower message) = Some g ->
  let entry := {| fact := strip g; learned_at := now; learned_by := user_id <$> p |} in
  let before := default [] (learned_facts (knowledge c)) in
  exists c',
    _remember_info now message p c = (Ret (remembered_text (strip g)), c') /\
    learned_facts (knowledge c') = Some (dict_set (take 50 (strip g)) entry before) /\
    dict_get (take 50 (strip g)) (default [] (learned_facts (knowledge c'))) = Some entry /\
    (exists f, f ∈ (default [] (learned_facts (knowledge c'))).*2 /\
               _recall_info rnd message' c' = (Ret (recall_text (fact f)), c')) /\
    (before = [] -> _recall_info rnd message' c' = (Ret (recall_text (strip g)), c')) /\
    (is_Some (dict_get (take 50 (strip g)) before) ->
     length (default [] (learned_facts (knowledge c'))) = length before).
Proof.
  intros Hfound entry before. unfold _remember_info. rewrite Hfound.
  exists (set_knowledge
            (set_learned_facts (Some (dict_set (take 50 (strip g)) entry before))
               (knowledge c)) c).
  split; [reflexivity|].
  cbn [knowledge set_knowledge learned_facts set_learned_facts].
  split; [done|]. split; [apply dict_get_set_eq|].
  assert (forall d : list (list N * LearnedFact), d <> [] ->
            forall c0, learned_facts (knowledge c0) = Some d ->
            exists f, f ∈ d.*2 /\ _recall_info rnd message' c0 = (Ret (recall_text (fact f)), c0))
    as Hrecall.
  { intros d Hd c0 Hc0. unfold _recall_info. rewrite bind_run. cbn [gets]. rewrite Hc0.
    destruct d as [|[key f] rest]; [done|].
    destruct (choice_spec rnd (snd <$> (key, f) :: rest) c0) as (x & Hchoice & Hin); [done|].
    exists x. split; [done|]. by rewrite (bind_returns _ _ _ _ _ Hchoice). }
  split; [|split].
  - apply Hrecall; [apply dict_set_not_empty | done].
  - intros Hempty. rewrite Hempty.
    unfold _recall_info. rewrite bind_run.
    cbn [gets knowledge set_knowledge learned_facts set_learned_facts dict_set].
    unfold choice. rewrite bind_run. cbn [fmap list_fmap length snd].
    by rewrite Nat.mod_1_r.
  - intros [w Hw]. by eapply dict_set_length_known.
Qed.

(** X12. Nothing is stored without the word "запомни": when the
    lower-cased message does not hold it, as in a message that met
    the rule through its other trigger "remember that",
    [_remember_info] answers with the usage hint and leaves the
    object as it is. *)
Theorem X12_remember_needs_the_keyword now message p c :
  str_in (u "запомни") (lower message) = false ->
  _remember_info now message p c = (Ret remember_usage, c).
Proof.
  intros Hmissing. unfold _remember_info.
  by rewrite re_search_group_needs_literal.
Qed.
End RememberProperties.

Section RememberSamples.
Import LatinCyrillic Runs.

Local Existing Instance runtime.

(** "запомни, что земля круглая" on the fresh object. *)
Lemma X11_witness :
  exists c',
    _remember_info t0 (u "Запомни, что Земля круглая") None fresh
    = (Ret (remembered_text (strip (u "что земля круглая"))), c') /\
    learned_facts (knowledge c')
    = Some (dict_set (take 50 (strip (u "что земля круглая")))
              {| fact := strip (u "что земля круглая"); learned_at := t0;
                 learned_by := user_id <$> None |}
              (default [] (learned_facts (knowledge fresh)))).
Proof.
  destruct (X11_remembered_fact_recalled t0 (u "Запомни, что Земля круглая") None fresh
              (u "что земля круглая") 0 (u "что ты знаешь"))
    as (c' & Hrun & Hfacts & _).
  - vm_compute. reflexivity.
  - by exists c'.
Defined.

(** The English trigger of the rule. *)
Lemma X12_witness :
  _remember_info t0 (u "remember that the sky is blue") None fresh
  = (Ret remember_usage, fresh).
Proof.
  apply (X12_remember_needs_the_keyword t0 (u "remember that the sky is blue") None fresh).
  vm_compute. reflexivity.
Defined.
End RememberSamples.

(** * The front end *)

Section EngineBehindTheBot.
Context {RT : PyRuntime} {WS : WeatherService}.

(** The weather lookup always returns a text. *)
Lemma get_weather_returns now city c : exists weather, (get_weather now city c).1 = Ret weather.
Proof.
  unfold get_weather, try_except, request. mrun.
  destruct (cached_weather c (lower city) now); [by eexists|].
  case_bool_decide; [by eexists|].
  destruct (http_get _ _) as [status json|e]; [|by eexists].
  repeat case_bool_decide; try (by eexists).
  destruct json as [data|e]; [|by eexists].
  destruct (_format_weather_data data); by eexists.
Qed.

(** The message count after a turn. *)
Lemma turn_message_count now rnd uid msg un fn ln flag data c :
  ledger_invariant c ->
  exists n,
    stat c (u "total_messages") = Some (PInt n) /\
    stat (process_message now rnd uid msg un fn ln flag data c).2 (u "total_messages")
    = Some (PInt (n + 1)).
Proof.
  intros Hledger.
  destruct (turn_ledger now rnd uid msg un fn ln flag data c Hledger)
    as ((_ & _ & Hmsgs' & _) & p' & Hprof & Htm & Hlc).
  destruct Hledger as (_ & _ & Hmsgs & _).
  exists (sum_profiles total_messages (profiles c)). split; [done|].
  unfold messages_counted in Hmsgs'. rewrite Hmsgs', Hprof. do 2 f_equal.
  destruct (profiles c !! str_of_int uid) as [p0|] eqn:Hp0.
  - rewrite (sum_profiles_insert_Some _ _ _ _ p0) by done. lia.
  - rewrite sum_profiles_insert_None by done. lia.
Qed.

(** The teach-me prompt is only given with automatic correction
    on. *)
Lemma teach_needs_auto now rnd uid msg un fn ln flag data c outcome c' :
  process_message now rnd uid msg un fn ln flag data c = (Ret outcome, c') ->
  action outcome = Some (u "correction") ->
  auto_correction (learning_modes c) = true.
Proof.
  unfold process_message. rewrite bind_run.
  pose proof (get_or_create_same_object now uid un fn ln c) as H1.
  destruct (get_or_create_user_profile now uid un fn ln c) as [[p|e] c1]; [|done].
  rewrite bind_run.
  pose proof (update_user_stats_same_object now uid (u "total_messages") c1) as H2.
  destruct (update_user_stats now uid (u "total_messages") c1) as [[[]|e] c2]; [|done].
  simpl in H1, H2.
  assert (learning_modes c2 = learning_modes c) as Hmodes2.
  { apply same_object_fields in H1 as (_ & _ & Hm1 & _).
    apply same_object_fields in H2 as (_ & _ & Hm2 & _). by rewrite Hm2, Hm1. }
  destruct (correction_question flag data) as [question|].
  - rewrite bind_run. unfold modify_knowledge at 1. cbn [modify].
    rewrite bind_run.
    destruct (update_user_stats now uid (u "learned_contributions") _) as [[[]|e] c3];
      [|done].
    rewrite bind_run.
    destruct (incr_statistic (u "learned_qna") c3) as [[[]|e] c4]; [|done].
    rewrite bind_run.
    destruct (incr_statistic (u "corrections_received") c4) as [[[]|e] c5]; [|done].
    by intros [= <- <-].
  - rewrite bind_run. cbn [gets]. rewrite bind_run.
    pose proof (dispatch_rules_same_object now rnd uid msg p (rules c2) c2) as H3.
    destruct (dispatch_rules now rnd uid msg p (rules c2) c2) as [[[o|]|e] c3] eqn:Hdispatch;
      [| |done].
    { intros [= <- <-]. by apply dispatch_rules_outcome in Hdispatch as [body ->]. }
    simpl in H3.
    assert (learning_modes c3 = learning_modes c) as Hmodes3.
    { apply same_object_fields in H3 as (_ & _ & Hm3 & _). by rewrite Hm3. }
    rewrite bind_run. unfold _check_qna_match at 1. rewrite bind_run. cbn [gets mret M_ret].
    assert (forall c4, learning_modes c4 = learning_modes c ->
      (if existsb (fun word => str_in word (lower msg)) weather_words
       then
         match re_search_group [Lit (u "погода"); Rep is_space 1] (lower msg) with
         | Some group1 =>
             get_weather now (strip group1) ≫= fun weather => mret (plain_outcome weather)
         | None =>
             mret {| response := weather_city_prompt; needs_followup := true;
                     action := Some (u "weather"); correction_data := None |}
         end
       else
         _calculate_confidence msg ≫= fun confidence =>
         gets learning_modes ≫= fun modes =>
         if bool_decide (confidence < confidence_threshold modes)%Qc
            && auto_correction modes
         then mret {| response := teach_me_prompt msg; needs_followup := true;
                      action := Some (u "correction");
                      correction_data := Some {[ u "question" := msg ]} |}
         else _get_fallback_response rnd msg ≫= fun text => mret (plain_outcome text)) c4
      = (Ret outcome, c') ->
      action outcome = Some (u "correction") ->
      auto_correction (learning_modes c) = true) as Hrest.
    { intros c4 Hmodes4. destruct (existsb _ weather_words).
      - destruct (re_search_group _ _) as [group1|].
        + rewrite bind_run.
          destruct (get_weather now (strip group1) c4) as [[weather|e] c5]; [|done].
          by intros [= <- <-].
        + intros [= <- <-]. simpl. key_ne.
      - rewrite bind_run. unfold _calculate_confidence. rewrite bind_run.
        cbn [gets mret M_ret]. rewrite bind_run. cbn [gets]. rewrite Hmodes4.
        destruct (auto_correction (learning_modes c)); [done|].
        rewrite andb_false_r. rewrite bind_run.
        destruct (_get_fallback_response rnd msg c4) as [[body|e] c5]; [|done].
        by intros [= <- <-]. }
    destruct (check_qna_match (default [] (qna (knowledge c3))) msg) as [[|ch a]|].
    + by apply Hrest.
    + rewrite bind_run.
      destruct (_learn_from_interaction msg (ch :: a) uid c3) as [[[]|e] c4]; [|done].
      by intros [= <- <-].
    + by apply Hrest.
Qed.
End EngineBehindTheBot.

(** FRONTEND-PROOFS *)

(** ** The bot on a sample chat *)

Section FrontEndSamples.
Import LatinCyrillic Runs Chats.

Local Existing Instance runtime.

(** X21. Every button of the main keyboard is answered by a rule:
    on an object with a well-formed document and the registered
    rules, the text of each button, sent as a message, is met by the
    rule of weather, time, statistics, help, help and jokes in turn
    and answered by that handler with a plain response.  The weather
    button is answered by the prompt of the weather rule and opens no
    dialogue. *)
Theorem X21_main_keyboard_answered {WS : WeatherService} now rnd uid un fn ln c rows button :
  well_formed (knowledge c) ->
  rules c = default_rules ->
  _get_main_keyboard = ReplyKeyboardMarkup rows ->
  button ∈ concat rows ->
  exists h body c',
    (button, h) ∈ [(u "🌤️ Погода", weather_handler); (u "🕐 Время", time);
                   (u "📊 Статистика", stats_handler); (u "❓ Помощь", help);
                   (u "🎯 Что ты умеешь?", help); (u "😂 Анекдот", joke_handler)] /\
    process_message now rnd uid button un fn ln false None c = (Ret (plain_outcome body), c') /\
    declared_variant (knowledge c) now h body.
Proof.
  intros Hwf Hrules [= <-] Hbutton.
  assert (forall n pattern h,
            default_rules !! n = Some (pattern, h) ->
            forallb (fun ph : list N * handler => negb (re_search ph.1 (lower button)))
              (take n default_rules) = true ->
            re_search pattern (lower button) = true ->
            exists body c',
              process_message now rnd uid button un fn ln false None c
              = (Ret (plain_outcome body), c') /\
              declared_variant (knowledge c) now h body) as Hrule.
  { intros n pattern h Hn Hbefore Hhit.
    destruct (rule_turn_spec now rnd uid button un fn ln false None c
                (take n default_rules) pattern h (drop (S n) default_rules))
      as (body & c' & Hrun & Hdv & _); try done.
    - rewrite Hrules. symmetry. by apply take_drop_middle.
    - by apply no_rule_found.
    - by exists body, c'. }
  cbn [concat app] in Hbutton.
  repeat (apply elem_of_cons in Hbutton as [->|Hbutton]).
  - destruct (Hrule 13%nat (u "погода|weather|прогноз") weather_handler)
      as (body & c' & Hrun & Hdv); [done | by vm_compute | by vm_compute |].
    exists weather_handler, body, c'. split; [|done]. apply list_elem_of_here.
  - destruct (Hrule 7%nat (u "время|который час|time") time)
      as (body & c' & Hrun & Hdv); [done | by vm_compute | by vm_compute |].
    exists time, body, c'. split; [|done].
    apply list_elem_of_further, list_elem_of_here.
  - destruct (Hrule 14%nat (u "статистика|stats|моя статистика") stats_handler)
      as (body & c' & Hrun & Hdv); [done | by vm_compute | by vm_compute |].
    exists stats_handler, body, c'. split; [|done].
    do 2 apply list_elem_of_further. apply list_elem_of_here.
  - destruct (Hrule 6%nat (u "помощь|help|что ты умеешь") help)
      as (body & c' & Hrun & Hdv); [done | by vm_compute | by vm_compute |].
    exists help, body, c'. split; [|done].
    do 3 apply list_elem_of_further. apply list_elem_of_here.
  - destruct (Hrule 6%nat (u "помощь|help|что ты умеешь") help)
      as (body & c' & Hrun & Hdv); [done | by vm_compute | by vm_compute |].
    exists help, body, c'. split; [|done].
    do 4 apply list_elem_of_further. apply list_elem_of_here.
  - destruct (Hrule 17%nat (u "анекдот|шутка|расскажи шутку") joke_handler)
      as (body & c' & Hrun & Hdv); [done | by vm_compute | by vm_compute |].
    exists joke_handler, body, c'. split; [|done].
    do 5 apply list_elem_of_further. apply list_elem_of_here.
  - by apply elem_of_nil in Hbutton.
Qed.

(** The main keyboard's weather button on the fresh object. *)
Lemma X21_witness :
  exists h body c',
    (u "🌤️ Погода", h)
    ∈ [(u "🌤️ Погода", weather_handler); (u "🕐 Время", time);
       (u "📊 Статистика", stats_handler); (u "❓ Помощь", help);
       (u "🎯 Что ты умеешь?", help); (u "😂 Анекдот", joke_handler)] /\
    process_message (WS := Providers.unknown_city) t0 0 42 (u "🌤️ Погода")
      (Some (u "ivan")) (Some (u "Иван")) None false None fresh
    = (Ret (plain_outcome body), c') /\
    declared_variant (knowledge fresh) t0 h body.
Proof.
  refine (X21_main_keyboard_answered (WS := Providers.unknown_city) t0 0 42
            (Some (u "ivan")) (Some (u "Иван")) None fresh
            [[u "🌤️ Погода"; u "🕐 Время"];
             [u "📊 Статистика"; u "❓ Помощь"];
             [u "🎯 Что ты умеешь?"; u "😂 Анекдот"]] (u "🌤️ Погода") _ _ _ _).
  - apply default_knowledge_well_formed.
  - reflexivity.
  - reflexivity.
  - apply list_elem_of_here.
Defined.

End FrontEndSamples.

(** ** The statistics shown to a user *)

Section StatsShown.
Context {RT : PyRuntime} {WS : WeatherService}.

(** The profile handed to the handlers is the one read before the
    message is counted. *)
Lemma prologue_profile now uid un fn ln c :
  ledger_invariant c ->
  exists p c1 c2 p2 n,
    get_or_create_user_profile now uid un fn ln c = (Ret p, c1) /\
    update_user_stats now uid (u "total_messages") c1 = (Ret tt, c2) /\
    match profiles c !! str_of_int uid with
    | Some p0 =>
        total_messages p = total_messages p0 /\
        learned_contributions p = learned_contributions p0 /\
        conversation_count p = conversation_count p0
    | None =>
        total_messages p = 0 /\ learned_contributions p = 0 /\ conversation_count p = 1
    end /\
    same_store c c2 /\ ledger_invariant c2 /\
    profiles c2 !! str_of_int uid = Some p2 /\
    total_messages p2 = total_messages p + 1 /\
    stat c (u "total_messages") = Some (PInt n) /\
    stat c2 (u "total_messages") = Some (PInt (n + 1)) /\
    stat c2 (u "learned_qna") = stat c (u "learned_qna").
Proof.
  intros Hledger.
  destruct (prologue_counts now uid un fn ln c Hledger)
    as (p & c1 & c2 & p2 & Hrun1 & Hrun2 & Hstore & Hledger2 & Hprof2 & Htm2 & Hlc2).
  pose proof Hledger as (Hok & _ & Hmsgs & Hlearned & _).
  pose proof Hledger2 as (_ & _ & Hmsgs2 & Hlearned2 & _).
  exists p, c1, c2, p2, (sum_profiles total_messages (profiles c)).
  split; [done|]. split; [done|].
  assert (match profiles c !! str_of_int uid with
          | Some p0 =>
              total_messages p = total_messages p0 /\
              learned_contributions p = learned_contributions p0 /\
              conversation_count p = conversation_count p0
          | None =>
              total_messages p = 0 /\ learned_contributions p = 0 /\ conversation_count p = 1
          end) as Hp.
  { destruct (profiles c !! str_of_int uid) as [p0|] eqn:Hp0.
    - rewrite (get_or_create_known now uid un fn ln c p0 Hp0) in Hrun1.
      by injection Hrun1 as <- _.
    - destruct (total_users c) as [m|s] eqn:Hm.
      + rewrite (get_or_create_new now uid un fn ln c m Hp0 Hm) in Hrun1.
        by injection Hrun1 as <- _.
      + by destruct (get_or_create_new_raises now uid un fn ln c s _ _ Hp0 Hm Hrun1). }
  split; [exact Hp|]. split; [done|]. split; [done|].
  split; [by rewrite Hprof2, lookup_insert_eq|].
  split.
  { rewrite Htm2. destruct (profiles c !! str_of_int uid) as [p0|];
      destruct Hp as (-> & _); done. }
  split; [done|].
  split.
  { unfold messages_counted in Hmsgs2. rewrite Hmsgs2, Hprof2. do 2 f_equal.
    destruct (profiles c !! str_of_int uid) as [p0|] eqn:Hp0.
    - rewrite (sum_profiles_insert_Some _ _ _ _ p0) by done. lia.
    - rewrite sum_profiles_insert_None by done. lia. }
  rewrite Hlearned2, Hlearned, Hprof2. do 2 f_equal.
  unfold contributions in Hlc2.
  destruct (profiles c !! str_of_int uid) as [p0|] eqn:Hp0.
  - rewrite (sum_profiles_insert_Some _ _ _ _ p0) by done. lia.
  - rewrite sum_profiles_insert_None by done. lia.
Qed.

(** X23. The statistics rule shows the user their count from before
    the turn: on an object with exact counters, a message met first
    by the statistics rule is answered with the global message count
    that includes this message, and with the user's own figures as
    they were before it was counted, a new user being shown 0
    messages; the profile on file after the turn has one message
    more than the figure shown. *)
Theorem X23_stats_show_count_before_turn now rnd uid msg un fn ln c before after :
  ledger_invariant c ->
  rules c = before ++ (u "статистика|stats|моя статистика", stats_handler) :: after ->
  (forall ph, ph ∈ before -> re_search ph.1 (lower msg) = false) ->
  re_search (u "статистика|stats|моя статистика") (lower msg) = true ->
  exists n learned shown contributed conversations c' p',
    stat c (u "total_messages") = Some (PInt n) /\
    stat c' (u "learned_qna") = Some learned /\
    match profiles c !! str_of_int uid with
    | Some p0 =>
        shown = total_messages p0 /\ contributed = learned_contributions p0 /\
        conversations = conversation_count p0
    | None => shown = 0 /\ contributed = 0 /\ conversations = 1
    end /\
    process_message now rnd uid msg un fn ln false None c
    = (Ret (plain_outcome
              (stats_text (PInt (n + 1)) learned (total_users c')
                 (user_stats_text shown contributed conversations))), c') /\
    profiles c' !! str_of_int uid = Some p' /\
    total_messages p' = shown + 1.
Proof.
  intros Hledger Hrules Hbefore Hhit.
  destruct (prologue_profile now uid un fn ln c Hledger)
    as (p & c1 & c2 & p2 & n & Hrun1 & Hrun2 & Hp & Hstore & Hledger2 & Hp2 & Htm2
        & Hn & Hn2 & Hlq2).
  destruct Hstore as (Hobj & _).
  apply same_object_fields in Hobj as (_ & Hrules2 & _).
  destruct Hledger2 as (Hok2 & _).
  destruct (counters_ok_counter _ (u "learned_qna") Hok2) as [l Hl];
    [key_ne | apply Hok2 |].
  set (body := stats_text (PInt (n + 1)) (PInt l) (total_users c2)
                 (user_stats_text (total_messages p) (learned_contributions p)
                    (conversation_count p))).
  assert (call_handler stats_handler now rnd msg (Some p) c2 = (Ret body, c2)) as Hcall.
  { simpl. unfold _stats_handler. rewrite bind_run. cbn [gets].
    unfold getitem. unfold stat in Hn2. rewrite bind_run, Hn2. cbn [mret M_ret].
    rewrite bind_run, Hl. reflexivity. }
  destruct (learn_from_interaction_spec msg body uid c2)
    as (c3 & Hrun3 & _ & _ & Hs3 & _ & Hu3 & _).
  exists n, (PInt l), (total_messages p), (learned_contributions p),
    (conversation_count p), c3, p2.
  split; [done|].
  split; [unfold stat; by rewrite Hs3|].
  split; [by destruct (profiles c !! str_of_int uid)|].
  split.
  { unfold process_message.
    rewrite (bind_returns _ _ _ _ _ Hrun1), (bind_returns _ _ _ _ _ Hrun2).
    cbn [correction_question]. rewrite bind_run. cbn [gets].
    rewrite Hrules2, Hrules.
    assert (dispatch_rules now rnd uid msg p
              (before ++ (u "статистика|stats|моя статистика", stats_handler) :: after) c2
            = (Ret (Some (plain_outcome body)), c3)) as Hdispatch.
    { rewrite dispatch_rules_hit by done.
      by rewrite (bind_returns _ _ _ _ _ Hcall), (bind_returns _ _ _ _ _ Hrun3). }
    rewrite (bind_returns _ _ _ _ _ Hdispatch).
    cbn [mret M_ret]. do 4 f_equal.
    unfold total_users, stat. by rewrite Hs3. }
  split; [unfold profiles; rewrite Hu3; exact Hp2 | done].
Qed.
End StatsShown.

Section StatsShownSamples.
Import LatinCyrillic Runs.

Local Existing Instance runtime.

(** "статистика" as the first message of user 42. *)
Lemma X23_witness :
  exists n learned shown contributed conversations c' p',
    stat fresh (u "total_messages") = Some (PInt n) /\
    stat c' (u "learned_qna") = Some learned /\
    match profiles fresh !! str_of_int 42 with
    | Some p0 =>
        shown = total_messages p0 /\ contributed = learned_contributions p0 /\
        conversations = conversation_count p0
    | None => shown = 0 /\ contributed = 0 /\ conversations = 1
    end /\
    process_message (WS := Providers.unknown_city) t0 0 42 (u "статистика")
      (Some (u "ivan")) (Some (u "Иван")) None false None fresh
    = (Ret (plain_outcome
              (stats_text (PInt (n + 1)) learned (total_users c')
                 (user_stats_text shown contributed conversations))), c') /\
    profiles c' !! str_of_int 42 = Some p' /\
    total_messages p' = shown + 1.
Proof.
  refine (X23_stats_show_count_before_turn (WS := Providers.unknown_city) t0 0 42
            (u "статистика") (Some (u "ivan")) (Some (u "Иван")) None fresh
            (take 14 default_rules) (drop 15 default_rules) _ _ _ _).
  - apply new_core_ledger.
  - reflexivity.
  - apply no_rule_found. vm_compute. reflexivity.
  - vm_compute. reflexivity.
Defined.
End StatsShownSamples.

(** ** The key of an interaction *)

Lemma str_leb_total (a b : list N) : str_leb a b = false -> str_leb b a = true.
Proof.
  revert b. induction a as [|c a IH]; intros [|d b]; simpl; try done.
  intros [Hlt Heq]%orb_false_iff.
  apply N.ltb_ge in Hlt. apply orb_true_iff.
  destruct (decide (c = d)) as [->|Hne].
  - right. rewrite bool_decide_eq_true_2 in * by done. simpl in *. by apply IH.
  - left. apply N.ltb_lt. lia.
Qed.

Lemma str_leb_antisym (a b : list N) :
  str_leb a b = true -> str_leb b a = true -> a = b.
Proof.
  revert b. induction a as [|c a IH]; intros [|d b]; simpl; try done.
  intros [Hlt|[Heq Hrest]%andb_true_iff]%orb_true_iff
         [Hlt'|[Heq' Hrest']%andb_true_iff]%orb_true_iff.
  - apply N.ltb_lt in Hlt, Hlt'. lia.
  - apply N.ltb_lt in Hlt. apply bool_decide_eq_true_1 in Heq'. lia.
  - apply N.ltb_lt in Hlt'. apply bool_decide_eq_true_1 in Heq. lia.
  - apply bool_decide_eq_true_1 in Heq as ->. f_equal. by apply IH.
Qed.

Lemma str_leb_trans (a b c : list N) :
  str_leb a b = true -> str_leb b c = true -> str_leb a c = true.
Proof.
  revert b c. induction a as [|x a IH]; intros [|y b] [|z c]; simpl; try done.
  intros [Hlt|[Heq Hrest]%andb_true_iff]%orb_true_iff
         [Hlt'|[Heq' Hrest']%andb_true_iff]%orb_true_iff;
    apply orb_true_iff.
  - left. apply N.ltb_lt in Hlt, Hlt'. apply N.ltb_lt. lia.
  - left. apply bool_decide_eq_true_1 in Heq' as <-. done.
  - left. apply bool_decide_eq_true_1 in Heq as ->. done.
  - right. apply bool_decide_eq_true_1 in Heq as ->.
    rewrite Heq'. simpl. by eapply IH.
Qed.

Global Instance str_leb_transitive : Transitive (fun a b => str_leb a b = true).
Proof. intros a b c. apply str_leb_trans. Qed.

Global Instance str_leb_anti_symm : AntiSymm (=) (fun a b => str_leb a b = true).
Proof. intros a b. apply str_leb_antisym. Qed.

Lemma insert_sorted_perm (x : list N) (l : list (list N)) : insert_sorted x l ≡ₚ x :: l.
Proof.
  induction l as [|y l IH]; simpl; [done|].
  destruct (str_leb y x); [|done].
  rewrite IH. apply perm_swap.
Qed.

Lemma insert_sorted_Sorted (x : list N) (l : list (list N)) :
  Sorted (fun a b => str_leb a b = true) l ->
  Sorted (fun a b => str_leb a b = true) (insert_sorted x l).
Proof.
  induction 1 as [|y l Hsorted IH Hhd]; simpl; [by repeat constructor|].
  destruct (str_leb y x) eqn:Hyx.
  - constructor; [done|].
    destruct Hhd as [|z l Hyz]; simpl; [by constructor|].
    destruct (str_leb z x); by constructor.
  - constructor; [by constructor|]. constructor. by apply str_leb_total.
Qed.

Lemma foldr_insert_sorted (l : list (list N)) :
  Sorted (fun a b => str_leb a b = true) (foldr insert_sorted [] l) /\
  foldr insert_sorted [] l ≡ₚ l.
Proof.
  induction l as [|x l [IHs IHp]]; simpl; [by split; constructor|].
  split; [by apply insert_sorted_Sorted|].
  by rewrite insert_sorted_perm, IHp.
Qed.

(** [sorted] sorts: its result is ordered and holds the same
    strings. *)
Lemma sorted_spec (l : list (list N)) :
  Sorted (fun a b => str_leb a b = true) (sorted l) /\ sorted l ≡ₚ l.
Proof.
  unfold sorted. destruct (foldr_insert_sorted (rev l)) as [Hs Hp].
  split; [done|]. rewrite Hp. symmetry. apply Permutation_rev.
Qed.

(** The sorted list depends only on the strings, not on their
    order. *)
Lemma sorted_perm (l l' : list (list N)) : l ≡ₚ l' -> sorted l = sorted l'.
Proof.
  intros Hperm.
  destruct (sorted_spec l) as [Hs Hp], (sorted_spec l') as [Hs' Hp'].
  apply (Sorted_unique (fun a b => str_leb a b = true)); [done..|].
  by rewrite Hp, Hp'.
Qed.

Section InteractionKey.
Context {RT : PyRuntime}.

(** X24. An answered question is counted under a key that does not
    depend on the order of its words: with fewer than two keywords
    [_learn_from_interaction] changes nothing; otherwise it raises by
    one the count of the answer under the two smallest keywords
    joined by a blank, and no other count; and two questions with the
    same keywords in any order have the same key. *)
Theorem X24_interaction_counted question answer uid c :
  let keywords := _extract_keywords (lower question) in
  let key := join (u " ") (take 2 (sorted keywords)) in
  ((length keywords < 2)%nat ->
   _learn_from_interaction question answer uid c = (Ret tt, c)) /\
  ((2 <= length keywords)%nat ->
   exists c',
     _learn_from_interaction question answer uid c = (Ret tt, c') /\
     interaction_count c' key answer = interaction_count c key answer + 1 /\
     (forall key' answer', key' <> key \/ answer' <> answer ->
        interaction_count c' key' answer' = interaction_count c key' answer') /\
     qna (knowledge c') = qna (knowledge c) /\
     same_ledger c c') /\
  (forall question',
     _extract_keywords (lower question') ≡ₚ keywords ->
     join (u " ") (take 2 (sorted (_extract_keywords (lower question')))) = key).
Proof.
  intros keywords key. split; [|split].
  - intros Hfew. unfold _learn_from_interaction. fold keywords.
    rewrite bool_decide_eq_false_2 by lia. done.
  - intros Hmany. unfold _learn_from_interaction. fold keywords. fold key.
    rewrite bool_decide_eq_true_2 by done.
    eexists. split; [reflexivity|].
    unfold interaction_count.
    cbn [snd knowledge set_knowledge interaction_stats set_interaction_stats default
         id from_option].
    split.
    { rewrite lookup_insert_eq. cbn [default id from_option].
      by rewrite lookup_insert_eq. }
    split; [|by destruct c as [[]]].
    intros key' answer' Hother.
    destruct (decide (key' = key)) as [->|Hkey].
    + destruct Hother as [?|Hanswer]; [done|].
      rewrite lookup_insert_eq. cbn [default id from_option].
      by rewrite lookup_insert_ne.
    + by rewrite lookup_insert_ne.
  - intros question' Hperm. subst key. by rewrite (sorted_perm _ _ Hperm).
Qed.
End InteractionKey.

Section InteractionKeySamples.
Import LatinCyrillic Runs.

Local Existing Instance runtime.

(** The same three words in two orders. *)
Lemma X24_witness :
  join (u " ") (take 2 (sorted (_extract_keywords (lower (u "Москва: погода завтра")))))
  = join (u " ") (take 2 (sorted (_extract_keywords (lower (u "погода завтра москва"))))).
Proof.
  refine (proj2 (proj2 (X24_interaction_counted (u "погода завтра москва") (u "ясно") 42
                          fresh)) (u "Москва: погода завтра") _).
  apply (bool_decide_unpack _). vm_compute. exact I.
Defined.
End InteractionKeySamples.

(** ** The engine never raises on a well-formed document *)

Global Instance shape_kept_preorder : PreOrder shape_kept.
Proof.
  split; [intros c Hwf; exact Hwf|].
  intros c1 c2 c3 H12 H23 Hwf. by apply H23, H12.
Qed.

Lemma existsb_false_all {A} (f : A -> bool) (l : list A) :
  existsb f l = false -> forall x, x ∈ l -> f x = false.
Proof.
  induction l as [|y l IH]; simpl.
  - intros _ x Hx. by apply elem_of_nil in Hx.
  - intros [Hy Hl]%orb_false_iff x [->|Hx]%elem_of_cons; [done | by apply IH].
Qed.

Section NeverRaises.
Context {RT : PyRuntime} {WS : WeatherService}.

Lemma same_store_shape c c' :
  same_store c c' ->
  counters_ok (statistics (knowledge c')) ->
  shape_kept c c'.
Proof.
  intros (_ & Hf & Hq & _) Hok (_ & Hfacts & Hqna).
  unfold well_formed. by rewrite Hf, Hq.
Qed.

Lemma get_or_create_shape now uid un fn ln :
  ensures shape_kept (get_or_create_user_profile now uid un fn ln).
Proof.
  intros c Hwf. pose proof Hwf as (Hok & _).
  destruct (get_or_create_spec now uid un fn ln c) as (p & c' & Hrun & Hstore & _ & Hcase).
  { apply counters_ok_no_text; [done | key_ne]. }
  rewrite Hrun. cbn [snd]. apply (same_store_shape c); [done| |done].
  destruct (profiles c !! str_of_int uid).
  - destruct Hcase as (_ & _ & ->). done.
  - destruct Hcase as (_ & _ & _ & n & _ & ->). by apply counters_ok_insert.
Qed.

Lemma update_user_stats_shape now uid field :
  field <> u "first_start" -> ensures shape_kept (update_user_stats now uid field).
Proof.
  intros Hfield c Hwf. pose proof Hwf as (Hok & _).
  destruct (update_user_stats_spec now uid field c) as (c' & Hrun & Hstore & Hst & _).
  { by apply counters_ok_no_text. }
  rewrite Hrun. cbn [snd]. apply (same_store_shape c); [done| |done].
  rewrite Hst. destruct (stat c field) as [[n|s]|]; try done.
  by apply counters_ok_insert.
Qed.

Lemma incr_statistic_shape key : ensures shape_kept (incr_statistic key).
Proof.
  intros c (Hok & Hfacts & Hqna). unfold incr_statistic. rewrite bind_run. cbn [gets].
  unfold getitem. destruct (statistics (knowledge c) !! key) as [[n|s]|]; [|done|done].
  simpl. split; [by apply counters_ok_insert | done].
Qed.

Lemma call_handler_shape h now rnd message p :
  ensures shape_kept (call_handler h now rnd message p).
Proof.
  intros c Hwf. eapply handler_frame_well_formed; [apply call_handler_ensures | done].
Qed.

Lemma learn_from_interaction_shape question answer uid :
  ensures shape_kept (_learn_from_interaction question answer uid).
Proof.
  intros c.
  destruct (learn_from_interaction_spec question answer uid c)
    as (c' & Hrun & _ & Hf & Hs & Hq & _).
  rewrite Hrun. unfold shape_kept, well_formed. cbn [snd]. by rewrite Hf, Hs, Hq.
Qed.

Lemma get_weather_shape now city : ensures shape_kept (get_weather now city).
Proof. intros c. unfold shape_kept. by rewrite get_weather_same_knowledge. Qed.

Lemma dispatch_rules_shape now rnd uid msg p rs :
  ensures shape_kept (dispatch_rules now rnd uid msg p rs).
Proof.
  induction rs as [|[pattern h] rs IH]; simpl; [apply ensures_ret; apply _|].
  destruct (re_search pattern (lower msg)); [|exact IH].
  repeat first [ apply call_handler_shape
               | apply learn_from_interaction_shape
               | ensures_step ].
Qed.

(** A turn keeps the document well-formed, whether it returns or
    raises. *)
Lemma process_message_shape now rnd uid msg un fn ln flag data :
  ensures shape_kept (process_message now rnd uid msg un fn ln flag data).
Proof.
  unfold process_message, _check_qna_match, _calculate_confidence,
    _get_fallback_response, _save_knowledge.
  repeat first
    [ apply get_or_create_shape
    | apply update_user_stats_shape; key_ne
    | apply incr_statistic_shape
    | apply dispatch_rules_shape
    | apply learn_from_interaction_shape
    | apply get_weather_shape
    | ensures_step ].
  apply ensures_modify. intros c (Hok & Hfacts & Hqna). by split.
Qed.

(** The writes of a correction turn return. *)
Lemma correction_chain_returns now uid question answer c :
  counters_ok (statistics (knowledge c)) ->
  exists c',
    (modify_knowledge (fun k =>
       set_qna (Some (dict_set (lower question) answer (default [] (qna k)))) k) ≫= fun _ =>
     update_user_stats now uid (u "learned_contributions") ≫= fun _ =>
     incr_statistic (u "learned_qna") ≫= fun _ =>
     incr_statistic (u "corrections_received") ≫= fun _ =>
     _save_knowledge ≫= fun _ =>
     mret (plain_outcome (correction_confirmation question answer))) c
    = (Ret (plain_outcome (correction_confirmation question answer)), c').
Proof.
  intros Hok.
  set (c3 := set_knowledge
               (set_qna (Some (dict_set (lower question) answer
                                 (default [] (qna (knowledge c)))))
                  (knowledge c)) c).
  rewrite (bind_returns _ _ c c3 tt) by reflexivity.
  assert (counters_ok (statistics (knowledge c3))) as Hok3 by (by destruct c as [[]]).
  destruct (update_user_stats_spec now uid (u "learned_contributions") c3)
    as (c4 & Hrun4 & Hstore4 & Hst4 & _).
  { apply counters_ok_no_text; [done | key_ne]. }
  rewrite (bind_returns _ _ _ _ _ Hrun4).
  assert (counters_ok (statistics (knowledge c4))) as Hok4.
  { rewrite Hst4. destruct (stat c3 (u "learned_contributions")) as [[n|s]|]; try done.
    by apply counters_ok_insert. }
  destruct (counters_ok_counter _ (u "learned_qna") Hok4) as [n Hn];
    [key_ne | apply Hok4 |].
  erewrite bind_returns; cycle 1.
  { apply incr_statistic_spec. exact Hn. }
  destruct (counters_ok_counter _ (u "corrections_received") Hok4) as [m Hm];
    [key_ne | apply Hok4 |].
  erewrite bind_returns; cycle 1.
  { apply incr_statistic_spec. unfold stat.
    cbn [knowledge set_knowledge statistics set_statistics].
    rewrite lookup_insert_ne by key_ne. exact Hm. }
  by eexists.
Qed.

Lemma turn_returns now rnd uid msg un fn ln flag data c :
  well_formed (knowledge c) ->
  exists outcome c', process_message now rnd uid msg un fn ln flag data c = (Ret outcome, c').
Proof.
  intros Hwf. pose proof Hwf as (Hok & Hfacts & Hqna).
  destruct (prologue_spec now uid un fn ln c Hok)
    as (p & c1 & c2 & Hrun1 & Hrun2 & Hstore2 & Hok2 & _).
  assert (well_formed (knowledge c2)) as Hwf2 by (by apply (same_store_shape c)).
  unfold process_message.
  rewrite (bind_returns _ _ _ _ _ Hrun1), (bind_returns _ _ _ _ _ Hrun2).
  destruct (correction_question flag data) as [question|].
  { destruct (correction_chain_returns now uid question msg c2 Hok2) as [c' Hrun].
    by eexists _, c'. }
  rewrite bind_run. cbn [gets].
  destruct (existsb (fun ph : list N * handler => re_search ph.1 (lower msg)) (rules c2))
    eqn:Hany.
  { apply first_match_split in Hany
      as (before & [pattern h] & after & Hsplit & Hbefore & Hhit).
    rewrite Hsplit.
    destruct (dispatch_rules_first now rnd uid msg p before pattern h after c2)
      as (body & c3 & Hrun3 & _); [done..|].
    rewrite (bind_returns _ _ _ _ _ Hrun3). by eexists _, c3. }
  rewrite (bind_returns _ _ _ _ _
             (dispatch_rules_none now rnd uid msg p _ c2 (existsb_false_all _ _ Hany))).
  rewrite bind_run. unfold _check_qna_match at 1. rewrite bind_run. cbn [gets mret M_ret].
  assert (exists outcome c',
    (if existsb (fun word => str_in word (lower msg)) weather_words
     then
       match re_search_group [Lit (u "погода"); Rep is_space 1] (lower msg) with
       | Some group1 =>
           get_weather now (strip group1) ≫= fun weather => mret (plain_outcome weather)
       | None =>
           mret {| response := weather_city_prompt; needs_followup := true;
                   action := Some (u "weather"); correction_data := None |}
       end
     else
       _calculate_confidence msg ≫= fun confidence =>
       gets learning_modes ≫= fun modes =>
       if bool_decide (confidence < confidence_threshold modes)%Qc
          && auto_correction modes
       then mret {| response := teach_me_prompt msg; needs_followup := true;
                    action := Some (u "correction");
                    correction_data := Some {[ u "question" := msg ]} |}
       else _get_fallback_response rnd msg ≫= fun text => mret (plain_outcome text)) c2
    = (Ret outcome, c')) as Hrest.
  { destruct (existsb _ weather_words).
    - destruct (re_search_group _ _) as [group1|]; [|by eexists _, _].
      rewrite bind_run.
      destruct (get_weather_returns now (strip group1) c2) as [weather Hweather].
      destruct (get_weather now (strip group1) c2) as [r c3]. simpl in Hweather. subst r.
      by eexists _, _.
    - rewrite bind_run. unfold _calculate_confidence. rewrite bind_run.
      cbn [gets mret M_ret]. rewrite bind_run. cbn [gets].
      destruct (bool_decide _ && _); [by eexists _, _|].
      destruct (choice_spec rnd (fallback_responses msg) c2) as (body & Hchoice & _);
        [done|].
      unfold _get_fallback_response. rewrite (bind_returns _ _ _ _ _ Hchoice).
      by eexists _, _. }
  destruct (check_qna_match (default [] (qna (knowledge c2))) msg) as [[|ch a]|];
    [exact Hrest | | exact Hrest].
  destruct (learn_from_interaction_spec msg (ch :: a) uid c2) as (c3 & Hrun3 & _).
  rewrite (bind_returns _ _ _ _ _ Hrun3). by eexists _, _.
Qed.

(** X25. On a well-formed knowledge document a turn never raises:
    [process_message] returns an outcome for every user, utterance
    and clock reading, whether or not it is a correction, and the
    document it leaves is well-formed again. *)
Theorem X25_turn_always_returns now rnd uid msg un fn ln flag data c :
  well_formed (knowledge c) ->
  exists outcome c',
    process_message now rnd uid msg un fn ln flag data c = (Ret outcome, c') /\
    well_formed (knowledge c').
Proof.
  intros Hwf.
  destruct (turn_returns now rnd uid msg un fn ln flag data c Hwf) as (outcome & c' & Hrun).
  exists outcome, c'. split; [done|].
  pose proof (process_message_shape now rnd uid msg un fn ln flag data c Hwf) as Hshape.
  by rewrite Hrun in Hshape.
Qed.

Lemma serves_shape c c' : serves c c' -> shape_kept c c'.
Proof.
  intros [now rnd uid body un fn ln flag data | now city | | ].
  - apply process_message_shape.
  - apply get_weather_shape.
  - intros (Hok & Hfacts & Hqna). by destruct c as [[]].
  - intros Hwf. by destruct c.
Qed.

Lemma served_shape c0 c : served c0 c -> shape_kept c0 c.
Proof.
  induction 1 as [|c c' _ IH Hstep]; [done|].
  etrans; [exact IH | by apply serves_shape].
Qed.

End NeverRaises.

Section NeverRaisesSamples.
Import LatinCyrillic Runs Chats.

Local Existing Instance runtime.

(** A turn on the fresh object. *)
Lemma X25_witness :
  exists outcome c',
    process_message (WS := Providers.unknown_city) t0 0 42 (u "qwerty")
      (Some (u "ivan")) (Some (u "Иван")) None false None fresh = (Ret outcome, c') /\
    well_formed (knowledge c').
Proof.
  apply (X25_turn_always_returns (WS := Providers.unknown_city) t0 0 42 (u "qwerty")
           (Some (u "ivan")) (Some (u "Иван")) None false None fresh).
  apply default_knowledge_well_formed.
Defined.

End NeverRaisesSamples.
